(** * purplequery: the query and dataframe nodes of the SQL evaluator

    A shallow embedding of [dataframe_node.py] (QueryExpression,
    SetOperation, Select, TableReference) and of the parts of
    [purplequery/evaluatable_node.py] they rely on (Value, Selector,
    function calls, analytic function calls), with the properties the
    specification states about them.

    Layout: Python values and exceptions, the pandas objects the sources
    manipulate, the syntax tree, the query nodes, and then the theorems. *)

From stdpp Require Import base list strings gmap pretty sorting.
From Stdlib Require Import ZArith Lia Ascii.

Set Warnings "-register-all".

Local Open Scope Z_scope.
Local Open Scope string_scope.
Local Open Scope list_scope.

(* ===================================================================== *)
(** * Python values *)
(* ===================================================================== *)

(** [LiteralType = Union[NoneType, bool, int, float, str, Tuple]].  The
    embedding keeps the kinds whose equality and order are exact: [None],
    booleans, integers and strings.  Floating point values and tuples are
    outside it. *)
Inductive PyValue :=
| PNone
| PBool (b : bool)
| PInt (z : Z)
| PStr (s : string).

#[global] Instance PyValue_eq_dec : EqDecision PyValue.
Proof. solve_decision. Defined.

(** [isinstance(v, int)].  In Python [bool] is a subclass of [int], so
    [True] and [False] are instances of [int]. *)
Definition isinstance_int (v : PyValue) : bool :=
  match v with
  | PBool _ | PInt _ => true
  | PNone | PStr _ => false
  end.

(** The integer an [int] instance denotes in arithmetic: [True - 1 = 0]. *)
Definition int_value (v : PyValue) : Z :=
  match v with
  | PInt z => z
  | PBool true => 1
  | _ => 0
  end.

(** [seq[i]] for a Python sequence: a negative index counts from the end,
    an index outside [-len, len) raises [IndexError] (here [None]). *)
Definition py_index {A} (l : list A) (i : Z) : option A :=
  let n := Z.of_nat (length l) in
  if decide (0 <= i < n) then l !! Z.to_nat i
  else if decide (- n <= i < 0) then l !! Z.to_nat (n + i)
  else None.

(** [seq[start:stop]]: both bounds are clamped to the sequence, negative
    bounds count from the end. *)
Definition py_clamp (n i : Z) : Z :=
  if decide (i < 0) then Z.max 0 (n + i) else Z.min i n.

Definition py_slice {A} (l : list A) (start stop : Z) : list A :=
  let n := Z.of_nat (length l) in
  let a := py_clamp n start in
  let b := py_clamp n stop in
  take (Z.to_nat (b - a)) (drop (Z.to_nat a) l).

(** [str.upper()] on ASCII text. *)
Definition ascii_upper (c : ascii) : ascii :=
  let n := nat_of_ascii c in
  if decide (97 <= n <= 122)%nat then ascii_of_nat (n - 32) else c.

Fixpoint str_upper (s : string) : string :=
  match s with
  | EmptyString => EmptyString
  | String c s' => String (ascii_upper c) (str_upper s')
  end.

(** [s.split('.')]: the empty string splits into one empty part. *)
Fixpoint str_split_aux (sep : ascii) (s : string) (cur : string) : list string :=
  match s with
  | EmptyString => [cur]
  | String c s' =>
      if decide (c = sep) then cur :: str_split_aux sep s' EmptyString
      else str_split_aux sep s' (cur +:+ String c EmptyString)
  end.

Definition str_split (sep : ascii) (s : string) : list string :=
  str_split_aux sep s EmptyString.

(** ['.'.join(parts)]. *)
Definition str_join (sep : string) (parts : list string) : string :=
  String.concat sep parts.

(* ===================================================================== *)
(** * Types of columns *)
(* ===================================================================== *)

(** Modelled from the spec: [bq_types.py] is not among the sources.  A type
    is one of a fixed set of scalar kinds or a composite, Array(T) or
    Struct(ordered list of (optional name, T)).  The scalar kinds listed are
    the ones the sources name. *)
Inductive BQScalarType := BOOLEAN | INTEGER | FLOAT | STRING | TIMESTAMP.

Inductive BQType :=
| BQScalar (t : BQScalarType)
| BQArray (t : BQType)
| BQStructType (names : list (option string)) (types : list BQType).

#[global] Instance BQScalarType_eq_dec : EqDecision BQScalarType.
Proof. solve_decision. Defined.

(* ===================================================================== *)
(** * The syntax tree *)
(* ===================================================================== *)

(** The functions of [FunctionCall._FUNCTION_MAP], and COUNT, which has a
    factory of its own.  ARRAY_AGG builds tuples and is left out. *)
Inductive Function :=
| Min | Max | Sum | Mod | Concat | Timestamp | Current_Timestamp | Row_Number
| Count (distinct : bool).

(** [isinstance(function_info, _AggregatingFunction)]. *)
Definition is_aggregating (f : Function) : bool :=
  match f with
  | Min | Max | Sum | Count _ => true
  | Mod | Concat | Timestamp | Current_Timestamp | Row_Number => false
  end.

(** [cls.__name__.upper()]. *)
Definition Function_name (f : Function) : string :=
  match f with
  | Min => "MIN" | Max => "MAX" | Sum => "SUM" | Mod => "MOD"
  | Concat => "CONCAT" | Timestamp => "TIMESTAMP"
  | Current_Timestamp => "CURRENT_TIMESTAMP" | Row_Number => "ROW_NUMBER"
  | Count _ => "COUNT"
  end.

(** Nodes of the syntax tree.  [EMPTY_NODE] in an optional position is
    [None].  [position] of a selector is [None] until the owning Select
    populates it.  The node classes the verified functions never inspect
    (Array, Case, Cast, Exists, Extract, If, InCheck, NullCheck, Struct)
    are left out. *)
Inductive Node :=
| Value (value : PyValue) (type_ : option BQScalarType)
| Field (path : list string)
| Selector (child : Node) (alias : option string) (position : option Z)
| StarSelector (expression : option Node) (exception : option (list string))
               (position : option Z)
| BinaryExpression (left : Node) (operator : string) (right : Node)
| Not (expression : Node)
| UnaryNegation (expression : Node)
| GroupedBy (expression : Node)
| NonAggregatingFunctionCall (function_info : Function) (children : list Node)
| AggregatingFunctionCall (function_info : Function) (children : list Node)
| AnalyticFunctionCall (function_info : Function) (children : list Node)
                       (num_arguments num_partition_by : nat)
                       (order_by_ascending : list bool).

(* ===================================================================== *)
(** * Exceptions *)
(* ===================================================================== *)

Inductive ExceptionClass :=
| ValueError | NotImplementedError | RuntimeError | TypeError
| IndexError | KeyError | AttributeError
| PandasError      (* an error raised inside pandas *)
| OutsideModel.    (* the embedding does not describe this case *)

(** What is interpolated into a message by [str.format]. *)
Inductive FormatArg :=
| FInt (z : Z)
| FStr (s : string)
| FValue (v : PyValue)
| FNode (n : Node)
| FPath (p : list string)
| FNames (l : list string)
| FScalarType (t : option BQScalarType).

(** [raise cls(template.format( *args ))]: the message is kept as its
    template, with one [{}] per argument, and the arguments. *)
Record Exception := Raise {
  exn_class : ExceptionClass;
  exn_template : string;
  exn_args : list FormatArg
}.

Inductive result (A : Type) :=
| Ok (a : A)
| Error (e : Exception).
Arguments Ok {A} a.
Arguments Error {A} e.

Definition bind {A B} (r : result A) (k : A -> result B) : result B :=
  match r with
  | Ok a => k a
  | Error e => Error e
  end.

Notation "x <- r ;; k" := (bind r (fun x => k))
  (at level 100, r at next level, right associativity).

Definition of_option {A} (o : option A) (e : Exception) : result A :=
  match o with
  | Some a => Ok a
  | None => Error e
  end.

Definition is_Ok {A} (r : result A) : Prop :=
  match r with Ok _ => True | Error _ => False end.

(** [[f(x) for x in l]], stopping at the first exception. *)
Fixpoint mapM {A B} (f : A -> result B) (l : list A) : result (list B) :=
  match l with
  | [] => Ok []
  | x :: l' => y <- f x ;; ys <- mapM f l' ;; Ok (y :: ys)
  end.

(** [[x for keep, x in zip(mask, l) if keep]]. *)
Fixpoint keep_where {A} (mask : list bool) (l : list A) : list A :=
  match mask, l with
  | b :: mask', x :: l' => if b then x :: keep_where mask' l' else keep_where mask' l'
  | _, _ => []
  end.

(* ===================================================================== *)
(** * pandas objects *)
(* ===================================================================== *)

(** The sources compute on pandas objects.  pandas is a library, not part
    of the repository: what follows describes the operations the sources
    call, on a table kept row by row.  A row is its index label and its
    cells, one per column. *)
Definition Label := PyValue.

Record Series := mkSeries {
  s_name : option string;
  s_items : list (Label * PyValue)
}.

Record DataFrame := mkDataFrame {
  columns : list string;
  rows : list (Label * list PyValue)
}.

Definition index (df : DataFrame) : list Label := map fst (rows df).
Definition s_index (s : Series) : list Label := map fst (s_items s).
Definition s_values (s : Series) : list PyValue := map snd (s_items s).

(** [TypedDataFrame.to_list_of_lists]: the cells, row by row. *)
Definition to_list_of_lists (df : DataFrame) : list (list PyValue) :=
  map snd (rows df).

(** [pd.DataFrame([])] and [pd.DataFrame()]. *)
Definition empty_frame : DataFrame := mkDataFrame [] [].

Definition cell (i : nat) (cells : list PyValue) : PyValue :=
  default PNone (cells !! i).

Fixpoint index_of (name : string) (cols : list string) : option nat :=
  match cols with
  | [] => None
  | c :: cs => if decide (c = name) then Some 0%nat else S <$> index_of name cs
  end.

(** The position of the one column called [name]: pandas raises [KeyError]
    when there is none and [ValueError] when the label is not unique. *)
Definition column_position (cols : list string) (name : string) : result nat :=
  match index_of name cols with
  | None => Error (Raise KeyError "{}" [FStr name])
  | Some i =>
      if decide (name ∈ drop (S i) cols)
      then Error (Raise ValueError "The column label '{}' is not unique." [FStr name])
      else Ok i
  end.

(** [df[name]]: one column as a Series, with the frame's index. *)
Definition get_column (df : DataFrame) (name : string) : result Series :=
  i <- column_position (columns df) name ;;
  Ok (mkSeries (Some name) (map (fun r => (r.1, cell i r.2)) (rows df))).

(** [pd.DataFrame(series)]: a frame of one column named after the series;
    a series without a name gives the column label [0], written ["0"]. *)
Definition series_to_frame (s : Series) : DataFrame :=
  mkDataFrame [default "0" (s_name s)] (map (fun it => (it.1, [it.2])) (s_items s)).

(** [df[name] = value] with a scalar: the column is replaced when it
    exists and appended otherwise. *)
Definition set_constant_column (df : DataFrame) (name : string) (v : PyValue)
  : DataFrame :=
  match index_of name (columns df) with
  | Some i => mkDataFrame (columns df) (map (fun r => (r.1, <[i := v]> r.2)) (rows df))
  | None => mkDataFrame (columns df ++ [name]) (map (fun r => (r.1, r.2 ++ [v])) (rows df))
  end.

(** ** pd.concat along the rows

    [pd.concat([l, r])] aligns the two frames on their column labels.  When
    both carry the same labels in the same order the rows are stacked as
    they are.  Otherwise the result has the union of the labels, and a row
    has a null in each column its own frame lacks; pandas needs unique
    labels to do that.  The union is listed here in order of appearance
    (older pandas releases sort it); nothing below depends on that order.
    Index labels are kept, so they can repeat in the result. *)
Definition reindex_cells (src dst : list string) (cells : list PyValue)
  : list PyValue :=
  map (fun c => match index_of c src with
                | Some i => cell i cells
                | None => PNone
                end) dst.

Definition union_columns (l r : list string) : list string :=
  l ++ filter (fun c => c ∉ l) r.

Definition pd_concat (l r : DataFrame) : result DataFrame :=
  if decide (columns l = columns r) then
    Ok (mkDataFrame (columns l) (rows l ++ rows r))
  else if decide (NoDup (columns l) ∧ NoDup (columns r)) then
    let cols := union_columns (columns l) (columns r) in
    Ok (mkDataFrame cols
          (map (fun row => (row.1, reindex_cells (columns l) cols row.2)) (rows l) ++
           map (fun row => (row.1, reindex_cells (columns r) cols row.2)) (rows r)))
  else
    Error (Raise PandasError "Reindexing only valid with uniquely valued Index objects" []).

(** ** pd.concat along the columns

    [pd.concat(frames, axis=1)] aligns the frames on their index.  Frames
    with one and the same index are put side by side.  The outer join
    pandas builds for differing indexes is not described. *)
Definition beside (a b : list (Label * list PyValue)) : list (Label * list PyValue) :=
  zip_with (fun x y => (x.1, x.2 ++ y.2)) a b.

Fixpoint pd_concat_columns (frames : list DataFrame) : result DataFrame :=
  match frames with
  | [] => Error (Raise ValueError "No objects to concatenate" [])
  | [d] => Ok d
  | d :: ds =>
      rest <- pd_concat_columns ds ;;
      if decide (index d = index rest) then
        Ok (mkDataFrame (columns d ++ columns rest) (beside (rows d) (rows rest)))
      else Error (Raise OutsideModel "concat of frames with different indexes" [])
  end.

(** ** Boolean row selection

    [df.loc[mask]] with a boolean Series whose index is the frame's index
    keeps the rows whose mask value is true.  A mask that holds something
    other than booleans, or whose index is not the frame's, is not
    described. *)
Definition bool_mask (mask : Series) : result (list bool) :=
  mapM (fun it => match it.2 with
                  | PBool b => Ok b
                  | _ => Error (Raise OutsideModel "mask value that is not a boolean" [])
                  end) (s_items mask).

Definition pd_loc (df : DataFrame) (mask : Series) : result DataFrame :=
  if decide (s_index mask = index df) then
    bs <- bool_mask mask ;;
    Ok (mkDataFrame (columns df) (keep_where bs (rows df)))
  else Error (Raise OutsideModel "mask with another index than the frame" []).

(** [df[start:stop]]: a slice of the rows by position. *)
Definition pd_slice (df : DataFrame) (start stop : Z) : DataFrame :=
  mkDataFrame (columns df) (py_slice (rows df) start stop).

(** ** Order of sort keys

    Nulls go last whatever the direction ([na_position='last']).  Booleans
    and integers compare as numbers, strings by code points.  Python
    refuses to compare a number with a string, so a key column must hold
    one kind of value ([homogeneous]). *)
Definition is_null (v : PyValue) : bool :=
  match v with PNone => true | _ => false end.

Definition kind_rank (v : PyValue) : nat :=
  match v with
  | PBool _ | PInt _ => 0
  | PStr _ => 1
  | PNone => 2
  end.

Definition value_leb (a b : PyValue) : bool :=
  match a, b with
  | PStr s, PStr t => String.leb s t
  | PStr _, _ => false
  | _, PStr _ => true
  | _, _ => Z.leb (int_value a) (int_value b)
  end.

(** [key_leb asc a b]: [a] may come before [b] in the sorted column. *)
Definition key_leb (asc : bool) (a b : PyValue) : bool :=
  match is_null a, is_null b with
  | _, true => true
  | true, false => false
  | false, false => if asc then value_leb a b else value_leb b a
  end.

Definition homogeneous (vs : list PyValue) : bool :=
  let ks := map kind_rank (filter (fun v => is_null v = false) vs) in
  match ks with
  | [] => true
  | k :: _ => bool_decide (Forall (fun k' => k' = k) ks)
  end.

(** Rows compared on several keys, the first key first. *)
Fixpoint lex_leb (keys : list (nat * bool)) (r1 r2 : Label * list PyValue) : bool :=
  match keys with
  | [] => true
  | (i, asc) :: ks =>
      let a := cell i r1.2 in
      let b := cell i r2.2 in
      if key_leb asc a b
      then (if key_leb asc b a then lex_leb ks r1 r2 else true)
      else false
  end.

(** Two rows with the same value in every key column. *)
Definition same_keys (positions : list nat) (z r : Label * list PyValue) : Prop :=
  Forall (fun i => cell i r.2 = cell i z.2) positions.

#[global] Instance same_keys_dec positions z r : Decision (same_keys positions z r).
Proof. unfold same_keys. apply _. Defined.

(** A stable sort: an element is inserted before the first element it may
    precede, so it stays ahead of the equal elements that followed it. *)
Fixpoint insert_sorted {A} (leb : A -> A -> bool) (x : A) (l : list A) : list A :=
  match l with
  | [] => [x]
  | y :: l' => if leb x y then x :: y :: l' else y :: insert_sorted leb x l'
  end.

Definition stable_sort {A} (leb : A -> A -> bool) (l : list A) : list A :=
  foldr (insert_sorted leb) [] l.

(** [frame.take(indexer)]: the rows at the given positions. *)
Definition take_rows {A} (indexer : list nat) (l : list A) : list A :=
  omap (fun i => l !! i) indexer.

(** ** Grouping *)

Record SeriesGroupBy := mkSeriesGroupBy {
  sg_series : Series;
  sg_keys : list (list PyValue)   (* the key of each row, in row order *)
}.

Inductive PandasSeries :=
| PlainSeries (s : Series)
| GroupedSeries (g : SeriesGroupBy).

Inductive PandasFrame :=
| Frame (df : DataFrame)
| FrameGroupBy (df : DataFrame) (by_ : list string).

(** [df.groupby(names)]: every name must be a column. *)
Definition pd_groupby (df : DataFrame) (by_ : list string) : result PandasFrame :=
  _ <- mapM (column_position (columns df)) by_ ;;
  Ok (FrameGroupBy df by_).

(** [grouped[name]]: a column of a grouped frame, with the keys of its rows. *)
Definition grouped_column (df : DataFrame) (by_ : list string) (name : string)
  : result SeriesGroupBy :=
  positions <- mapM (column_position (columns df)) by_ ;;
  s <- get_column df name ;;
  Ok (mkSeriesGroupBy s (map (fun r => map (fun i => cell i r.2) positions) (rows df))).

(** What the function given to [transform] returns for one group: a
    Series of the group's length, or a scalar to repeat. *)
Inductive TransformResult :=
| TSeries (s : Series)
| TScalar (v : PyValue).

Definition group_items (g : SeriesGroupBy) (k : list PyValue) : list (Label * PyValue) :=
  map snd (filter (fun p => p.1 = k) (zip (sg_keys g) (s_items (sg_series g)))).

(** [grouped.transform(func)]: [func] is applied to the sub-series of each
    group, and every row receives the value at its place within its group;
    the result has the index of the ungrouped series.  pandas leaves rows
    with a null key out of every group; what [transform] then returns
    differs between releases, and is not described. *)
Fixpoint transform_rows (func : Series -> result TransformResult) (g : SeriesGroupBy)
    (seen : list (list PyValue)) (todo : list (list PyValue * (Label * PyValue)))
  : result (list (Label * PyValue)) :=
  match todo with
  | [] => Ok []
  | (k, (lbl, _)) :: todo' =>
      if bool_decide (PNone ∈ k) then
        Error (Raise OutsideModel "transform over a null group key" [])
      else
        let grp := group_items g k in
        r <- func (mkSeries (s_name (sg_series g)) grp) ;;
        v <- match r with
             | TScalar v => Ok v
             | TSeries s =>
                 if decide (length (s_items s) = length grp) then
                   of_option (s_values s !! length (filter (fun k' => k' = k) seen))
                     (Raise PandasError "Length mismatch" [])
                 else Error (Raise PandasError "Length mismatch" [])
             end ;;
        vs <- transform_rows func g (k :: seen) todo' ;;
        Ok ((lbl, v) :: vs)
  end.

Definition pd_transform (func : Series -> result TransformResult) (g : SeriesGroupBy)
  : result Series :=
  items <- transform_rows func g [] (zip (sg_keys g) (s_items (sg_series g))) ;;
  Ok (mkSeries (s_name (sg_series g)) items).

(* ===================================================================== *)
(** * Typed tables and columns *)
(* ===================================================================== *)

(** Modelled from the spec: [TypedDataFrame] and [TypedSeries] of
    [bq_types.py], a pandas object with the types of its columns.  A type
    is [None] for a column of NULLs. *)
Record TypedDataFrame := mkTypedDataFrame {
  dataframe : PandasFrame;
  types : list (option BQType)
}.

Record TypedSeries := mkTypedSeries {
  series : PandasSeries;
  type_ : option BQType
}.

(** What [evaluate] returns: a single column or a table. *)
Inductive Evaluated :=
| EvSeries (s : TypedSeries)
| EvFrame (t : TypedDataFrame).

Definition as_frame (f : PandasFrame) : result DataFrame :=
  match f with
  | Frame df => Ok df
  | FrameGroupBy _ _ =>
      Error (Raise AttributeError "DataFrameGroupBy used as a DataFrame" [])
  end.

Definition as_series (s : PandasSeries) : result Series :=
  match s with
  | PlainSeries s => Ok s
  | GroupedSeries _ =>
      Error (Raise AttributeError "SeriesGroupBy used as a Series" [])
  end.

(* ===================================================================== *)
(** * evaluatable_node.py: construction of nodes *)
(* ===================================================================== *)

(** [Value.__init__]: a value and its type are both absent or both given. *)
Definition Value_init (value : PyValue) (type_ : option BQScalarType) : result Node :=
  if xorb (is_null value) (bool_decide (type_ = None)) then
    Error (Raise ValueError "Value(None, None) means NULL; Value({}, {}) is not allowed"
             [FValue value; FScalarType type_])
  else Ok (Value value type_).

(** [FunctionCall._FUNCTION_MAP]: the registry, keyed by upper-case name. *)
Definition FUNCTION_MAP : gmap string Function :=
  list_to_map (map (fun f => (Function_name f, f))
                 [Min; Max; Sum; Mod; Concat; Timestamp; Current_Timestamp; Row_Number]).

(** An OVER clause: the optional PARTITION BY expressions and the optional
    ORDER BY expressions, each with an optional direction. *)
Definition OverClause : Type :=
  option (list Node) * option (list (Node * option string)).

(** [_AnalyticFunctionCall.__init__]. *)
Definition AnalyticFunctionCall_init (function_info : Function)
    (maybe_arguments : option (list Node)) (over_clause : OverClause) : Node :=
  let '(maybe_partition_by, maybe_order_by) := over_clause in
  let partition_by := default [] maybe_partition_by in
  let order_by := default [] maybe_order_by in
  let order_by_ascending :=
    map (fun od => match od.2 with
                   | None => true
                   | Some direction => bool_decide (str_upper direction ≠ "DESC")
                   end) order_by in
  let arguments := default [] maybe_arguments in
  let arguments :=
    if decide (Function_name function_info = "ROW_NUMBER")
    then [Value (PInt 1) (Some INTEGER)] else arguments in
  AnalyticFunctionCall function_info
    (arguments ++ partition_by ++ map fst order_by)
    (length arguments) (length partition_by) order_by_ascending.

(** [_NonAggregatingFunctionCall.__init__] and
    [_AggregatingFunctionCall.__init__]. *)
Definition NonAggregatingFunctionCall_init (function_info : Function)
    (expression : option (list Node)) : Node :=
  NonAggregatingFunctionCall function_info
    (default [Value (PInt 1) (Some INTEGER)] expression).

Definition AggregatingFunctionCall_init (function_info : Function)
    (expression : option (list Node)) : Node :=
  AggregatingFunctionCall function_info (default [] expression).

(** [FunctionCall.create]. *)
Definition FunctionCall_create (function_name : string)
    (expression : option (list Node)) (over_clause : option OverClause) : result Node :=
  let function_name := str_upper function_name in
  match FUNCTION_MAP !! function_name with
  | None =>
      Error (Raise NotImplementedError "Function {} not implemented" [FStr function_name])
  | Some function_info =>
      if is_aggregating function_info &&
         match expression with
         | None => true
         | Some e => bool_decide (length e ≠ 1%nat)
         end
      then Error (Raise NotImplementedError
                    "Aggregating functions are only supported with 1 argument" [])
      else
        match over_clause with
        | Some oc => Ok (AnalyticFunctionCall_init function_info expression oc)
        | None =>
            if is_aggregating function_info
            then Ok (AggregatingFunctionCall_init function_info expression)
            else Ok (NonAggregatingFunctionCall_init function_info expression)
        end
  end.

(* ===================================================================== *)
(** * evaluatable_node.py: the functions *)
(* ===================================================================== *)

(** [value, = values]: exactly one argument. *)
Definition unpack_one {A} (l : list A) : result A :=
  match l with
  | [x] => Ok x
  | [] => Error (Raise ValueError "not enough values to unpack (expected 1, got 0)" [])
  | _ => Error (Raise ValueError "too many values to unpack (expected 1)" [])
  end.

Definition non_null (vs : list PyValue) : list PyValue :=
  filter (fun v => is_null v = false) vs.

Definition all_int (vs : list PyValue) : bool :=
  forallb isinstance_int vs.

(** [Row_Number.function]: [pd.Series(range(1, len(value) + 1),
    index=_get_index(value))]; for a Series [_get_index] is its index. *)
Definition Row_Number_function (values : list Series) : result Series :=
  value <- unpack_one values ;;
  Ok (mkSeries None
        (zip (s_index value)
             (map (fun i => PInt (Z.of_nat i)) (seq 1 (length (s_items value)))))).

(** The aggregating functions on a column of integers; pandas skips
    nulls.  Other contents are not described. *)
Definition aggregating_function (f : Function) (values : list Series) : result PyValue :=
  value <- unpack_one values ;;
  let vs := non_null (s_values value) in
  if all_int vs then
    match f with
    | Sum => Ok (PInt (foldr Z.add 0 (map int_value vs)))
    | Max => Ok (match vs with
                 | [] => PNone
                 | v :: vs' => PInt (foldr Z.max (int_value v) (map int_value vs'))
                 end)
    | Min => Ok (match vs with
                 | [] => PNone
                 | v :: vs' => PInt (foldr Z.min (int_value v) (map int_value vs'))
                 end)
    | Count false => Ok (PInt (Z.of_nat (length vs)))
    | Count true => Ok (PInt (Z.of_nat (length (remove_dups (map int_value vs)))))
    | _ => Error (Raise RuntimeError "Invalid function info {}" [FStr (Function_name f)])
    end
  else Error (Raise OutsideModel "aggregate of a column that is not of integers" []).

(** The non-aggregating functions: [function(values)]. *)
Definition function (f : Function) (values : list Series) : result Series :=
  match f with
  | Row_Number => Row_Number_function values
  | Concat =>
      match values with
      | [x] => Ok x      (* reduce(operator.add, [x]) *)
      | _ => Error (Raise OutsideModel "CONCAT of several columns" [])
      end
  | Mod =>
      match values with
      | [_; _] => Error (Raise OutsideModel "MOD" [])
      | _ => Error (Raise ValueError "a, b = values: wrong number of values" [])
      end
  | _ => Error (Raise OutsideModel "timestamps" [])
  end.

(** [_Function._result_type]: [None] means the common type of the
    arguments. *)
Definition result_type_of (f : Function) : option BQType :=
  match f with
  | Count _ | Row_Number => Some (BQScalar INTEGER)
  | Concat => Some (BQScalar STRING)
  | Timestamp | Current_Timestamp => Some (BQScalar TIMESTAMP)
  | Min | Max | Sum | Mod => None
  end.

(** [_AggregatingFunctionCall._evaluate_node]: the aggregate of the whole
    column, as a Series of one row with the default index. *)
Definition AggregatingFunctionCall_evaluate_values (f : Function)
    (values : list Series) : result Series :=
  v <- aggregating_function f values ;;
  Ok (mkSeries None [(PInt 0, v)]).

(* ===================================================================== *)
(** * The catalog and the evaluation context *)
(* ===================================================================== *)

(** [DatasetType]: project -> dataset -> table name -> table. *)
Definition DatasetType : Type :=
  gmap string (gmap string (gmap string TypedDataFrame)).

(** Modelled from the spec: [EvaluationContext] of
    [bq_abstract_syntax_tree.py] is not among the sources.  The record has
    the attributes the sources read and write: the catalog, the current
    table, the link to the enclosing context, the grouping paths, the names
    of the selectors, and the columns of each bound table. *)
Inductive EvaluationContext := mkContext {
  table_context : DatasetType;
  table : TypedDataFrame;
  subcontext : option EvaluationContext;
  group_by_paths : list (list string);
  selector_names : list string;
  table_to_column_ids : list (string * list string)
}.

Definition set_table (c : EvaluationContext) (t : TypedDataFrame) : EvaluationContext :=
  mkContext (table_context c) t (subcontext c) (group_by_paths c)
            (selector_names c) (table_to_column_ids c).

Definition set_selector_names (c : EvaluationContext) (names : list string)
  : EvaluationContext :=
  mkContext (table_context c) (table c) (subcontext c) (group_by_paths c)
            names (table_to_column_ids c).

Definition set_group_by_paths (c : EvaluationContext) (paths : list (list string))
  : EvaluationContext :=
  mkContext (table_context c) (table c) (subcontext c) paths
            (selector_names c) (table_to_column_ids c).

(** Modelled from the spec: [maybe_add_column] and [lookup] of the
    context, as the analytic function call uses them on its fresh context:
    an evaluated expression is registered as one more column of the
    context's table and is found again by its path.  The column is named
    after its position; its path is that one name. *)
Definition column_name (i : nat) : string := "_c" +:+ pretty i.

Definition maybe_add_column (t : TypedDataFrame) (column : TypedSeries)
  : result (list string * TypedDataFrame) :=
  df <- as_frame (dataframe t) ;;
  s <- as_series (series column) ;;
  let name := column_name (length (columns df)) in
  if decide (columns df = []) then
    Ok ([name], mkTypedDataFrame
                  (Frame (mkDataFrame [name] (map (fun it => (it.1, [it.2])) (s_items s))))
                  (types t ++ [type_ column]))
  else if decide (s_index s = index df) then
    Ok ([name], mkTypedDataFrame
                  (Frame (mkDataFrame (columns df ++ [name])
                            (zip_with (fun r it => (r.1, r.2 ++ [it.2])) (rows df) (s_items s))))
                  (types t ++ [type_ column]))
  else Error (Raise OutsideModel "column with another index than the table" []).

Fixpoint add_columns (t : TypedDataFrame) (children : list TypedSeries)
  : result (list (list string) * TypedDataFrame) :=
  match children with
  | [] => Ok ([], t)
  | child :: rest =>
      pt <- maybe_add_column t child ;;
      ps <- add_columns pt.2 rest ;;
      Ok (pt.1 :: ps.1, ps.2)
  end.

Definition lookup_column (t : TypedDataFrame) (path : list string) : result TypedSeries :=
  let name := str_join "." path in
  match dataframe t with
  | Frame df =>
      i <- column_position (columns df) name ;;
      s <- get_column df name ;;
      Ok (mkTypedSeries (PlainSeries s) (default None (types t !! i)))
  | FrameGroupBy df by_ =>
      i <- column_position (columns df) name ;;
      g <- grouped_column df by_ name ;;
      Ok (mkTypedSeries (GroupedSeries g) (default None (types t !! i)))
  end.

(** Expressions evaluated against one table have the index of that table.
    [columns_as_children rws metas] are such columns: the i-th holds the
    i-th cell of every row of [rws], under a name and a type of its own. *)
Definition column_series (rws : list (Label * list PyValue)) (i : nat)
    (meta : option string * option BQType) : TypedSeries :=
  mkTypedSeries (PlainSeries (mkSeries meta.1 (map (fun r => (r.1, cell i r.2)) rws)))
                meta.2.

Definition columns_as_children (rws : list (Label * list PyValue))
    (metas : list (option string * option BQType)) : list TypedSeries :=
  imap (column_series rws) metas.

(** The names [maybe_add_column] gives to the first [m] columns, and the
    rows cut down to their first [m] cells. *)
Definition column_names (m : nat) : list string := map column_name (seq 0 m).

Definition first_cells (m : nat) (rws : list (Label * list PyValue))
  : list (Label * list PyValue) :=
  map (fun r => (r.1, map (fun i => cell i r.2) (seq 0 m))) rws.

(** With one argument column in front, the PARTITION BY values of a row
    are its cells 1 to [np]. *)
Definition partition_key (np : nat) (r : Label * list PyValue) : list PyValue :=
  map (fun i => cell i r.2) (seq 1 np).

(** The number of a row within its partition: one more than the number of
    earlier rows with its key. *)
Fixpoint row_numbers (seen keys : list (list PyValue)) : list Z :=
  match keys with
  | [] => []
  | k :: keys' =>
      Z.of_nat (S (length (filter (fun k' => k' = k) seen))) :: row_numbers (k :: seen) keys'
  end.

(** [Evaluated.types] and [Evaluated.dataframe]: a column counts as a table
    of one column. *)
Definition Evaluated_types (e : Evaluated) : list (option BQType) :=
  match e with
  | EvSeries ts => [type_ ts]
  | EvFrame t => types t
  end.

Definition Evaluated_dataframe (e : Evaluated) : result DataFrame :=
  match e with
  | EvSeries ts => s <- as_series (series ts) ;; Ok (series_to_frame s)
  | EvFrame t => as_frame (dataframe t)
  end.

(** [isinstance(e, TypedSeries) and isinstance(e.series, SeriesGroupBy)]. *)
Definition is_group_shaped (e : Evaluated) : bool :=
  match e with
  | EvSeries ts => match series ts with
                   | GroupedSeries _ => true
                   | PlainSeries _ => false
                   end
  | EvFrame _ => false
  end.

Definition DEFAULT_TABLE_NAME : option string := None.

(* ===================================================================== *)
(** * The query nodes *)
(* ===================================================================== *)

(** ** Selector.name

    ['_f{}'.format(position)], and [Selector.name]: the alias, else the
    name of the child, else the positional placeholder; [x or y] takes [y]
    when [x] is [None] or empty.  [child_name] is [name()] of the child. *)
Definition positional_name (position : Z) : string := "_f" +:+ pretty position.

Definition Selector_name_with (child_name : Node -> option string)
    (child : Node) (alias : option string) (position : option Z) : result string :=
  match alias with
  | Some a => Ok a
  | None =>
      match position with
      | None =>
          Error (Raise RuntimeError
                   "Accessing name of Selector {} before position is populated."
                   [FNode (Selector child alias position)])
      | Some p =>
          Ok (match child_name child with
              | Some n => if decide (n = "") then positional_name p else n
              | None => positional_name p
              end)
      end
  end.

(** ** Evaluation in a grouped table

    [_get_index]: the index of a frame, or, for a grouped frame, the index
    of an aggregate of it: the distinct keys in sorted order.  Groups on
    several columns carry a MultiIndex, which is not described. *)
Definition keys_leb (k1 k2 : list PyValue) : bool :=
  match k1, k2 with
  | a :: _, b :: _ => key_leb true a b
  | _, _ => true
  end.

Definition row_keys (df : DataFrame) (positions : list nat) : list (list PyValue) :=
  map (fun r => map (fun i => cell i r.2) positions) (rows df).

Definition distinct_keys (keys : list (list PyValue)) : list (list PyValue) :=
  stable_sort keys_leb (remove_dups (filter (fun k => PNone ∉ k) keys)).

Definition key_label (k : list PyValue) : result Label :=
  match k with
  | [v] => Ok v
  | _ => Error (Raise OutsideModel "group key of several columns" [])
  end.

Definition get_index (f : PandasFrame) : result (list Label) :=
  match f with
  | Frame df => Ok (index df)
  | FrameGroupBy df by_ =>
      positions <- mapM (column_position (columns df)) by_ ;;
      mapM key_label (distinct_keys (row_keys df positions))
  end.

(** [len(dataframe)]: the number of rows, or of groups. *)
Definition frame_len (f : PandasFrame) : result nat :=
  idx <- get_index f ;; Ok (length idx).

(** [Value._evaluate_leaf_node]: the constant, once per row or group. *)
Definition Value_evaluate_leaf_node (value : PyValue) (type_ : option BQScalarType)
    (t : TypedDataFrame) : result TypedSeries :=
  idx <- get_index (dataframe t) ;;
  Ok (mkTypedSeries (PlainSeries (mkSeries None (map (fun l => (l, value)) idx)))
        (BQScalar <$> type_)).

(** [_AggregatingFunctionCall._evaluate_node_in_group_by]:
    [values[0].apply(lambda x: aggregating_function([x]))], one value per
    group, indexed by the keys in sorted order. *)
Definition AggregatingFunctionCall_evaluate_in_group_by (f : Function)
    (g : SeriesGroupBy) : result Series :=
  items <- mapM (fun k =>
                   lbl <- key_label k ;;
                   v <- aggregating_function f [mkSeries None (group_items g k)] ;;
                   Ok (lbl, v))
                (distinct_keys (sg_keys g)) ;;
  Ok (mkSeries None items).

(** The modules [bq_abstract_syntax_tree], [bq_types] and [join] are not
    among the sources.  What the sources call from them is an interface:
    [name()] of an expression, the coercion of types, the context built for
    a FROM clause, the operations of the evaluation context, the grouping
    rewrite and the evaluation of an expression.  Operations that update
    the context in place return the updated context.

    pandas sorts on a single key with numpy's default [quicksort], which
    promises a sorted result and nothing about equal keys; the indexer it
    returns, [nargsort], belongs to the interface too. *)
Class Externals := {
  inferred_name : Node -> option string;
  implicitly_coerce : list (option BQType) -> result (option BQType);
  DataSource : Type;
  create_context : DataSource -> DatasetType -> result EvaluationContext;
  EvaluationContext_init : DatasetType -> EvaluationContext;
  EMPTY_CONTEXT : EvaluationContext;
  add_table_from_dataframe :
    EvaluationContext -> TypedDataFrame -> option string -> result EvaluationContext;
  add_subcontext :
    EvaluationContext -> EvaluationContext -> result EvaluationContext;
  get_canonical_path : EvaluationContext -> list string -> result (list string);
  do_group_by :
    EvaluationContext -> list Node -> list Node -> result (list Node * EvaluationContext);
  mark_grouped_by :
    Node -> list (list string) -> EvaluationContext -> result Node;
  evaluate : Node -> EvaluationContext -> result Evaluated;
  nargsort : list PyValue -> bool -> list nat
}.

Section Evaluator.

Context `{Externals}.

(** ** DataFrame.sort_values

    [df.sort_values(by, ascending=directions)]: one key is sorted with
    [nargsort], several keys with a lexicographic sort that is stable. *)
Definition key_column (i : nat) (df : DataFrame) : list PyValue :=
  map (fun r => cell i r.2) (rows df).

Definition sort_values (df : DataFrame) (by_ : list string) (ascending : list bool)
  : result DataFrame :=
  if decide (length by_ = length ascending) then
    positions <- mapM (column_position (columns df)) by_ ;;
    if forallb (fun i => homogeneous (key_column i df)) positions then
      match positions, ascending with
      | [], _ => Error (Raise OutsideModel "sort_values without a key" [])
      | [i], [asc] =>
          Ok (mkDataFrame (columns df)
                (take_rows (nargsort (key_column i df) asc) (rows df)))
      | _, _ =>
          Ok (mkDataFrame (columns df)
                (stable_sort (lex_leb (zip positions ascending)) (rows df)))
      end
    else Error (Raise TypeError "'<' not supported between instances" [])
  else Error (Raise ValueError "Length of ascending ({}) != length of by ({})"
                [FInt (Z.of_nat (length ascending)); FInt (Z.of_nat (length by_))]).

(** What numpy promises of [nargsort] on a column of one kind of value:
    the indexer holds every position once, and the keys it points at are
    in order. *)
Definition nargsort_contract : Prop :=
  forall (keys : list PyValue) (ascending : bool),
    homogeneous keys = true ->
    nargsort keys ascending ≡ₚ seq 0 (length keys) /\
    Sorted (fun i j => key_leb ascending (cell i keys) (cell j keys) = true)
           (nargsort keys ascending).

(** ** Selector.name *)

Definition Selector_name := Selector_name_with inferred_name.

(** [field.name()] for an element of a select list. *)
Definition field_name (field : Node) : result string :=
  match field with
  | Selector child alias position => Selector_name child alias position
  | _ => Error (Raise AttributeError "name() of a field that is not a Selector"
                  [FNode field])
  end.

(** ** Select *)

(** [isinstance(node, Selector)]. *)
Definition is_Selector (n : Node) : bool :=
  match n with
  | Selector _ _ _ => true
  | _ => false
  end.

Record Select := mkSelect {
  modifier : option string;
  fields : list Node;
  from_ : option DataSource;
  where_ : option Node;
  group_by : option (list Node);
  having : option Node
}.

(** [field.position = i + 1]. *)
Definition set_position (p : Z) (n : Node) : Node :=
  match n with
  | Selector c a _ => Selector c a (Some p)
  | StarSelector e x _ => StarSelector e x (Some p)
  | _ => n
  end.

Definition number_fields (fields : list Node) : list Node :=
  imap (fun i f => set_position (Z.of_nat i + 1) f) fields.

(** One turn of the loop over [group_by] in [Select.__init__]. *)
Definition resolve_grouper (fields : list Node) (grouper : Node) : result Node :=
  match grouper with
  | Value v _ =>
      if isinstance_int v then
        field <- of_option (py_index fields (int_value v - 1))
                   (Raise IndexError "list index out of range" []) ;;
        name <- field_name field ;;
        Ok (Field [name])
      else
        Error (Raise ValueError "Attempt to group by a literal non-integer constant {}"
                 [FValue v])
  | _ => Ok grouper
  end.

(** [Select.__init__]. *)
Definition Select_init (modifier : option string) (fields : list Node)
    (from_ : option DataSource) (where_ : option Node)
    (group_by : option (list Node)) (having : option Node) : result Select :=
  let fields := number_fields fields in
  group_by <- match group_by with
              | None => Ok None
              | Some groupers =>
                  gs <- mapM (resolve_grouper fields) groupers ;; Ok (Some gs)
              end ;;
  Ok (mkSelect modifier fields from_ where_ group_by having).

(** [_evaluate_fields_as_dataframe]. *)
Definition evaluate_fields_as_dataframe (fields : list Node) (context : EvaluationContext)
  : result TypedDataFrame :=
  evaluated_fields <- mapM (fun field => evaluate field context) fields ;;
  match find (fun fe => is_group_shaped fe.2) (zip fields evaluated_fields) with
  | Some (field, _) =>
      Error (Raise ValueError
               "selecting expression {} that is not aggregated or grouped by"
               [FNode field])
  | None =>
      let types := concat (map Evaluated_types evaluated_fields) in
      combined_evaluated_data <-
        match evaluated_fields with
        | [] => Ok empty_frame
        | _ => frames <- mapM Evaluated_dataframe evaluated_fields ;;
               pd_concat_columns frames
        end ;;
      Ok (mkTypedDataFrame (Frame combined_evaluated_data) types)
  end.

(** [rows_to_keep = condition.evaluate(context)] and
    [TypedDataFrame(t.dataframe.loc[rows_to_keep.series], t.types)]. *)
Definition keep_rows (t : TypedDataFrame) (rows_to_keep : Evaluated) : result TypedDataFrame :=
  match rows_to_keep with
  | EvSeries ts =>
      df <- as_frame (dataframe t) ;;
      mask <- as_series (series ts) ;;
      kept <- pd_loc df mask ;;
      Ok (mkTypedDataFrame (Frame kept) (types t))
  | EvFrame _ => Error (Raise AttributeError "'TypedDataFrame' has no attribute 'series'" [])
  end.

(** [Select.get_dataframe], up to the WHERE clause: the context in which
    the fields are evaluated. *)
Definition Select_context (self : Select) (datasets : DatasetType)
    (outer_context : option EvaluationContext) : result EvaluationContext :=
  context <- match from_ self with
             | None => Ok (EvaluationContext_init datasets)
             | Some source => create_context source datasets
             end ;;
  context <- match outer_context with
             | Some outer => add_subcontext context outer
             | None => Ok context
             end ;;
  names <- mapM field_name (filter (fun f => is_Selector f = true) (fields self)) ;;
  let context := set_selector_names context names in
  match where_ self with
  | Some condition =>
      rows_to_keep <- evaluate condition context ;;
      t <- keep_rows (table context) rows_to_keep ;;
      Ok (set_table context t)
  | None => Ok context
  end.

(** The HAVING clause of [Select.get_dataframe]. *)
Definition having_context (datasets : DatasetType) (result_ : TypedDataFrame)
    (context : EvaluationContext) : result EvaluationContext :=
  hc <- add_table_from_dataframe (EvaluationContext_init datasets) result_ None ;;
  hc <- add_subcontext hc context ;;
  Ok (set_group_by_paths hc (group_by_paths context)).

Definition apply_having (having : Node) (datasets : DatasetType)
    (result_ : TypedDataFrame) (context : EvaluationContext) : result TypedDataFrame :=
  hc <- having_context datasets result_ context ;;
  having <- mark_grouped_by having (group_by_paths context) hc ;;
  rows_to_keep <- evaluate having hc ;;
  keep_rows result_ rows_to_keep.

(** [Select.get_dataframe], from the evaluation of the fields on. *)
Definition Select_result (fields : list Node) (having : option Node)
    (datasets : DatasetType) (context : EvaluationContext)
  : result (TypedDataFrame * option string) :=
  result_ <- evaluate_fields_as_dataframe fields context ;;
  result_ <- match having with
             | Some h => apply_having h datasets result_ context
             | None => Ok result_
             end ;;
  Ok (result_, DEFAULT_TABLE_NAME).

Definition set_fields (self : Select) (fields : list Node) : Select :=
  mkSelect (modifier self) fields (from_ self) (where_ self) (group_by self) (having self).

Definition set_where (self : Select) (condition : option Node) : Select :=
  mkSelect (modifier self) (fields self) (from_ self) condition (group_by self)
           (having self).

(** [Select.get_dataframe]: the outcome, and the node as the call leaves
    it ([self.fields] is assigned when there is a GROUP BY). *)
Definition Select_get_dataframe (self : Select) (datasets : DatasetType)
    (outer_context : option EvaluationContext)
  : result (TypedDataFrame * option string) * Select :=
  if decide (modifier self = Some "DISTINCT") then
    (Error (Raise NotImplementedError "SELECT DISTINCT not implemented" []), self)
  else
    match Select_context self datasets outer_context with
    | Error e => (Error e, self)
    | Ok context =>
        match group_by self with
        | None => (Select_result (fields self) (having self) datasets context, self)
        | Some groupers =>
            match do_group_by context (fields self) groupers with
            | Error e => (Error e, self)
            | Ok (fields', context') =>
                (Select_result fields' (having self) datasets context',
                 set_fields self fields')
            end
        end
    end.

(** ** TableReference *)

(** [TableReference.__init__]: a path of one part is split at the dots. *)
Definition TableReference_init (path : list string) : list string :=
  match path with
  | [p] => str_split "." p
  | _ => path
  end.

Definition sorted_keys {V} (m : gmap string V) : list string :=
  stable_sort String.leb (map fst (map_to_list m)).

(** The first half of [TableReference.get_dataframe]: the path the node
    holds after the attempt to qualify it. *)
Definition qualify_path (path : list string) (datasets : DatasetType)
  : result (list string) :=
  if decide (length path < 3)%nat then
    match map_to_list datasets with
    | [(project, project_datasets)] =>
        if decide (length path = 1%nat) then
          match map_to_list project_datasets with
          | [(dataset, _)] => Ok (project :: dataset :: path)
          | _ => Error (Raise ValueError
                          "Non-fully-qualified table {} with multiple possible datasets {}"
                          [FPath path; FNames (sorted_keys project_datasets)])
          end
        else Ok (project :: path)
    | _ => Error (Raise ValueError
                    "Non-fully-qualified table {} with multiple possible projects {}"
                    [FPath path; FNames (sorted_keys datasets)])
    end
  else Ok path.

Definition key_error (k : string) : Exception := Raise KeyError "{}" [FStr k].

(** The second half: [project_id, dataset_id, table_id = self.path] and the
    three lookups. *)
Definition fetch_table (path : list string) (datasets : DatasetType)
  : result (TypedDataFrame * option string) :=
  match path with
  | [project_id; dataset_id; table_id] =>
      p <- of_option (datasets !! project_id) (key_error project_id) ;;
      d <- of_option (p !! dataset_id) (key_error dataset_id) ;;
      t <- of_option (d !! table_id) (key_error table_id) ;;
      Ok (t, Some table_id)
  | _ => Error (Raise ValueError "wrong number of values to unpack (expected 3)" [])
  end.

(** [TableReference.get_dataframe]: the outcome and [self.path] as the
    call leaves it. *)
Definition TableReference_get_dataframe (path : list string) (datasets : DatasetType)
  : result (TypedDataFrame * option string) * list string :=
  match qualify_path path datasets with
  | Error e => (Error e, path)
  | Ok path' => (fetch_table path' datasets, path')
  end.

(** ** SetOperation *)

(** [SetOperation.get_dataframe] once both sides have been evaluated. *)
Definition SetOperation_combine (set_operator : string)
    (left_dataframe right_dataframe : TypedDataFrame)
  : result (TypedDataFrame * option string) :=
  let num_left_columns := length (types left_dataframe) in
  let num_right_columns := length (types right_dataframe) in
  if decide (num_left_columns ≠ num_right_columns) then
    Error (Raise ValueError "Queries in UNION ALL have mismatched column count: {} vs {}"
             [FInt (Z.of_nat num_left_columns); FInt (Z.of_nat num_right_columns)])
  else
    combined_types <-
      mapM (fun lr => implicitly_coerce [lr.1; lr.2])
           (zip (types left_dataframe) (types right_dataframe)) ;;
    if decide (set_operator = "UNION_ALL") then
      l <- as_frame (dataframe left_dataframe) ;;
      r <- as_frame (dataframe right_dataframe) ;;
      df <- pd_concat l r ;;
      Ok (mkTypedDataFrame (Frame df) combined_types, DEFAULT_TABLE_NAME)
    else
      Error (Raise NotImplementedError "set operation {} not implemented"
               [FStr set_operator]).

(** ** QueryExpression *)

(** One turn of the loop of [QueryExpression._order_by]: the column to
    sort by. *)
Definition order_by_column (context : EvaluationContext) (field : Node) : result string :=
  match field with
  | Field path =>
      p <- get_canonical_path context path ;; Ok (str_join "." p)
  | Value v _ =>
      if isinstance_int v then
        df <- as_frame (dataframe (table context)) ;;
        of_option (py_index (columns df) (int_value v - 1))
          (Raise IndexError "index out of bounds" [])
      else
        Error (Raise ValueError "Attempt to order by a literal non-integer constant {}"
                 [FValue v])
  | _ => Error (Raise ValueError "Invalid field specification {}" [FNode field])
  end.

(** [direction == 'DESC'] gives [False], anything else [True]. *)
Definition order_by_ascending_flag (direction : option string) : bool :=
  bool_decide (direction ≠ Some "DESC").

(** [QueryExpression._order_by]. *)
Definition QueryExpression_order_by (order_by : list (Node * option string))
    (typed_dataframe : TypedDataFrame) (table_name : option string)
    (datasets : DatasetType) : result TypedDataFrame :=
  context <- add_table_from_dataframe (EvaluationContext_init datasets)
               typed_dataframe table_name ;;
  fields <- mapM (fun fd => order_by_column context fd.1) order_by ;;
  let directions := map (fun fd => order_by_ascending_flag fd.2) order_by in
  df <- as_frame (dataframe (table context)) ;;
  sorted <- sort_values df fields directions ;;
  Ok (mkTypedDataFrame (Frame sorted) (types (table context))).

(** [value, = expression.evaluate(EMPTY_CONTEXT).series], an integer. *)
Definition constant_int (expression : Node) : result Z :=
  ev <- evaluate expression EMPTY_CONTEXT ;;
  match ev with
  | EvSeries ts =>
      s <- as_series (series ts) ;;
      v <- unpack_one (s_values s) ;;
      if isinstance_int v then Ok (int_value v)
      else Error (Raise TypeError "slice indices must be integers" [])
  | EvFrame _ => Error (Raise AttributeError "'TypedDataFrame' has no attribute 'series'" [])
  end.

(** [QueryExpression._limit]. *)
Definition QueryExpression_limit (limit : Node * option Node)
    (typed_dataframe : TypedDataFrame) : result TypedDataFrame :=
  limit_ <- constant_int limit.1 ;;
  offset <- match limit.2 with
            | Some offset_expression => constant_int offset_expression
            | None => Ok 0
            end ;;
  df <- as_frame (dataframe typed_dataframe) ;;
  Ok (mkTypedDataFrame (Frame (pd_slice df offset (limit_ + offset)))
        (types typed_dataframe)).

(** ** The dataframe nodes and [get_dataframe] *)

Inductive DataframeNode :=
| QueryExpression (with_expression : option (list (string * DataframeNode)))
                  (base_query : DataframeNode)
                  (order_by : option (list (Node * option string)))
                  (limit : option (Node * option Node))
| SetOperation (left_query : DataframeNode) (set_operator : string)
               (right_query : DataframeNode)
| SelectNode (select : Select)
| TableReference (path : list string).

(** [get_dataframe] of each node class: the outcome, and the node as the
    call leaves it. *)
Fixpoint get_dataframe (node : DataframeNode) (datasets : DatasetType)
  : result (TypedDataFrame * option string) * DataframeNode :=
  match node with
  | QueryExpression with_expression base_query order_by limit =>
      match with_expression with
      | Some _ =>
          (Error (Raise NotImplementedError "WITH expressions are not implemented yet." []),
           node)
      | None =>
          let (r, base_query') := get_dataframe base_query datasets in
          (tn <- r ;;
           t <- match order_by with
                | Some ob => QueryExpression_order_by ob tn.1 tn.2 datasets
                | None => Ok tn.1
                end ;;
           t <- match limit with
                | Some l => QueryExpression_limit l t
                | None => Ok t
                end ;;
           Ok (t, DEFAULT_TABLE_NAME),
           QueryExpression with_expression base_query' order_by limit)
      end
  | SetOperation left_query set_operator right_query =>
      let (rl, left_query') := get_dataframe left_query datasets in
      match rl with
      | Error e => (Error e, SetOperation left_query' set_operator right_query)
      | Ok (left_dataframe, _) =>
          let (rr, right_query') := get_dataframe right_query datasets in
          (right_ <- rr ;; SetOperation_combine set_operator left_dataframe right_.1,
           SetOperation left_query' set_operator right_query')
      end
  | SelectNode select =>
      let (r, select') := Select_get_dataframe select datasets None in
      (r, SelectNode select')
  | TableReference path =>
      let (r, path') := TableReference_get_dataframe path datasets in
      (r, TableReference path')
  end.

(** ** The analytic function call *)

(** [_Function.compute_result_type]. *)
Definition compute_result_type (f : Function) (argument_types : list (option BQType))
  : result (option BQType) :=
  match result_type_of f with
  | Some t => Ok (Some t)
  | None => implicitly_coerce argument_types
  end.

(** [lambda x: function([x])], with the function chosen by the kind of
    [function_info]. *)
Definition window_function (f : Function) (x : Series) : result TransformResult :=
  if is_aggregating f
  then v <- aggregating_function f [x] ;; Ok (TScalar v)
  else s <- function f [x] ;; Ok (TSeries s).

(** [_AnalyticFunctionCall._evaluate_node], step by step.  The context is
    fresh and only its table is used, so the table stands for it.

    "Execute the order by, if present: sort the context". *)
Definition analytic_order_by (t : TypedDataFrame) (order_by_paths : list (list string))
    (order_by_ascending : list bool) : result TypedDataFrame :=
  match order_by_paths with
  | [] => Ok t
  | _ =>
      df <- as_frame (dataframe t) ;;
      sorted <- sort_values df (map (str_join ".") order_by_paths) order_by_ascending ;;
      Ok (mkTypedDataFrame (Frame sorted) (types t))
  end.

(** "Execute the partition by": group by the PARTITION BY columns, or put
    all the rows in a single group. *)
Definition analytic_partition_by (t : TypedDataFrame)
    (partition_by_paths : list (list string)) : result TypedDataFrame :=
  df <- as_frame (dataframe t) ;;
  grouped_table <- match partition_by_paths with
                   | [] => pd_groupby (set_constant_column df "__constant__" (PInt 100))
                                      ["__constant__"]
                   | _ => pd_groupby df (map (str_join ".") partition_by_paths)
                   end ;;
  Ok (mkTypedDataFrame grouped_table (types t)).

(** "Call the function on each group, calculating a value for each row". *)
Definition analytic_transform (function_info : Function) (t : TypedDataFrame)
    (argument_paths : list (list string)) : result TypedSeries :=
  evaluated_arguments <- mapM (lookup_column t) argument_paths ;;
  result_type <- compute_result_type function_info (map type_ evaluated_arguments) ;;
  evaluated_argument <- unpack_one evaluated_arguments ;;
  match series evaluated_argument with
  | GroupedSeries g =>
      result_ <- pd_transform (window_function function_info) g ;;
      Ok (mkTypedSeries (PlainSeries result_) result_type)
  | PlainSeries _ => Error (Raise OutsideModel "transform of an ungrouped column" [])
  end.

Definition AnalyticFunctionCall_evaluate_node (function_info : Function)
    (num_arguments num_partition_by : nat) (order_by_ascending : list bool)
    (evaluated_children : list TypedSeries) : result TypedSeries :=
  let table0 := mkTypedDataFrame (Frame empty_frame) [] in
  pt <- add_columns table0 evaluated_children ;;
  let paths := pt.1 in
  let argument_paths := take num_arguments paths in
  let partition_by_paths := take num_partition_by (drop num_arguments paths) in
  let order_by_paths := drop (num_arguments + num_partition_by) paths in
  sorted_table <- analytic_order_by pt.2 order_by_paths order_by_ascending ;;
  grouped_table <- analytic_partition_by sorted_table partition_by_paths ;;
  analytic_transform function_info grouped_table argument_paths.

End Evaluator.

(* ===================================================================== *)
(** * evaluatable_node.py: further nodes *)
(* ===================================================================== *)

(** ** Dotted names *)

(** A string without the separator. *)
Fixpoint no_sep (sep : ascii) (s : string) : bool :=
  match s with
  | EmptyString => true
  | String c s' => if decide (c = sep) then false else no_sep sep s'
  end.

(** ** Copies of analytic calls, and COUNT *)

(** [_AnalyticFunctionCall.copy]: a call of the same function on new
    children, cut into arguments, PARTITION BY and ORDER BY expressions at
    the sizes of the node, the directions spelled out again. *)
Definition AnalyticFunctionCall_copy (function_info : Function)
    (num_arguments num_partition_by : nat) (order_by_ascending : list bool)
    (new_children : list Node) : Node :=
  let na := Z.of_nat num_arguments in
  let np := Z.of_nat num_partition_by in
  AnalyticFunctionCall_init function_info
    (Some (py_slice new_children 0 na))
    (Some (py_slice new_children na (na + np)),
     Some (zip_with (fun argument (ascending : bool) =>
                       (argument, Some (if ascending then "ASC" else "DESC")))
             (py_slice new_children (na + np) (Z.of_nat (length new_children)))
             order_by_ascending)).

(** [_CounteeType]: a string, meant to be the literal [*], or an optional
    modifier and the expression counted. *)
Inductive Countee :=
| CountLiteral (s : string)
| CountExpression (maybe_distinct : option string) (argument : Node).

(** [Count.create_count_function_call]. *)
Definition Count_create_count_function_call (countee : Countee)
    (over_clause : option OverClause) : result Node :=
  countee <- match countee with
             | CountLiteral s =>
                 if decide (s ≠ "*")
                 then Error (Raise ValueError "Invalid expression COUNT({})" [FStr s])
                 else Ok (None, Value (PInt 1) (Some INTEGER))
             | CountExpression maybe_distinct argument => Ok (maybe_distinct, argument)
             end ;;
  distinct <- match countee.1 with
              | None => Ok false
              | Some m =>
                  if decide (m = "DISTINCT") then Ok true
                  else Error (Raise NotImplementedError
                                "Non-DISTINCT modifiers for COUNT are not implemented: {}"
                                [FStr m])
              end ;;
  match over_clause with
  | None => Ok (AggregatingFunctionCall_init (Count distinct) (Some [countee.2]))
  | Some oc => Ok (AnalyticFunctionCall_init (Count distinct) (Some [countee.2]) oc)
  end.

(** What makes two values one element of a Python set: [True == 1] and
    [False == 0], and a number never equals a string. *)
Definition set_key (v : PyValue) : Z + string :=
  match v with
  | PStr s => inr s
  | _ => inl (int_value v)
  end.

(** [Count.aggregating_function]: the rows that are not null, or the
    distinct values among them. *)
Definition Count_aggregating_function (distinct : bool) (values : list Series)
  : result PyValue :=
  value <- unpack_one values ;;
  let value := non_null (s_values value) in
  Ok (PInt (Z.of_nat (if distinct then length (remove_dups (map set_key value))
                      else length value))).

(** ** The wildcard of a select list *)

(** [StarSelector.get_selectors]: the selectors a wildcard stands for.
    [replacement] holds, for REPLACE, triples of which the expression and
    the name are used; a later entry for a name overrides an earlier one,
    as in the dictionary built from them. *)
Definition replacement_map (replacement : list (Node * string)) (name : string)
  : option Node :=
  fst <$> last (filter (fun en => en.2 = name) replacement).

(** [selector.alias not in self.exception]. *)
Definition alias_not_in (names : list string) (selector : Node) : bool :=
  match selector with
  | Selector _ (Some alias) _ => bool_decide (alias ∉ names)
  | _ => true
  end.

Definition StarSelector_get_selectors (expression : option Node)
    (exception : option (list string)) (replacement : option (list (Node * string)))
    (context : EvaluationContext) : result (list Node) :=
  selectors <-
    match expression with
    | None =>
        df <- as_frame (dataframe (table context)) ;;
        mapM (fun col =>
                let path := str_split "." col in
                alias <- of_option (py_index path (-1))
                           (Raise IndexError "list index out of range" []) ;;
                Ok (Selector (Field path) (Some alias) None))
             (columns df)
    | Some (Field [table_identifier]) =>
        columns <- of_option (snd <$> find (fun tc => bool_decide (tc.1 = table_identifier))
                                        (table_to_column_ids context))
                     (Raise KeyError "{}" [FStr table_identifier]) ;;
        Ok (map (fun column => Selector (Field [table_identifier; column]) (Some column) None)
                columns)
    | Some e => Error (Raise ValueError "Cannot select {}.*" [FNode e])
    end ;;
  let selectors :=
    match exception with
    | None => selectors
    | Some names =>
        filter (fun selector => alias_not_in names selector = true) selectors
    end in
  let selectors :=
    match replacement with
    | None => selectors
    | Some r =>
        map (fun selector =>
               match selector with
               | Selector _ (Some alias) _ =>
                   match replacement_map r alias with
                   | Some e => Selector e (Some alias) None
                   | None => selector
                   end
               | _ => selector
               end) selectors
    end in
  Ok selectors.

(** The alias of a selector. *)
Definition selector_alias (n : Node) : option string :=
  match n with
  | Selector _ alias _ => alias
  | _ => None
  end.

(** ** IF and CASE *)

(** [seq[start:stop:step]] with a step other than 0: bounds that are left
    out run to the end of the sequence in the direction of the step, the
    others are clamped; the number of elements is computed as CPython
    does. *)
Definition slice_bound (n step : Z) (i : Z) : Z :=
  let lower := if decide (step < 0) then -1 else 0 in
  let upper := if decide (step < 0) then n - 1 else n in
  if decide (i < 0) then Z.max (i + n) lower else Z.min i upper.

Definition slice_length (start stop step : Z) : Z :=
  if decide (step < 0) then
    (if decide (stop < start) then (start - stop - 1) / (- step) + 1 else 0)
  else
    (if decide (start < stop) then (stop - start - 1) / step + 1 else 0).

Definition py_slice_step {A} (l : list A) (start stop : option Z) (step : Z) : list A :=
  let n := Z.of_nat (length l) in
  let start := match start with
               | Some i => slice_bound n step i
               | None => if decide (step < 0) then n - 1 else 0
               end in
  let stop := match stop with
              | Some i => slice_bound n step i
              | None => if decide (step < 0) then -1 else n
              end in
  omap (fun k => l !! Z.to_nat (start + Z.of_nat k * step))
       (seq 0 (Z.to_nat (slice_length start stop step))).

(** [self.where(cond, other)] on three Series with one and the same
    index: the value of [self] where the condition is true, the value of
    [other] where it is false, under the name of [self].  pandas wants a
    condition of booleans and raises a ValueError otherwise; a condition
    that holds a null, and Series with different indexes, which pandas
    aligns, are not described. *)
Definition Series_where (self cond other : Series) : result Series :=
  if decide (s_index cond = s_index self ∧ s_index other = s_index self) then
    if bool_decide (PNone ∈ s_values cond) then
      Error (Raise OutsideModel "condition with a null" [])
    else
      bs <- mapM (fun v => match v with
                           | PBool b => Ok b
                           | _ => Error (Raise ValueError
                                           "Boolean array expected for the condition" [])
                           end) (s_values cond) ;;
      Ok (mkSeries (s_name self)
            (zip_with (fun (b : bool) (so : (Label * PyValue) * (Label * PyValue)) =>
                         if b then so.1 else so.2)
                      bs (zip (s_items self) (s_items other))))
  else Error (Raise OutsideModel "where on columns with different indexes" []).

(** [type_ == BQScalarType.BOOLEAN]. *)
Definition is_boolean_type (t : option BQType) : bool :=
  match t with
  | Some (BQScalar BOOLEAN) => true
  | _ => false
  end.

Section MoreNodes.

Context `{Externals}.

(** [If._evaluate_node]. *)
Definition If_evaluate_node (evaluated_children : list TypedSeries) : result TypedSeries :=
  match evaluated_children with
  | [condition; then_; else_] =>
      if negb (is_boolean_type (type_ condition)) then
        Error (Raise ValueError "IF condition isn't boolean! Found: {!r}" [])
      else
        result_type <- implicitly_coerce [type_ then_; type_ else_] ;;
        t <- as_series (series then_) ;;
        c <- as_series (series condition) ;;
        e <- as_series (series else_) ;;
        s <- Series_where t c e ;;
        Ok (mkTypedSeries (PlainSeries s) result_type)
  | _ :: _ :: _ :: _ :: _ =>
      Error (Raise ValueError "too many values to unpack (expected 3)" [])
  | _ => Error (Raise ValueError "not enough values to unpack (expected 3, got {})"
                  [FInt (Z.of_nat (length evaluated_children))])
  end.

(** [isinstance(node, EvaluatableNode)]: the wildcard of a select list is
    a syntax tree node that is no expression; the other nodes are. *)
Definition is_EvaluatableNode (n : Node) : bool :=
  match n with
  | StarSelector _ _ _ => false
  | _ => true
  end.

(** [Case.__init__]: the children of the node, [when0, then0, when1, then1,
    ..., else].  With a comparand each WHEN becomes the comparison of the
    comparand with it.  The messages interpolate the comparand; an absent
    one leaves no argument. *)
Definition Case_when (comparand : option Node) (wt : Node * Node) : result (list Node) :=
  if is_EvaluatableNode wt.1 then
    match comparand with
    | None => Ok [wt.1; wt.2]
    | Some c =>
        if is_EvaluatableNode c then Ok [BinaryExpression c "=" wt.1; wt.2]
        else Error (Raise ValueError
                      "Invalid CASE expression; comparand {} must be an expression."
                      [FNode c])
    end
  else Error (Raise ValueError "Invalid CASE expression; WHEN {} must be an expression."
                (option_list (FNode <$> comparand))).

Definition Case_init (comparand : option Node) (whens : list (Node * Node))
    (else_ : option Node) : result (list Node) :=
  match whens with
  | [] => Error (Raise ValueError "Must provide at least one WHEN for a CASE" [])
  | _ =>
      children <- mapM (Case_when comparand) whens ;;
      Ok (concat children ++ [default (Value PNone None) else_])
  end.

(** [Case.copy]: [whens=zip(new_children[::2], new_children[1::-2])] after
    the ELSE was popped off the end.  When the zip is empty the outcome
    depends on the Python release (a list is tested for emptiness, an
    iterator is not): that case is not described. *)
Definition Case_copy (new_children : list Node) : result (list Node) :=
  match reverse new_children with
  | [] => Error (Raise IndexError "pop from empty list" [])
  | new_else_ :: rest =>
      let new_children := reverse rest in
      match zip (py_slice_step new_children None None 2)
                (py_slice_step new_children (Some 1) None (-2)) with
      | [] => Error (Raise OutsideModel "copy of a CASE without a WHEN" [])
      | whens => Case_init None whens (Some new_else_)
      end
  end.

(** [Case._evaluate_node]: the ELSE column is popped off the end, and the
    WHENs are walked backwards, each wrapping the result so far. *)
Definition Case_step (result_ : result TypedSeries) (ct : TypedSeries * TypedSeries)
  : result TypedSeries :=
  result_ <- result_ ;;
  if negb (is_boolean_type (type_ ct.1)) then
    Error (Raise ValueError "CASE condition isn't boolean! Found: {!r}" [])
  else
    t <- as_series (series ct.2) ;;
    c <- as_series (series ct.1) ;;
    r <- as_series (series result_) ;;
    s <- Series_where t c r ;;
    ty <- implicitly_coerce [type_ ct.2; type_ result_] ;;
    Ok (mkTypedSeries (PlainSeries s) ty).

Definition Case_evaluate_node (evaluated_children : list TypedSeries) : result TypedSeries :=
  match reverse evaluated_children with
  | [] => Error (Raise IndexError "pop from empty list" [])
  | result_ :: rest =>
      let evaluated_children := reverse rest in
      foldl Case_step (Ok result_)
            (zip (py_slice_step evaluated_children (Some (-2)) None (-2))
                 (py_slice_step evaluated_children (Some (-1)) None (-2)))
  end.

(** The type of a CASE read as nested IFs: the common type of a THEN and
    of what follows it, from the last WHEN back to the first. *)
Fixpoint case_result_type (thens : list (option BQType)) (else_ : option BQType)
  : result (option BQType) :=
  match thens with
  | [] => Ok else_
  | t :: thens' =>
      r <- case_result_type thens' else_ ;;
      implicitly_coerce [t; r]
  end.

End MoreNodes.

(** The values and the index of an evaluated column that is no group. *)
Definition plain_values (ts : TypedSeries) : list PyValue :=
  match series ts with
  | PlainSeries s => s_values s
  | GroupedSeries _ => []
  end.

Definition plain_name (ts : TypedSeries) : option string :=
  match series ts with
  | PlainSeries s => s_name s
  | GroupedSeries _ => None
  end.

Definition plain_on (idx : list Label) (ts : TypedSeries) : Prop :=
  exists s, series ts = PlainSeries s /\ s_index s = idx.

(** A column of type BOOLEAN that holds booleans and no null. *)
Definition boolean_column (ts : TypedSeries) : Prop :=
  is_boolean_type (type_ ts) = true /\
  Forall (fun v => exists b, v = PBool b) (plain_values ts).

(** CASE read as nested IFs: the THEN of the first WHEN that is true, the
    ELSE when there is none. *)
Fixpoint case_pick (whens : list (PyValue * PyValue)) (else_ : PyValue) : PyValue :=
  match whens with
  | [] => else_
  | (c, t) :: whens' => if bool_decide (c = PBool true) then t else case_pick whens' else_
  end.

(** [when0, then0, when1, then1, ...]: pairs laid out in a row. *)
Definition flat_pairs {A} (pairs : list (A * A)) : list A :=
  concat (map (fun p : A * A => [p.1; p.2]) pairs).

(** ** NOT, unary minus and null checks *)

(** [INTEGER] or [FLOAT]: [type_ in [BQScalarType.INTEGER, BQScalarType.FLOAT]]. *)
Definition is_numeric_type (t : option BQType) : bool :=
  match t with
  | Some (BQScalar INTEGER) | Some (BQScalar FLOAT) => true
  | _ => false
  end.

(** [~series] on a column of booleans and [-series] on a column of
    integers: row by row, index and name kept.  What pandas does with other
    contents depends on how the column is stored, and is not described. *)
Definition Series_invert (s : Series) : result Series :=
  items <- mapM (fun it : Label * PyValue =>
                   match it.2 with
                   | PBool b => Ok (it.1, PBool (negb b))
                   | _ => Error (Raise OutsideModel "~ of a value that is no boolean" [])
                   end) (s_items s) ;;
  Ok (mkSeries (s_name s) items).

Definition Series_neg (s : Series) : result Series :=
  items <- mapM (fun it : Label * PyValue =>
                   match it.2 with
                   | PInt z => Ok (it.1, PInt (- z))
                   | _ => Error (Raise OutsideModel "- of a value that is no integer" [])
                   end) (s_items s) ;;
  Ok (mkSeries (s_name s) items).

(** [Not._evaluate_node].  The type interpolated in the message is not
    kept. *)
Definition Not_evaluate_node (evaluated_children : list Evaluated) : result TypedSeries :=
  evaluated <- unpack_one evaluated_children ;;
  match evaluated with
  | EvFrame _ => Error (Raise ValueError "NOT expression must evaluate to a series" [])
  | EvSeries ts =>
      if negb (is_boolean_type (type_ ts)) then
        Error (Raise ValueError "NOT accepts only booleans but was given type: {}" [])
      else
        s <- as_series (series ts) ;;
        r <- Series_invert s ;;
        Ok (mkTypedSeries (PlainSeries r) (Some (BQScalar BOOLEAN)))
  end.

(** [UnaryNegation._evaluate_node]. *)
Definition UnaryNegation_evaluate_node (evaluated_children : list Evaluated)
  : result TypedSeries :=
  typed_value <- unpack_one evaluated_children ;;
  match typed_value with
  | EvFrame _ =>
      Error (Raise ValueError "UnaryNegation expression must evaluate to a series" [])
  | EvSeries ts =>
      if negb (is_numeric_type (type_ ts)) then
        Error (Raise TypeError
                 "UnaryNegation expression supports only integers and floats, got: {}" [])
      else
        s <- as_series (series ts) ;;
        r <- Series_neg s ;;
        Ok (mkTypedSeries (PlainSeries r) (type_ ts))
  end.

(** [NullCheck.__init__]: the one child and the direction, [True] for
    IS_NULL. *)
Definition NullCheck_init (expression : Node) (direction : string)
  : result (list Node * bool) :=
  if decide (direction = "IS_NULL") then Ok ([expression], true)
  else if decide (direction = "IS_NOT_NULL") then Ok ([expression], false)
  else Error (Raise ValueError
                "Invalid direction for NullCheck, not IS_NULL or IS_NOT_NULL: {}"
                [FStr direction]).

(** [NullCheck.copy]. *)
Definition NullCheck_copy (direction : bool) (new_arguments : list Node)
  : result (list Node * bool) :=
  expression <- of_option (py_index new_arguments 0)
                  (Raise IndexError "list index out of range" []) ;;
  NullCheck_init expression (if direction then "IS_NULL" else "IS_NOT_NULL").

(** [NullCheck._evaluate_node]: [value.isnull()] or [value.notnull()]. *)
Definition NullCheck_evaluate_node (direction : bool) (evaluated_children : list Evaluated)
  : result TypedSeries :=
  child <- of_option (py_index evaluated_children 0)
             (Raise IndexError "list index out of range" []) ;;
  match child with
  | EvFrame _ => Error (Raise AttributeError "'TypedDataFrame' has no attribute 'series'" [])
  | EvSeries ts =>
      value <- as_series (series ts) ;;
      Ok (mkTypedSeries
            (PlainSeries
               (mkSeries (s_name value)
                  (map (fun it : Label * PyValue =>
                          (it.1, PBool (if direction then is_null it.2
                                        else negb (is_null it.2))))
                       (s_items value))))
            (Some (BQScalar BOOLEAN)))
  end.

(** ** IN and NOT IN *)

(** [InCheck.__init__]: the children, the expression first, and the
    direction, [True] for IN. *)
Definition InCheck_init (expression : Node) (direction : string) (elements : list Node)
  : result (list Node * bool) :=
  if decide (direction = "IN") then Ok (expression :: elements, true)
  else if decide (direction = "NOT_IN") then Ok (expression :: elements, false)
  else Error (Raise ValueError "Invalid direction for InCheck, not IN or NOT_IN: {}"
                [FStr direction]).

(** [InCheck.copy]. *)
Definition InCheck_copy (direction : bool) (new_children : list Node)
  : result (list Node * bool) :=
  expression <- of_option (py_index new_children 0)
                  (Raise IndexError "list index out of range" []) ;;
  InCheck_init expression (if direction then "IN" else "NOT_IN")
    (py_slice new_children 1 (Z.of_nat (length new_children))).

(** [a == b] on two cells: a null equals nothing, [True] equals 1, a number
    never equals a string. *)
Definition cell_eq (a b : PyValue) : bool :=
  negb (is_null a) && negb (is_null b) && bool_decide (set_key a = set_key b).

(** The index pandas gives a Series built from a list. *)
Definition range_index (n : nat) : list Label :=
  map (fun i => PInt (Z.of_nat i)) (seq 0 n).

(** [expression == element] for two Series: pandas wants identically
    labelled operands. *)
Definition Series_eq (expression element : Series) : result (list bool) :=
  if decide (s_index element = s_index expression) then
    Ok (zip_with cell_eq (s_values expression) (s_values element))
  else Error (Raise ValueError "Can only compare identically-labeled Series objects" []).

(** [InCheck._evaluate_node].  [contained] starts as a Series of [False]
    on the default index and takes the disjunction with each comparison;
    [|] aligns its operands on their indexes, which is not described: the
    expression must carry the default index. *)
Definition InCheck_evaluate_node (direction : bool) (evaluated_children : list TypedSeries)
  : result TypedSeries :=
  match evaluated_children with
  | [] => Error (Raise IndexError "list index out of range" [])
  | expression_value :: element_values =>
      expression <- as_series (series expression_value) ;;
      let n := length (s_items expression) in
      contained <-
        foldl (fun (contained : result (list bool)) element_value =>
                 contained <- contained ;;
                 element <- as_series (series element_value) ;;
                 equal <- Series_eq expression element ;;
                 if decide (s_index expression = range_index n)
                 then Ok (zip_with orb contained equal)
                 else Error (Raise OutsideModel "| of columns with different indexes" []))
              (Ok (replicate n false)) element_values ;;
      Ok (mkTypedSeries
            (PlainSeries
               (mkSeries None
                  (zip (range_index n)
                       (map (fun b : bool => PBool (if direction then b else negb b))
                            contained))))
            (Some (BQScalar BOOLEAN)))
  end.

(** ** EXTRACT *)

Definition weekdays : list string :=
  ["SUNDAY"; "MONDAY"; "TUESDAY"; "WEDNESDAY"; "THURSDAY"; "FRIDAY"; "SATURDAY"].

Definition valid_parts : list string :=
  ["DAYOFWEEK"; "DAY"; "DAYOFYEAR"; "WEEK"; "ISOWEEK"; "MONTH"; "QUARTER"; "YEAR"; "ISOYEAR"]
  ++ map (fun day => "WEEK(" +:+ day +:+ ")") weekdays.

(** [Extract.__init__]: the part in upper case and the one child. *)
Definition Extract_init (part : string) (date_expression : Node)
  : result (string * list Node) :=
  let part := str_upper part in
  if decide (part ∈ valid_parts) then Ok (part, [date_expression])
  else Error (Raise ValueError "Not a valid date part to retrieve: {}" [FStr part]).

(** [Extract._evaluate_node].  Timestamps are outside the embedding: the
    branches that read the dates are not described. *)
Definition Extract_evaluate_node (part : string) (evaluated_children : list TypedSeries)
  : result TypedSeries :=
  child <- of_option (py_index evaluated_children 0)
             (Raise IndexError "list index out of range" []) ;;
  if decide (part ∈ ["ISOYEAR"; "ISOWEEK"]) then
    Error (Raise OutsideModel "isocalendar of a timestamp" [])
  else if String.prefix "WEEK(" part then
    Error (Raise NotImplementedError "{} not implemented" [FStr part])
  else Error (Raise OutsideModel "attribute of a timestamp" []).

(** ** Selector *)

(** [series.name = name], on a Series or on a grouped one. *)
Definition set_series_name (s : PandasSeries) (name : string) : PandasSeries :=
  match s with
  | PlainSeries s => PlainSeries (mkSeries (Some name) (s_items s))
  | GroupedSeries g =>
      GroupedSeries (mkSeriesGroupBy (mkSeries (Some name) (s_items (sg_series g)))
                       (sg_keys g))
  end.

Section SelectorNode.

Context `{Externals}.

(** [Selector.copy]: [Selector(new_children[0], self.name())]. *)
Definition Selector_copy (child : Node) (alias : option string) (position : option Z)
    (new_children : list Node) : result Node :=
  new_child <- of_option (py_index new_children 0)
                 (Raise IndexError "list index out of range" []) ;;
  name <- Selector_name child alias position ;;
  Ok (Selector new_child (Some name) None).

(** [Selector._evaluate_node]: the one evaluated child, under the name of
    the selector. *)
Definition Selector_evaluate_node (child : Node) (alias : option string)
    (position : option Z) (evaluated_arguments : list TypedSeries) : result TypedSeries :=
  result_ <- unpack_one evaluated_arguments ;;
  name <- Selector_name child alias position ;;
  Ok (mkTypedSeries (set_series_name (series result_) name) (type_ result_)).

(** [Selector.mark_grouped_by]. *)
Definition Selector_mark_grouped_by (child : Node) (alias : option string)
    (position : option Z) (group_by_paths : list (list string))
    (context : EvaluationContext) : result Node :=
  name <- Selector_name child alias position ;;
  path <- get_canonical_path context [name] ;;
  if decide (path ∈ group_by_paths) then Ok (GroupedBy (Selector child alias position))
  else
    marked <- mark_grouped_by child group_by_paths context ;;
    Selector_copy child alias position [marked].

End SelectorNode.

(* ===================================================================== *)
(** * An instance of the interface *)
(* ===================================================================== *)

(** The examples below run the query nodes against one implementation of
    the interface, small but built as the specification describes the
    missing modules.  Tables carry bare column names, so a canonical path
    is the path itself. *)

(** Modelled from the spec: the inferred name of an expression; a field
    reference is known by the last part of its path. *)
Definition demo_name (n : Node) : option string :=
  match n with
  | Field path => last path
  | _ => None
  end.

(** Modelled from the spec: [implicitly_coerce] of [bq_types.py] on scalar
    types.  A type coerces to itself, INTEGER and FLOAT to FLOAT, and types
    without a common supertype fail with a coercion error. *)
Definition coerce_pair (a b : BQScalarType) : result BQScalarType :=
  if decide (a = b) then Ok a
  else match a, b with
       | INTEGER, FLOAT | FLOAT, INTEGER => Ok FLOAT
       | _, _ => Error (Raise ValueError "Cannot implicitly coerce the given types: {}" [])
       end.

Fixpoint demo_coerce_from (acc : BQScalarType) (ts : list (option BQType))
  : result (option BQType) :=
  match ts with
  | [] => Ok (Some (BQScalar acc))
  | Some (BQScalar t) :: ts' => c <- coerce_pair acc t ;; demo_coerce_from c ts'
  | _ => Error (Raise OutsideModel "coercion of a type that is not scalar" [])
  end.

Definition demo_coerce (ts : list (option BQType)) : result (option BQType) :=
  match ts with
  | Some (BQScalar t) :: ts' => demo_coerce_from t ts'
  | _ => Error (Raise OutsideModel "coercion of a type that is not scalar" [])
  end.

(** Modelled from the spec: a fresh context, and the context operations.
    A SELECT without FROM yields one row, so the table of a fresh context
    has one row.  Field resolution first tries the local context, then
    walks outward. *)
Definition demo_init (datasets : DatasetType) : EvaluationContext :=
  mkContext datasets
    (mkTypedDataFrame (Frame (mkDataFrame ["0"] [(PInt 0, [PInt 1])])) [None])
    None [] [] [].

Definition demo_add_table (c : EvaluationContext) (t : TypedDataFrame)
    (name : option string) : result EvaluationContext :=
  Ok (set_table c t).

Definition demo_add_subcontext (c outer : EvaluationContext) : result EvaluationContext :=
  Ok (mkContext (table_context c) (table c) (Some outer) (group_by_paths c)
        (selector_names c) (table_to_column_ids c)).

Fixpoint demo_lookup (c : EvaluationContext) (path : list string) : result TypedSeries :=
  match c with
  | mkContext _ t sub _ _ _ =>
      match lookup_column t path with
      | Ok ts => Ok ts
      | Error e =>
          match sub with
          | Some outer => demo_lookup outer path
          | None => Error e
          end
      end
  end.

Definition demo_canonical_path (c : EvaluationContext) (path : list string)
  : result (list string) :=
  _ <- demo_lookup c path ;; Ok path.

(** Modelled from the spec: the "mark grouped" rewrite.  A field whose path
    is a grouping path becomes a pass-through read; [Selector] follows
    [Selector.mark_grouped_by] and [Selector.copy] of the sources; a literal
    returns itself. *)
Fixpoint demo_mark_grouped_by (n : Node) (paths : list (list string))
    (c : EvaluationContext) : result Node :=
  match n with
  | Field path => if decide (path ∈ paths) then Ok (GroupedBy n) else Ok n
  | Selector child alias position =>
      name <- Selector_name_with demo_name child alias position ;;
      if decide ([name] ∈ paths) then Ok (GroupedBy n)
      else child' <- demo_mark_grouped_by child paths c ;;
           Ok (Selector child' (Some name) None)
  | BinaryExpression l op r =>
      l' <- demo_mark_grouped_by l paths c ;;
      r' <- demo_mark_grouped_by r paths c ;;
      Ok (BinaryExpression l' op r')
  | _ => Ok n
  end.

(** Modelled from the spec: grouping.  Each GROUP BY expression is a field
    path; the table is partitioned by the grouping columns and every select
    field is rewritten. *)
Definition demo_do_group_by (c : EvaluationContext) (fields groupers : list Node)
  : result (list Node * EvaluationContext) :=
  paths <- mapM (fun g => match g with
                          | Field path => Ok path
                          | _ => Error (Raise OutsideModel "grouping by an expression" [])
                          end) groupers ;;
  df <- as_frame (dataframe (table c)) ;;
  grouped <- pd_groupby df (map (str_join ".") paths) ;;
  let c' := set_group_by_paths
              (set_table c (mkTypedDataFrame grouped (types (table c)))) paths in
  fields' <- mapM (fun f => demo_mark_grouped_by f paths c') fields ;;
  Ok (fields', c').

(** Modelled from the spec: [BinaryExpression] on two columns of integers
    with one index, for the operators of the examples. *)
Definition demo_binary (op : string) (a b : PyValue) : result PyValue :=
  if isinstance_int a && isinstance_int b then
    if decide (op = ">") then Ok (PBool (bool_decide (int_value a > int_value b)))
    else if decide (op = "=") then Ok (PBool (bool_decide (int_value a = int_value b)))
    else if decide (op = "+") then Ok (PInt (int_value a + int_value b))
    else Error (Raise OutsideModel "operator" [FStr op])
  else Error (Raise OutsideModel "operand that is not an integer" []).

Definition demo_binary_series (op : string) (l r : Series) : result Series :=
  if decide (s_index l = s_index r) then
    vs <- mapM (fun ab => demo_binary op ab.1 ab.2) (zip (s_values l) (s_values r)) ;;
    Ok (mkSeries None (zip (s_index l) vs))
  else Error (Raise OutsideModel "operands with different indexes" []).

(** The first value of each group: the pass-through read of a grouping
    column, indexed like an aggregate. *)
Definition first_of_groups (g : SeriesGroupBy) : result Series :=
  items <- mapM (fun k =>
                   lbl <- key_label k ;;
                   v <- of_option (head (map snd (group_items g k)))
                          (Raise OutsideModel "empty group" []) ;;
                   Ok (lbl, v))
                (distinct_keys (sg_keys g)) ;;
  Ok (mkSeries (s_name (sg_series g)) items).

Definition rename_series (name : string) (s : PandasSeries) : PandasSeries :=
  match s with
  | PlainSeries s => PlainSeries (mkSeries (Some name) (s_items s))
  | GroupedSeries g =>
      GroupedSeries (mkSeriesGroupBy (mkSeries (Some name) (s_items (sg_series g)))
                       (sg_keys g))
  end.

(** Modelled from the spec: evaluation of an expression.  A node evaluates
    its children against the same context and combines the results; an
    aggregate collapses the rows to one, or to one per group. *)
Fixpoint demo_evaluate (n : Node) (c : EvaluationContext) : result Evaluated :=
  match n with
  | Value v t => ts <- Value_evaluate_leaf_node v t (table c) ;; Ok (EvSeries ts)
  | Field path => ts <- demo_lookup c path ;; Ok (EvSeries ts)
  | Selector child alias position =>
      e <- demo_evaluate child c ;;
      name <- Selector_name_with demo_name child alias position ;;
      match e with
      | EvSeries ts => Ok (EvSeries (mkTypedSeries (rename_series name (series ts)) (type_ ts)))
      | EvFrame _ => Error (Raise OutsideModel "selector of a table" [])
      end
  | GroupedBy e =>
      ev <- demo_evaluate e c ;;
      match ev with
      | EvSeries ts =>
          match series ts with
          | GroupedSeries g =>
              s <- first_of_groups g ;;
              Ok (EvSeries (mkTypedSeries (PlainSeries s) (type_ ts)))
          | PlainSeries _ => Ok ev
          end
      | EvFrame _ => Ok ev
      end
  | AggregatingFunctionCall f [child] =>
      ev <- demo_evaluate child c ;;
      match ev with
      | EvSeries ts =>
          s <- match series ts with
               | PlainSeries s => AggregatingFunctionCall_evaluate_values f [s]
               | GroupedSeries g => AggregatingFunctionCall_evaluate_in_group_by f g
               end ;;
          Ok (EvSeries (mkTypedSeries (PlainSeries s)
                          (match result_type_of f with
                           | Some t => Some t
                           | None => type_ ts
                           end)))
      | EvFrame _ => Error (Raise OutsideModel "aggregate of a table" [])
      end
  | BinaryExpression l op r =>
      el <- demo_evaluate l c ;;
      er <- demo_evaluate r c ;;
      match el, er with
      | EvSeries tl, EvSeries tr =>
          sl <- as_series (series tl) ;;
          sr <- as_series (series tr) ;;
          s <- demo_binary_series op sl sr ;;
          Ok (EvSeries (mkTypedSeries (PlainSeries s)
                          (if decide (op = "+") then type_ tl else Some (BQScalar BOOLEAN))))
      | _, _ => Error (Raise OutsideModel "operand that is a table" [])
      end
  | _ => Error (Raise OutsideModel "expression" [FNode n])
  end.

(** A sort of one key that is stable: positions sorted by their keys.
    numpy's quicksort is stable on the short columns of the examples, where
    it falls back on insertion sort. *)
Definition demo_nargsort (keys : list PyValue) (ascending : bool) : list nat :=
  map fst (stable_sort (fun a b => key_leb ascending a.2 b.2) (imap pair keys)).

(** Modelled from the spec: a FROM clause naming one table of the catalog
    by its full path. *)
Definition demo_create_context (source : list string) (datasets : DatasetType)
  : result EvaluationContext :=
  tn <- fetch_table source datasets ;;
  Ok (set_table (demo_init datasets) tn.1).

Definition demo : Externals := {|
  inferred_name := demo_name;
  implicitly_coerce := demo_coerce;
  DataSource := list string;
  create_context := demo_create_context;
  EvaluationContext_init := demo_init;
  EMPTY_CONTEXT := demo_init ∅;
  add_table_from_dataframe := demo_add_table;
  add_subcontext := demo_add_subcontext;
  get_canonical_path := demo_canonical_path;
  do_group_by := demo_do_group_by;
  mark_grouped_by := demo_mark_grouped_by;
  evaluate := demo_evaluate;
  nargsort := demo_nargsort
|}.

(** A second sort of one key: it puts the keys in order as well, but takes
    the rows with equal keys last first.  numpy's quicksort promises nothing
    of the order of equal keys, and on long columns does not keep it. *)
Definition reversing_nargsort (keys : list PyValue) (ascending : bool) : list nat :=
  map fst (stable_sort (fun a b => key_leb ascending a.2 b.2) (reverse (imap pair keys))).

Definition demo_reversing : Externals := {|
  inferred_name := demo_name;
  implicitly_coerce := demo_coerce;
  DataSource := list string;
  create_context := demo_create_context;
  EvaluationContext_init := demo_init;
  EMPTY_CONTEXT := demo_init ∅;
  add_table_from_dataframe := demo_add_table;
  add_subcontext := demo_add_subcontext;
  get_canonical_path := demo_canonical_path;
  do_group_by := demo_do_group_by;
  mark_grouped_by := demo_mark_grouped_by;
  evaluate := demo_evaluate;
  nargsort := reversing_nargsort
|}.

(** Tables of the examples, after [dataframe_node_test.py]. *)
Definition int_table (cols : list string) (data : list (list Z)) : TypedDataFrame :=
  mkTypedDataFrame
    (Frame (mkDataFrame cols (imap (fun i r => (PInt (Z.of_nat i), map PInt r)) data)))
    (map (fun _ => Some (BQScalar INTEGER)) cols).

Definition string_table (cols : list string) (data : list (list string)) : TypedDataFrame :=
  mkTypedDataFrame
    (Frame (mkDataFrame cols (imap (fun i r => (PInt (Z.of_nat i), map PStr r)) data)))
    (map (fun _ => Some (BQScalar STRING)) cols).

(** Columns of the examples, on the default index. *)
Definition bool_column (name : string) (bs : list bool) : TypedSeries :=
  mkTypedSeries
    (PlainSeries (mkSeries (Some name) (imap (fun i b => (PInt (Z.of_nat i), PBool b)) bs)))
    (Some (BQScalar BOOLEAN)).

Definition int_column (name : string) (zs : list Z) : TypedSeries :=
  mkTypedSeries
    (PlainSeries (mkSeries (Some name) (imap (fun i z => (PInt (Z.of_nat i), PInt z)) zs)))
    (Some (BQScalar INTEGER)).

Definition catalog (t : TypedDataFrame) : DatasetType :=
  {[ "my_project" := {[ "my_dataset" := {[ "my_table" := t ]} ]} ]}.

Definition my_table : list string := ["my_project"; "my_dataset"; "my_table"].

(** The rows of an outcome, when it is a table. *)
Definition rows_of (r : result (TypedDataFrame * option string))
  : option (list (list PyValue)) :=
  match r with
  | Ok (t, _) => match dataframe t with
                 | Frame df => Some (to_list_of_lists df)
                 | FrameGroupBy _ _ => None
                 end
  | Error _ => None
  end.

Definition two_tables (t1 t2 : TypedDataFrame) : DatasetType :=
  {[ "my_project" := {[ "my_dataset" := {[ "left" := t1; "right" := t2 ]} ]} ]}.

Definition left_table : list string := ["my_project"; "my_dataset"; "left"].
Definition right_table : list string := ["my_project"; "my_dataset"; "right"].

(* ===================================================================== *)
(** * Properties *)
(* ===================================================================== *)

(** ** The error monad *)

Lemma bind_Ok_inv {A B} (r : result A) (k : A -> result B) (b : B) :
  bind r k = Ok b -> exists a, r = Ok a /\ k a = Ok b.
Proof. destruct r as [a|e]; simpl; [eauto | discriminate]. Qed.

Lemma mapM_length {A B} (f : A -> result B) (l : list A) (l' : list B) :
  mapM f l = Ok l' -> length l' = length l.
Proof.
  revert l'. induction l as [|x l IH]; intros l' Hm; simpl in Hm.
  - by inversion Hm.
  - destruct (f x) as [y|e]; simpl in Hm; [|discriminate].
    destruct (mapM f l) as [ys|e]; simpl in Hm; [|discriminate].
    inversion Hm; subst. simpl. f_equal. by apply IH.
Qed.

Lemma mapM_lookup {A B} (f : A -> result B) (l : list A) (l' : list B) i x :
  mapM f l = Ok l' -> l !! i = Some x -> exists y, l' !! i = Some y /\ f x = Ok y.
Proof.
  revert l' i. induction l as [|a l IH]; intros l' i Hm Hi; [done|].
  simpl in Hm.
  destruct (f a) as [y|e] eqn:Hfa; simpl in Hm; [|discriminate].
  destruct (mapM f l) as [ys|e] eqn:Hml; simpl in Hm; [|discriminate].
  inversion Hm; subst. destruct i as [|i]; simpl in *.
  - inversion Hi; subst. eauto.
  - eapply IH; eauto.
Qed.

Lemma mapM_ext {A B} (f g : A -> result B) (l : list A) :
  (forall x, x ∈ l -> f x = g x) -> mapM f l = mapM g l.
Proof.
  induction l as [|a l IH]; intros Hfg; [done|]. simpl.
  rewrite Hfg by set_solver. rewrite IH; [done|]. intros; apply Hfg; set_solver.
Qed.

Section Properties.

Context `{E : Externals}.

(** ** Not-implemented errors *)


(** ** Evaluation and the state of the nodes *)

Lemma qualify_path_length path datasets path' t name :
  qualify_path path datasets = Ok path' ->
  fetch_table path' datasets = Ok (t, name) ->
  length path' = 3%nat /\ path `suffix_of` path' /\ qualify_path path' datasets = Ok path'.
Proof.
  intros Hq Hf.
  assert (Hlen : length path' = 3%nat).
  { destruct path' as [|a [|b [|c [|d path']]]]; simpl in Hf; try discriminate; done. }
  split; [done|]. split.
  - unfold qualify_path in Hq. case_decide as Hlt.
    + destruct (map_to_list datasets) as [|[project pd] [|? ?]]; try discriminate.
      case_decide.
      * destruct (map_to_list pd) as [|[dataset ?] [|? ?]]; try discriminate.
        inversion Hq; subst. by exists [project; dataset].
      * inversion Hq; subst. by exists [project].
    + inversion Hq; subst. done.
  - unfold qualify_path. rewrite decide_False by lia. done.
Qed.


(** ** GROUP BY with a literal *)

Lemma Selector_name_populated child alias p :
  exists name, Selector_name child alias (Some p) = Ok name.
Proof.
  unfold Selector_name, Selector_name_with. destruct alias; eauto.
Qed.

(** An integer literal N between 1 and the number of fields is replaced by
    a reference to the N-th select field, by name. *)
Lemma group_by_position_resolves (fs : list Node) (n : Z) ty f :
  1 <= n <= Z.of_nat (length fs) ->
  fs !! Z.to_nat (n - 1) = Some f ->
  resolve_grouper fs (Value (PInt n) ty) = (name <- field_name f ;; Ok (Field [name])).
Proof.
  intros Hn Hf. unfold resolve_grouper. simpl.
  unfold py_index. rewrite decide_True by lia. by rewrite Hf.
Qed.

(** A literal that is no instance of [int] fails, and the error carries it. *)
Lemma group_by_non_int_literal_fails (fs : list Node) v ty :
  isinstance_int v = false ->
  resolve_grouper fs (Value v ty) =
    Error (Raise ValueError "Attempt to group by a literal non-integer constant {}"
             [FValue v]).
Proof. intros Hv. unfold resolve_grouper. by rewrite Hv. Qed.

(** A grouper given by position and the same grouper given by the name of
    that field build the same Select. *)
Lemma group_by_position_same_as_name m (fs : list Node) src w h (n : Z) ty f name :
  1 <= n <= Z.of_nat (length fs) ->
  number_fields fs !! Z.to_nat (n - 1) = Some f ->
  field_name f = Ok name ->
  Select_init m fs src w (Some [Value (PInt n) ty]) h =
  Select_init m fs src w (Some [Field [name]]) h.
Proof.
  intros Hn Hf Hname. unfold Select_init.
  cbn [mapM].
  rewrite (group_by_position_resolves (number_fields fs) n ty f);
    [|unfold number_fields; by rewrite length_imap|done].
  rewrite Hname. reflexivity.
Qed.

Lemma py_index_first {A} (x : A) (l : list A) : py_index (x :: l) 0 = Some x.
Proof. unfold py_index. rewrite decide_True; [done|]. simpl length. lia. Qed.

Lemma number_fields_first child alias pos (rest : list Node) :
  exists tl, number_fields (Selector child alias pos :: rest) =
             Selector child alias (Some 1) :: tl.
Proof. unfold number_fields. simpl. eauto. Qed.

(** C2 (the code departs from the claim).  The literal TRUE in a GROUP BY
    list raises no error: [isinstance(True, int)] holds, [True - 1] is 0,
    and the grouper becomes a reference to the first select field, as for
    GROUP BY 1. *)
Theorem group_by_true_is_accepted :
  forall m child alias pos rest src w ty h,
  exists name,
    Selector_name child alias (Some 1) = Ok name /\
    Select_init m (Selector child alias pos :: rest) src w
      (Some [Value (PBool true) ty]) h =
    Ok (mkSelect m (number_fields (Selector child alias pos :: rest)) src w
          (Some [Field [name]]) h).
Proof.
  intros. destruct (Selector_name_populated child alias 1) as [name Hname].
  exists name. split; [done|].
  unfold Select_init. cbn [mapM]. unfold resolve_grouper.
  cbn [isinstance_int int_value]. change (1 - 1) with 0.
  destruct (number_fields_first child alias pos rest) as [tl ->].
  rewrite py_index_first.
  cbn [of_option bind field_name]. rewrite Hname. reflexivity.
Qed.

(** ** UNION ALL *)

Lemma index_of_None (c : string) (cols : list string) :
  c ∉ cols -> index_of c cols = None.
Proof.
  induction cols as [|x cols IH]; intros Hc; [done|]. simpl.
  rewrite decide_False by set_solver. rewrite IH by set_solver. done.
Qed.

Lemma reindex_cells_absent src dst cells j c :
  dst !! j = Some c -> c ∉ src -> reindex_cells src dst cells !! j = Some PNone.
Proof.
  intros Hj Hc. unfold reindex_cells. rewrite list_lookup_fmap, Hj. simpl.
  by rewrite index_of_None.
Qed.

Lemma elem_of_union_columns (l r : list string) x :
  x ∈ union_columns l r <-> x ∈ l \/ x ∈ r.
Proof.
  unfold union_columns. rewrite elem_of_app, list_elem_of_filter.
  destruct (decide (x ∈ l)); tauto.
Qed.

Lemma length_union_columns_lt (l r : list string) c :
  c ∈ r -> c ∉ l -> (length l < length (union_columns l r))%nat.
Proof.
  intros Hr Hl. unfold union_columns. rewrite length_app.
  assert (Hin : c ∈ filter (fun c => c ∉ l) r) by (apply list_elem_of_filter; done).
  destruct (filter (fun c => c ∉ l) r); [by apply elem_of_nil in Hin|]. simpl. lia.
Qed.

Lemma coerced_types_pointwise (tl tr : list (option BQType)) tys i a b :
  mapM (fun lr => implicitly_coerce [lr.1; lr.2]) (zip tl tr) = Ok tys ->
  tl !! i = Some a -> tr !! i = Some b ->
  exists t, tys !! i = Some t /\ implicitly_coerce [a; b] = Ok t.
Proof.
  intros Hm Ha Hb.
  assert (Hz : zip tl tr !! i = Some (a, b)).
  { rewrite lookup_zip_with, Ha. simpl. rewrite Hb. done. }
  destruct (mapM_lookup _ _ _ _ _ Hm Hz) as (t & Ht & Hc). eauto.
Qed.

Lemma coerced_types_length (tl tr : list (option BQType)) tys :
  length tl = length tr ->
  mapM (fun lr => implicitly_coerce [lr.1; lr.2]) (zip tl tr) = Ok tys ->
  length tys = length tl.
Proof.
  intros Hlen Hm. apply mapM_length in Hm. rewrite Hm.
  rewrite length_zip_with. lia.
Qed.

Lemma SetOperation_combine_same_columns l r ldf rdf tys :
  dataframe l = Frame ldf -> dataframe r = Frame rdf ->
  length (types l) = length (types r) ->
  mapM (fun lr => implicitly_coerce [lr.1; lr.2]) (zip (types l) (types r)) = Ok tys ->
  columns ldf = columns rdf ->
  SetOperation_combine "UNION_ALL" l r =
    Ok (mkTypedDataFrame (Frame (mkDataFrame (columns ldf) (rows ldf ++ rows rdf))) tys,
        None).
Proof.
  intros Hl Hr Hlen Hty Hcols. unfold SetOperation_combine.
  rewrite decide_False by (intros Hne; by apply Hne).
  rewrite Hty. cbn [bind]. rewrite decide_True by done.
  rewrite Hl, Hr. cbn [as_frame bind]. unfold pd_concat.
  rewrite decide_True by done. reflexivity.
Qed.

(** C1 (as amended).  UNION_ALL evaluates the left side, then the right
    side.  A failure of the left side is the outcome, and the right side is
    then not evaluated.  When both sides succeed and their column counts
    differ, the outcome is the column-count error, which carries both
    counts.  When the counts agree and a pair of column types does not
    coerce, the outcome is that coercion error.  When they all coerce and
    both sides carry the same column names in the same order, the outcome is
    a table with the coerced types, the i-th being the coercion of the two
    i-th types, and with the left rows followed by the right rows. *)
Theorem union_all_get_dataframe (lq rq : DataframeNode) (datasets : DatasetType) :
  (forall e lq',
      get_dataframe lq datasets = (Error e, lq') ->
      get_dataframe (SetOperation lq "UNION_ALL" rq) datasets =
        (Error e, SetOperation lq' "UNION_ALL" rq)) /\
  (forall l ln lq' r rn rq',
      get_dataframe lq datasets = (Ok (l, ln), lq') ->
      get_dataframe rq datasets = (Ok (r, rn), rq') ->
      let out := (get_dataframe (SetOperation lq "UNION_ALL" rq) datasets).1 in
      (length (types l) <> length (types r) ->
       out = Error (Raise ValueError
                      "Queries in UNION ALL have mismatched column count: {} vs {}"
                      [FInt (Z.of_nat (length (types l)));
                       FInt (Z.of_nat (length (types r)))])) /\
      (length (types l) = length (types r) ->
       (forall e,
           mapM (fun lr => implicitly_coerce [lr.1; lr.2]) (zip (types l) (types r))
             = Error e ->
           out = Error e) /\
       (forall tys ldf rdf,
           mapM (fun lr => implicitly_coerce [lr.1; lr.2]) (zip (types l) (types r))
             = Ok tys ->
           dataframe l = Frame ldf -> dataframe r = Frame rdf ->
           columns ldf = columns rdf ->
           out = Ok (mkTypedDataFrame
                       (Frame (mkDataFrame (columns ldf) (rows ldf ++ rows rdf))) tys,
                     None) /\
           to_list_of_lists (mkDataFrame (columns ldf) (rows ldf ++ rows rdf)) =
             to_list_of_lists ldf ++ to_list_of_lists rdf /\
           length tys = length (types l) /\
           (forall i a b, types l !! i = Some a -> types r !! i = Some b ->
                          exists t, tys !! i = Some t /\ implicitly_coerce [a; b] = Ok t)))).
Proof.
  split.
  - intros e lq' Hl. simpl. by rewrite Hl.
  - intros l ln lq' r rn rq' Hl Hr out. subst out. simpl. rewrite Hl, Hr. cbn [bind fst snd].
    split.
    + intros Hne. unfold SetOperation_combine. by rewrite decide_True.
    + intros Hlen. split.
      * intros e He. unfold SetOperation_combine.
        rewrite decide_False by (intros Hne; by apply Hne). by rewrite He.
      * intros tys ldf rdf Hty Hfl Hfr Hcols.
        split; [by apply SetOperation_combine_same_columns|].
        split; [unfold to_list_of_lists; simpl; by rewrite map_app|].
        split; [by eapply coerced_types_length|].
        intros i a b Ha Hb. by eapply coerced_types_pointwise.
Qed.



(** ** WHERE *)

Lemma keep_where_all_true {A} (l : list A) : keep_where (replicate (length l) true) l = l.
Proof. induction l; simpl; [done|]. by f_equal. Qed.

Lemma keep_where_all_false {A} (l : list A) n : keep_where (replicate n false) l = [].
Proof. revert n. induction l; intros [|n]; simpl; auto. Qed.

Lemma keep_where_sublist {A} (bs : list bool) (l : list A) : sublist (keep_where bs l) l.
Proof.
  revert bs. induction l as [|x l IH]; intros [|[] bs]; simpl;
    try (apply sublist_nil_l); try constructor; auto.
Qed.

Lemma bool_mask_constant (m : Series) (b : bool) :
  Forall (fun v => v = PBool b) (s_values m) ->
  bool_mask m = Ok (replicate (length (s_items m)) b).
Proof.
  unfold bool_mask, s_values. induction (s_items m) as [|[lbl v] items IH]; intros Hall.
  - done.
  - simpl in Hall. inversion Hall as [|? ? Hv Hrest]; subst. simpl.
    rewrite IH by done. reflexivity.
Qed.

Lemma pd_loc_constant df (m : Series) (b : bool) :
  s_index m = index df ->
  Forall (fun v => v = PBool b) (s_values m) ->
  pd_loc df m = Ok (mkDataFrame (columns df) (if b then rows df else [])).
Proof.
  intros Hidx Hall. unfold pd_loc. rewrite decide_True by done.
  rewrite (bool_mask_constant m b Hall). cbn [bind].
  assert (Hlen : length (s_items m) = length (rows df)).
  { unfold s_index, index in Hidx.
    rewrite <- (length_map fst (s_items m)), Hidx. by rewrite length_map. }
  rewrite Hlen. destruct b.
  - by rewrite keep_where_all_true.
  - by rewrite keep_where_all_false.
Qed.

Lemma Select_context_where (s : Select) datasets outer :
  Select_context s datasets outer =
    (context <- Select_context (set_where s None) datasets outer ;;
     match where_ s with
     | Some condition =>
         rows_to_keep <- evaluate condition context ;;
         t <- keep_rows (table context) rows_to_keep ;;
         Ok (set_table context t)
     | None => Ok context
     end).
Proof.
  unfold Select_context. cbn [set_where from_ fields where_].
  destruct (match from_ s with
            | Some source => create_context source datasets
            | None => Ok (EvaluationContext_init datasets)
            end) as [c|e]; [|done]. cbn [bind].
  destruct (match outer with
            | Some o => add_subcontext c o
            | None => Ok c
            end) as [c'|e]; [|done]. cbn [bind].
  destruct (mapM field_name _) as [names|e]; [|done]. reflexivity.
Qed.

Lemma set_table_same ctx df :
  dataframe (table ctx) = Frame df ->
  set_table ctx (mkTypedDataFrame (Frame (mkDataFrame (columns df) (rows df)))
                   (types (table ctx))) = ctx.
Proof.
  destruct ctx as [tc [fr tys] sub gp sn tci]. simpl. intros ->.
  destruct df. reflexivity.
Qed.

Lemma Select_get_dataframe_context (s s' : Select) datasets outer :
  modifier s = modifier s' -> fields s = fields s' -> group_by s = group_by s' ->
  having s = having s' ->
  Select_context s datasets outer = Select_context s' datasets outer ->
  (Select_get_dataframe s datasets outer).1 = (Select_get_dataframe s' datasets outer).1.
Proof.
  intros Hm Hf Hg Hh Hc. unfold Select_get_dataframe.
  rewrite Hm, Hc, Hf, Hg, Hh.
  case_decide; [done|].
  destruct (Select_context s' datasets outer); [|done].
  destruct (group_by s'); [|done].
  destruct (do_group_by _ _ _) as [[? ?]|]; done.
Qed.

(** C9 (as amended).  A WHERE condition that is true on every row leaves
    the context as it is, so the SELECT returns what it returns without the
    WHERE clause.  A WHERE condition that is false on every row leaves the
    fields to be evaluated against a table of no rows whose columns and
    column types are unchanged. *)
Theorem where_true_and_where_false (s : Select) datasets outer cond ctx df ts m :
  where_ s = Some cond ->
  Select_context (set_where s None) datasets outer = Ok ctx ->
  dataframe (table ctx) = Frame df ->
  evaluate cond ctx = Ok (EvSeries ts) ->
  series ts = PlainSeries m ->
  s_index m = index df ->
  (Forall (fun v => v = PBool true) (s_values m) ->
   Select_context s datasets outer = Ok ctx /\
   (Select_get_dataframe s datasets outer).1 =
     (Select_get_dataframe (set_where s None) datasets outer).1) /\
  (Forall (fun v => v = PBool false) (s_values m) ->
   Select_context s datasets outer =
     Ok (set_table ctx (mkTypedDataFrame (Frame (mkDataFrame (columns df) []))
                          (types (table ctx))))).
Proof.
  intros Hw Hctx Hdf Hev Hser Hidx.
  assert (Hstep : forall b, Forall (fun v => v = PBool b) (s_values m) ->
            Select_context s datasets outer =
              Ok (set_table ctx (mkTypedDataFrame
                    (Frame (mkDataFrame (columns df) (if b then rows df else [])))
                    (types (table ctx))))).
  { intros b Hall. rewrite Select_context_where, Hctx, Hw. cbn [bind].
    rewrite Hev. cbn [bind]. unfold keep_rows. rewrite Hdf, Hser. cbn [as_frame as_series bind].
    rewrite (pd_loc_constant df m b Hidx Hall). reflexivity. }
  split.
  - intros Hall.
    assert (Hsame : Select_context s datasets outer = Ok ctx).
    { rewrite (Hstep true Hall). f_equal. by apply set_table_same. }
    split; [done|].
    apply Select_get_dataframe_context; try done. by rewrite Hsame, Hctx.
  - intros Hall. by rewrite (Hstep false Hall).
Qed.

(** ** HAVING *)

Lemma Select_get_dataframe_grouped (s : Select) datasets outer ctx g fields' ctx' :
  modifier s <> Some "DISTINCT" ->
  Select_context s datasets outer = Ok ctx ->
  group_by s = Some g ->
  do_group_by ctx (fields s) g = Ok (fields', ctx') ->
  Select_get_dataframe s datasets outer =
    (Select_result fields' (having s) datasets ctx', set_fields s fields').
Proof.
  intros Hm Hc Hg Hd. unfold Select_get_dataframe.
  rewrite decide_False by done. by rewrite Hc, Hg, Hd.
Qed.

Lemma bool_mask_length (m : Series) bs :
  bool_mask m = Ok bs -> length bs = length (s_items m).
Proof. apply mapM_length. Qed.

(** C5.  In a grouped SELECT with a HAVING clause the HAVING expression
    is evaluated in a fresh context that holds the table just computed
    from the select fields and is linked to the grouped context; before
    that it is rewritten with the grouping paths of the grouped context.
    The outcome keeps the rows of the computed table on which HAVING is
    true, with the columns and the types of that table: what HAVING
    computes, such as an aggregate that is not selected, adds no column. *)
Theorem having_filters_grouped_result
    (s : Select) datasets outer ctx g fields' ctx' pre df h hc0 hc1 h' ts m bs :
  modifier s <> Some "DISTINCT" ->
  Select_context s datasets outer = Ok ctx ->
  group_by s = Some g ->
  do_group_by ctx (fields s) g = Ok (fields', ctx') ->
  evaluate_fields_as_dataframe fields' ctx' = Ok pre ->
  dataframe pre = Frame df ->
  having s = Some h ->
  add_table_from_dataframe (EvaluationContext_init datasets) pre None = Ok hc0 ->
  add_subcontext hc0 ctx' = Ok hc1 ->
  mark_grouped_by h (group_by_paths ctx')
    (set_group_by_paths hc1 (group_by_paths ctx')) = Ok h' ->
  evaluate h' (set_group_by_paths hc1 (group_by_paths ctx')) = Ok (EvSeries ts) ->
  series ts = PlainSeries m ->
  s_index m = index df ->
  bool_mask m = Ok bs ->
  exists final,
    (Select_get_dataframe s datasets outer).1 =
      Ok (mkTypedDataFrame (Frame final) (types pre), None) /\
    columns final = columns df /\
    rows final = keep_where bs (rows df) /\
    length bs = length (rows df) /\
    sublist (rows final) (rows df).
Proof.
  intros Hm Hc Hg Hd Hpre Hdf Hh Hadd Hsub Hmark Hev Hser Hidx Hbs.
  exists (mkDataFrame (columns df) (keep_where bs (rows df))).
  split; [|split; [done|split; [done|split]]].
  - rewrite (Select_get_dataframe_grouped s datasets outer ctx g fields' ctx') by done.
    cbn [fst]. unfold Select_result. rewrite Hpre, Hh. cbn [bind].
    unfold apply_having, having_context. rewrite Hadd. cbn [bind].
    rewrite Hsub. cbn [bind]. rewrite Hmark. cbn [bind]. rewrite Hev. cbn [bind].
    unfold keep_rows. rewrite Hdf, Hser. cbn [as_frame as_series bind].
    unfold pd_loc. rewrite decide_True by done. rewrite Hbs. reflexivity.
  - rewrite (bool_mask_length m bs Hbs).
    unfold s_index, index in Hidx.
    rewrite <- (length_map fst (s_items m)), Hidx. by rewrite length_map.
  - apply keep_where_sublist.
Qed.


(** ** Fields that are neither aggregated nor grouped by *)

Lemma find_first {A} (p : A -> bool) (l : list A) i x :
  l !! i = Some x -> p x = true ->
  (forall j y, (j < i)%nat -> l !! j = Some y -> p y = false) ->
  find p l = Some x.
Proof.
  revert i. induction l as [|a l IH]; intros i Hi Hp Hbefore; [done|].
  destruct i as [|i]; simpl in *.
  - inversion Hi; subst. by rewrite Hp.
  - rewrite (Hbefore 0%nat a) by (done || lia).
    apply (IH i); [done|done|]. intros j y Hj Hy. apply (Hbefore (S j) y); [lia|done].
Qed.

Lemma find_none {A} (p : A -> bool) (l : list A) :
  Forall (fun x => p x = false) l -> find p l = None.
Proof. induction 1 as [|a l Ha _ IH]; simpl; [done|]. by rewrite Ha. Qed.

Lemma index_beside a b : length a = length b -> map fst (beside a b) = map fst a.
Proof.
  revert b. induction a as [|x a IH]; intros [|y b] Hlen; simpl in *; try done.
  f_equal. apply IH. lia.
Qed.

Lemma lookup_beside a b i x y :
  a !! i = Some x -> b !! i = Some y -> beside a b !! i = Some (x.1, x.2 ++ y.2).
Proof. intros Ha Hb. unfold beside. rewrite lookup_zip_with, Ha. simpl. by rewrite Hb. Qed.

Lemma lookup_rows_of_index (d : DataFrame) idx i :
  index d = idx -> (i < length idx)%nat -> exists row, rows d !! i = Some row.
Proof.
  intros <- Hi. unfold index in Hi. rewrite length_map in Hi.
  destruct (lookup_lt_is_Some_2 (rows d) i Hi) as [row Hrow]. eauto.
Qed.

(** Frames that share an index are put side by side: the columns follow
    one another, the index is kept, and a row is the concatenation of the
    rows at its place. *)
Lemma pd_concat_columns_same_index (frames : list DataFrame) idx :
  frames <> [] ->
  Forall (fun d => index d = idx) frames ->
  exists df,
    pd_concat_columns frames = Ok df /\
    columns df = concat (map columns frames) /\
    index df = idx /\
    forall i, (i < length idx)%nat ->
      to_list_of_lists df !! i =
        Some (concat (omap (fun d => to_list_of_lists d !! i) frames)).
Proof.
  induction frames as [|d ds IH]; intros Hne Hall; [done|].
  inversion Hall as [|? ? Hd Hds]; subst.
  destruct ds as [|d' ds'].
  - exists d. simpl. rewrite app_nil_r. repeat split; try done.
    intros i Hi. destruct (lookup_rows_of_index d _ i eq_refl Hi) as [row Hrow].
    unfold to_list_of_lists. rewrite list_lookup_fmap, Hrow. simpl.
    by rewrite app_nil_r.
  - destruct (IH ltac:(done) Hds) as (rest & Hrest & Hcols & Hidx & Hrows).
    exists (mkDataFrame (columns d ++ columns rest) (beside (rows d) (rows rest))).
    assert (Hlen : length (rows d) = length (rows rest)).
    { rewrite <- (length_map fst (rows d)), <- (length_map fst (rows rest)).
      fold (index d) (index rest). by rewrite Hidx. }
    split.
    { change (pd_concat_columns (d :: d' :: ds')) with
        (rest <- pd_concat_columns (d' :: ds') ;;
         if decide (index d = index rest) then
           Ok (mkDataFrame (columns d ++ columns rest) (beside (rows d) (rows rest)))
         else Error (Raise OutsideModel "concat of frames with different indexes" [])).
      rewrite Hrest. cbn [bind]. by rewrite decide_True. }
    split; [simpl; by rewrite Hcols|].
    split; [unfold index; simpl; by rewrite index_beside|].
    intros i Hi.
    destruct (lookup_rows_of_index d _ i eq_refl Hi) as [row Hrow].
    assert (Hi' : (i < length (index rest))%nat) by (by rewrite Hidx).
    destruct (lookup_rows_of_index rest _ i eq_refl Hi') as [row' Hrow'].
    specialize (Hrows i Hi).
    unfold to_list_of_lists in *. rewrite list_lookup_fmap in Hrows.
    rewrite Hrow' in Hrows. simpl in Hrows. inversion Hrows as [Hrow2].
    rewrite list_lookup_fmap. cbn [rows].
    rewrite (lookup_beside _ _ _ _ _ Hrow Hrow'). simpl.
    rewrite list_lookup_fmap, Hrow. simpl. by rewrite Hrow2.
Qed.

Lemma find_group_shaped (fs : list Node) (evs : list Evaluated) i f e :
  fs !! i = Some f -> evs !! i = Some e -> is_group_shaped e = true ->
  (forall j e', (j < i)%nat -> evs !! j = Some e' -> is_group_shaped e' = false) ->
  find (fun fe : Node * Evaluated => is_group_shaped fe.2) (zip fs evs) = Some (f, e).
Proof.
  intros Hf He Hg Hbefore. apply (find_first _ _ i).
  - rewrite lookup_zip_with, Hf. simpl. by rewrite He.
  - done.
  - intros j [f' e'] Hj Hz. rewrite lookup_zip_with in Hz.
    destruct (fs !! j); simpl in Hz; [|done].
    destruct (evs !! j) eqn:Hej; simpl in Hz; [|done].
    inversion Hz; subst. simpl. by apply (Hbefore j).
Qed.

Lemma find_not_group_shaped (fs : list Node) (evs : list Evaluated) :
  Forall (fun e => is_group_shaped e = false) evs ->
  find (fun fe : Node * Evaluated => is_group_shaped fe.2) (zip fs evs) = None.
Proof.
  intros Hall. apply find_none. apply Forall_forall. intros [f e] Hin.
  apply elem_of_zip_r in Hin. simpl in *.
  rewrite Forall_forall in Hall. by apply Hall.
Qed.

(** C6.  Once the select fields have been evaluated, a field whose result
    is still group-shaped stops the evaluation with a ValueError whose
    message is "selecting expression {} that is not aggregated or grouped
    by" filled in with that field, the first such one; in a grouped SELECT
    this is the outcome of the whole evaluation.  When no field is
    group-shaped, the result is the evaluated fields side by side: their
    types in order, their columns in order, and in each row their cells in
    order. *)
Theorem ungrouped_field_is_an_error (fs : list Node) (ctx : EvaluationContext)
    (evs : list Evaluated) :
  mapM (fun f => evaluate f ctx) fs = Ok evs ->
  (forall i f e,
      fs !! i = Some f -> evs !! i = Some e -> is_group_shaped e = true ->
      (forall j e', (j < i)%nat -> evs !! j = Some e' -> is_group_shaped e' = false) ->
      evaluate_fields_as_dataframe fs ctx =
        Error (Raise ValueError
                 "selecting expression {} that is not aggregated or grouped by"
                 [FNode f]) /\
      forall (s : Select) datasets outer c0 g,
        modifier s <> Some "DISTINCT" ->
        Select_context s datasets outer = Ok c0 ->
        group_by s = Some g ->
        do_group_by c0 (fields s) g = Ok (fs, ctx) ->
        (Select_get_dataframe s datasets outer).1 =
          Error (Raise ValueError
                   "selecting expression {} that is not aggregated or grouped by"
                   [FNode f])) /\
  (Forall (fun e => is_group_shaped e = false) evs ->
   forall frames idx,
     mapM Evaluated_dataframe evs = Ok frames ->
     frames <> [] ->
     Forall (fun d => index d = idx) frames ->
     exists df,
       evaluate_fields_as_dataframe fs ctx =
         Ok (mkTypedDataFrame (Frame df) (concat (map Evaluated_types evs))) /\
       columns df = concat (map columns frames) /\
       index df = idx /\
       forall i, (i < length idx)%nat ->
         to_list_of_lists df !! i =
           Some (concat (omap (fun d => to_list_of_lists d !! i) frames))).
Proof.
  intros Hev. split.
  - intros i f e Hf He Hg Hbefore.
    assert (Herr : evaluate_fields_as_dataframe fs ctx =
              Error (Raise ValueError
                       "selecting expression {} that is not aggregated or grouped by"
                       [FNode f])).
    { unfold evaluate_fields_as_dataframe. rewrite Hev. cbn [bind].
      by rewrite (find_group_shaped fs evs i f e). }
    split; [done|].
    intros s datasets outer c0 g Hm Hc Hgb Hd.
    rewrite (Select_get_dataframe_grouped s datasets outer c0 g fs ctx) by done.
    cbn [fst]. unfold Select_result. by rewrite Herr.
  - intros Hall frames idx Hframes Hne Hidx.
    destruct (pd_concat_columns_same_index frames idx Hne Hidx)
      as (df & Hdf & Hcols & Hi & Hrows).
    exists df. split; [|done].
    unfold evaluate_fields_as_dataframe. rewrite Hev. cbn [bind].
    rewrite (find_not_group_shaped fs evs Hall).
    destruct evs as [|e evs].
    + simpl in Hframes. inversion Hframes; subst. done.
    + rewrite Hframes. cbn [bind]. rewrite Hdf. reflexivity.
Qed.


(** ** Sorting *)

Section StableSort.

Context {A : Type} (leb : A -> A -> bool).

Lemma insert_sorted_Permutation (x : A) (l : list A) : insert_sorted leb x l ≡ₚ x :: l.
Proof.
  induction l as [|y l IH]; simpl; [done|].
  destruct (leb x y); [done|]. rewrite IH. apply Permutation_swap.
Qed.

Lemma stable_sort_Permutation (l : list A) : stable_sort leb l ≡ₚ l.
Proof.
  induction l as [|x l IH]; simpl; [done|].
  rewrite insert_sorted_Permutation. by rewrite IH.
Qed.

(** Equal elements keep their order: on a class of elements that may each
    precede the other, the sort changes nothing. *)
Lemma insert_sorted_filter (P : A -> Prop) `{!forall x, Decision (P x)} (x : A) (l : list A) :
  (forall a b, P a -> P b -> leb a b = true) ->
  filter P (insert_sorted leb x l) = filter P (x :: l).
Proof.
  intros Hclass. induction l as [|y l IH]; simpl; [done|].
  destruct (leb x y) eqn:Hxy; [done|].
  rewrite filter_cons, IH, !filter_cons.
  destruct (decide (P y)) as [Hy|Hy]; [|done].
  destruct (decide (P x)) as [Hx|Hx]; [|done].
  rewrite (Hclass x y Hx Hy) in Hxy. discriminate.
Qed.

Lemma stable_sort_stable (P : A -> Prop) `{!forall x, Decision (P x)} (l : list A) :
  (forall a b, P a -> P b -> leb a b = true) ->
  filter P (stable_sort leb l) = filter P l.
Proof.
  intros Hclass. induction l as [|x l IH]; simpl; [done|].
  rewrite insert_sorted_filter by done. rewrite !filter_cons, IH. done.
Qed.

Hypothesis leb_total : forall x y, leb x y = true \/ leb y x = true.

Lemma insert_sorted_Sorted (x : A) (l : list A) :
  Sorted (fun a b => leb a b = true) l ->
  Sorted (fun a b => leb a b = true) (insert_sorted leb x l).
Proof.
  induction l as [|y l IH]; intros Hs; simpl.
  - repeat constructor.
  - destruct (leb x y) eqn:Hxy.
    + constructor; [done|]. by constructor.
    + inversion Hs as [|? ? Hl Hhd]; subst.
      constructor; [by apply IH|].
      destruct l as [|z l]; simpl.
      * constructor. destruct (leb_total x y) as [H1|H1]; [congruence|done].
      * destruct (leb x z).
        -- constructor. destruct (leb_total x y) as [H1|H1]; [congruence|done].
        -- constructor. by inversion Hhd.
Qed.

Lemma stable_sort_Sorted (l : list A) :
  Sorted (fun a b => leb a b = true) (stable_sort leb l).
Proof.
  induction l as [|x l IH]; simpl; [constructor|]. by apply insert_sorted_Sorted.
Qed.

End StableSort.

Lemma value_leb_total a b : value_leb a b = true \/ value_leb b a = true.
Proof.
  destruct a as [|x|x|s], b as [|y|y|t]; simpl;
    try (by left); try (by right); try apply String.leb_total;
    match goal with
    | |- Z.leb ?n ?m = true \/ _ =>
        destruct (Z.le_ge_cases n m); [left|right]; by apply Z.leb_le
    end.
Qed.

Lemma key_leb_total asc a b : key_leb asc a b = true \/ key_leb asc b a = true.
Proof.
  unfold key_leb. destruct (is_null a), (is_null b); auto.
  destruct asc; [apply value_leb_total|].
  destruct (value_leb_total a b); auto.
Qed.

Lemma key_leb_refl asc a : key_leb asc a a = true.
Proof. destruct (key_leb_total asc a a); done. Qed.

Lemma lex_leb_total keys r1 r2 : lex_leb keys r1 r2 = true \/ lex_leb keys r2 r1 = true.
Proof.
  induction keys as [|[i asc] keys IH]; simpl; [by left|].
  destruct (key_leb asc (cell i r1.2) (cell i r2.2)) eqn:H12,
           (key_leb asc (cell i r2.2) (cell i r1.2)) eqn:H21; auto.
  destruct (key_leb_total asc (cell i r1.2) (cell i r2.2)); congruence.
Qed.

Lemma lex_leb_same_keys positions ascending z a b :
  same_keys positions z a -> same_keys positions z b ->
  lex_leb (zip positions ascending) a b = true.
Proof.
  unfold same_keys. revert ascending.
  induction positions as [|i positions IH]; intros [|asc ascending] Ha Hb; simpl; try done.
  inversion Ha as [|? ? Hai Ha']; inversion Hb as [|? ? Hbi Hb']; subst.
  rewrite Hai, Hbi, key_leb_refl. by apply IH.
Qed.

(** The order of the keys is transitive, so that in a sorted table every
    row precedes all the rows after it, not only the next one. *)
Lemma string_compare_trans (s t u : string) (c : comparison) :
  String.compare s t = c -> String.compare t u = c -> String.compare s u = c.
Proof.
  revert t u. induction s as [|a s IH]; intros [|b t] [|d u]; simpl; try congruence.
  unfold Ascii.compare.
  destruct (N.compare_spec (N_of_ascii a) (N_of_ascii b)) as [Hab|Hab|Hab],
           (N.compare_spec (N_of_ascii b) (N_of_ascii d)) as [Hbd|Hbd|Hbd];
    intros H1 H2; subst; try congruence.
  - rewrite Hab, Hbd, N.compare_refl. by eapply IH.
  - rewrite Hab. assert (H := proj2 (N.compare_lt_iff _ _) Hbd). by rewrite H.
  - rewrite Hab. assert (H := proj2 (N.compare_gt_iff _ _) Hbd). by rewrite H.
  - rewrite <- Hbd. assert (H := proj2 (N.compare_lt_iff _ _) Hab). by rewrite H.
  - assert (H := proj2 (N.compare_lt_iff _ _) (N.lt_trans _ _ _ Hab Hbd)). by rewrite H.
  - rewrite <- Hbd. assert (H := proj2 (N.compare_gt_iff _ _) Hab). by rewrite H.
  - assert (H := proj2 (N.compare_gt_iff _ _) (N.lt_trans _ _ _ Hbd Hab)). by rewrite H.
Qed.

Lemma string_leb_trans (s t u : string) :
  String.leb s t = true -> String.leb t u = true -> String.leb s u = true.
Proof.
  unfold String.leb.
  destruct (String.compare s t) eqn:Hst; [|
    destruct (String.compare t u) eqn:Htu|]; try done.
  - apply String.compare_eq_iff in Hst. by subst.
  - apply String.compare_eq_iff in Htu. subst. by rewrite Hst.
  - by rewrite (string_compare_trans s t u Lt).
Qed.

Lemma value_leb_trans a b c :
  value_leb a b = true -> value_leb b c = true -> value_leb a c = true.
Proof.
  destruct a as [|x|x|s], b as [|y|y|t], c as [|z|z|u]; simpl; try done;
    try apply string_leb_trans;
    rewrite ?Z.leb_le; lia.
Qed.

Lemma key_leb_trans asc a b c :
  key_leb asc a b = true -> key_leb asc b c = true -> key_leb asc a c = true.
Proof.
  unfold key_leb. destruct (is_null a), (is_null b), (is_null c); try done.
  destruct asc; [apply value_leb_trans|]. intros H1 H2. by eapply value_leb_trans.
Qed.

Lemma lex_leb_trans keys r1 r2 r3 :
  lex_leb keys r1 r2 = true -> lex_leb keys r2 r3 = true -> lex_leb keys r1 r3 = true.
Proof.
  induction keys as [|[i asc] keys IH]; simpl; [done|].
  destruct (key_leb asc (cell i r1.2) (cell i r2.2)) eqn:H12; [|done].
  destruct (key_leb asc (cell i r2.2) (cell i r3.2)) eqn:H23;
    [|by destruct (key_leb asc (cell i r2.2) (cell i r1.2))].
  rewrite (key_leb_trans _ _ _ _ H12 H23).
  destruct (key_leb asc (cell i r2.2) (cell i r1.2)) eqn:H21,
           (key_leb asc (cell i r3.2) (cell i r2.2)) eqn:H32,
           (key_leb asc (cell i r3.2) (cell i r1.2)) eqn:H31;
    try done; try apply IH;
    solve [ by rewrite (key_leb_trans _ _ _ _ H32 H21) in H31
          | by rewrite (key_leb_trans _ _ _ _ H31 H12) in H32
          | by rewrite (key_leb_trans _ _ _ _ H23 H31) in H21 ].
Qed.

Lemma Sorted_lex_leb_strongly keys l :
  Sorted (fun r1 r2 => lex_leb keys r1 r2 = true) l ->
  StronglySorted (fun r1 r2 => lex_leb keys r1 r2 = true) l.
Proof.
  apply Sorted_StronglySorted. intros a b c. apply lex_leb_trans.
Qed.

(** [take] with an indexer that holds every position once is a
    rearrangement of the rows. *)
Lemma omap_lookup_seq {A} (pre l : list A) :
  omap (fun i => (pre ++ l) !! i) (seq (length pre) (length l)) = l.
Proof.
  revert pre. induction l as [|x l IH]; intros pre; simpl; [done|].
  rewrite lookup_app_r by lia. rewrite Nat.sub_diag. simpl. f_equal.
  specialize (IH (pre ++ [x])). rewrite length_app in IH. simpl in IH.
  rewrite <- app_assoc in IH. simpl in IH.
  by rewrite Nat.add_1_r in IH.
Qed.

Lemma take_rows_Permutation {A} (indexer : list nat) (l : list A) :
  indexer ≡ₚ seq 0 (length l) -> take_rows indexer l ≡ₚ l.
Proof.
  intros Hp. unfold take_rows. rewrite Hp.
  exact (reflexive_eq _ _ (omap_lookup_seq [] l)).
Qed.

Lemma take_rows_Sorted {A} (R : nat -> nat -> Prop) (R' : A -> A -> Prop)
    (indexer : list nat) (l : list A) :
  (forall i j x y, R i j -> l !! i = Some x -> l !! j = Some y -> R' x y) ->
  Forall (fun i => (i < length l)%nat) indexer ->
  Sorted R indexer -> Sorted R' (take_rows indexer l).
Proof.
  intros HR Hrange Hs. unfold take_rows.
  induction Hs as [|i indexer Hs IH Hhd]; simpl; [constructor|].
  inversion Hrange as [|? ? Hi Hrest]; subst.
  destruct (lookup_lt_is_Some_2 l i Hi) as [x Hx]. rewrite Hx.
  constructor; [by apply IH|].
  destruct Hhd as [|j indexer Hij]; simpl; [constructor|].
  inversion Hrest as [|? ? Hj _]; subst.
  destruct (lookup_lt_is_Some_2 l j Hj) as [y Hy]. rewrite Hy.
  constructor. by eapply HR.
Qed.

Lemma forallb_of_Forall {A} (f : A -> bool) (l : list A) :
  Forall (fun x => f x = true) l -> forallb f l = true.
Proof. induction 1 as [|x l Hx _ IH]; simpl; [done|]. by rewrite Hx, IH. Qed.

Lemma cell_key_column i df j row :
  rows df !! j = Some row -> cell j (key_column i df) = cell i row.2.
Proof.
  intros Hrow. unfold cell at 1, key_column. by rewrite list_lookup_fmap, Hrow.
Qed.

(** What [sort_values] returns: the rows rearranged, in the order of the
    keys; with two keys or more, rows with the same keys keep their
    order. *)
Lemma sort_values_sorts df by_ ascending positions :
  nargsort_contract ->
  length by_ = length ascending ->
  by_ <> [] ->
  mapM (column_position (columns df)) by_ = Ok positions ->
  Forall (fun i => homogeneous (key_column i df) = true) positions ->
  exists sorted,
    sort_values df by_ ascending = Ok (mkDataFrame (columns df) sorted) /\
    sorted ≡ₚ rows df /\
    StronglySorted (fun r1 r2 => lex_leb (zip positions ascending) r1 r2 = true) sorted /\
    ((2 <= length by_)%nat ->
     forall z, filter (same_keys positions z) sorted =
               filter (same_keys positions z) (rows df)).
Proof.
  intros Hcontract Hlen Hne Hpos Hhom.
  pose proof (mapM_length _ _ _ Hpos) as Hplen.
  unfold sort_values. rewrite decide_True by done. rewrite Hpos. cbn [bind].
  rewrite (forallb_of_Forall _ _ Hhom).
  destruct positions as [|i [|i' positions]].
  - destruct by_; [done|discriminate].
  - destruct ascending as [|asc [|asc' ascending]]; simpl in *; try lia.
    inversion Hhom as [|? ? Hi _]; subst.
    destruct (Hcontract (key_column i df) asc Hi) as [Hperm Hsorted].
    assert (Hklen : length (key_column i df) = length (rows df))
      by (unfold key_column; by rewrite length_map).
    eexists. split; [reflexivity|]. split; [|split].
    + apply take_rows_Permutation. by rewrite <- Hklen.
    + apply (Sorted_lex_leb_strongly [(i, asc)]).
      apply (take_rows_Sorted
               (fun a b => key_leb asc (cell a (key_column i df))
                                       (cell b (key_column i df)) = true));
        [| |exact Hsorted].
      * intros a b x y Hab Hx Hy. simpl.
        rewrite (cell_key_column i df a x Hx), (cell_key_column i df b y Hy) in Hab.
        rewrite Hab. by destruct (key_leb asc (cell i y.2) (cell i x.2)).
      * rewrite <- Hklen. apply Forall_forall. intros a Ha.
        rewrite Hperm in Ha. apply elem_of_seq in Ha. lia.
    + intros Hge. rewrite <- Hplen in Hge. simpl in Hge. lia.
  - exists (stable_sort (lex_leb (zip (i :: i' :: positions) ascending)) (rows df)).
    split; [reflexivity|].
    split; [apply stable_sort_Permutation|]. split.
    + apply Sorted_lex_leb_strongly, stable_sort_Sorted, lex_leb_total.
    + intros _ z. apply stable_sort_stable.
      intros a b Ha Hb. by eapply lex_leb_same_keys.
Qed.

(** ** ORDER BY *)



(** ** ROW_NUMBER over partitions *)

Lemma column_name_inj i j : column_name i = column_name j -> i = j.
Proof.
  unfold column_name. simpl. intros H. injection H as H. by apply (inj pretty).
Qed.

Lemma index_of_column_name a n i :
  (a <= i < a + n)%nat ->
  index_of (column_name i) (map column_name (seq a n)) = Some (i - a)%nat.
Proof.
  revert a. induction n as [|n IH]; intros a Hi; [lia|]. simpl.
  destruct (decide (column_name a = column_name i)) as [Heq|Hne].
  - apply column_name_inj in Heq. subst. by rewrite Nat.sub_diag.
  - assert (a <> i) by (intros ->; by apply Hne).
    rewrite IH by lia. simpl. f_equal. lia.
Qed.

Lemma column_name_not_later i a n :
  (i < a)%nat -> column_name i ∉ map column_name (seq a n).
Proof.
  intros Hi Hin. apply list_elem_of_fmap in Hin as (k & Heq & Hk).
  apply column_name_inj in Heq. subst. apply elem_of_seq in Hk. lia.
Qed.

Lemma column_position_column_name m i :
  (i < m)%nat -> column_position (column_names m) (column_name i) = Ok i.
Proof.
  intros Hi. unfold column_position, column_names.
  rewrite index_of_column_name by lia. rewrite Nat.sub_0_r.
  rewrite decide_False; [done|].
  rewrite <- (fmap_drop column_name), drop_seq. apply column_name_not_later. lia.
Qed.

Lemma mapM_column_position m a n :
  (a + n <= m)%nat ->
  mapM (column_position (column_names m)) (map column_name (seq a n)) = Ok (seq a n).
Proof.
  revert a. induction n as [|n IH]; intros a Ha; simpl; [done|].
  rewrite column_position_column_name by lia. cbn [bind].
  rewrite IH by lia. reflexivity.
Qed.

Lemma cells_of_row (l : list PyValue) :
  map (fun i => cell i l) (seq 0 (length l)) = l.
Proof.
  apply list_eq. intros i. rewrite list_lookup_fmap.
  destruct (decide (i < length l)%nat) as [Hi|Hi].
  - rewrite lookup_seq_lt by done. simpl. unfold cell.
    destruct (lookup_lt_is_Some_2 l i Hi) as [x Hx]. by rewrite Hx.
  - rewrite (lookup_ge_None_2 l i) by lia.
    rewrite (lookup_ge_None_2 (seq 0 (length l)) i); [done|].
    rewrite length_seq. lia.
Qed.

Lemma first_cells_full m rws :
  Forall (fun r => length r.2 = m) rws -> first_cells m rws = rws.
Proof.
  unfold first_cells. induction 1 as [|[lbl cells] rws Hr _ IH]; simpl; [done|].
  simpl in Hr. subst m. by rewrite cells_of_row, IH.
Qed.

Lemma first_cells_extend j rws :
  zip_with (fun (r : Label * list PyValue) (it : Label * PyValue) => (r.1, r.2 ++ [it.2]))
           (first_cells j rws) (map (fun r => (r.1, cell j r.2)) rws)
  = first_cells (S j) rws.
Proof.
  unfold first_cells. induction rws as [|r rws IH]; [done|].
  cbn [map zip_with fst snd]. rewrite IH. f_equal. f_equal.
  by rewrite seq_S, map_app.
Qed.

Lemma index_first_cells j rws : index (mkDataFrame (column_names j) (first_cells j rws)) = map fst rws.
Proof. unfold index, first_cells. simpl. rewrite map_map. reflexivity. Qed.

Lemma add_columns_from rws j metas tys :
  (1 <= j)%nat ->
  add_columns (mkTypedDataFrame (Frame (mkDataFrame (column_names j) (first_cells j rws))) tys)
              (imap (fun i => column_series rws (j + i)) metas)
  = Ok (map (fun i => [column_name i]) (seq j (length metas)),
        mkTypedDataFrame
          (Frame (mkDataFrame (column_names (j + length metas))
                    (first_cells (j + length metas) rws)))
          (tys ++ map snd metas)).
Proof.
  revert j tys. induction metas as [|meta metas IH]; intros j tys Hj.
  - simpl. by rewrite Nat.add_0_r, app_nil_r.
  - cbn [imap add_columns]. unfold maybe_add_column at 1.
    cbn [dataframe as_frame bind column_series series as_series columns rows types type_
         s_items].
    assert (Hlen : length (column_names j) = j)
      by (unfold column_names; by rewrite length_map, length_seq).
    rewrite Hlen.
    rewrite decide_False by (destruct j; [lia|done]).
    rewrite decide_True.
    2:{ rewrite index_first_cells. unfold s_index. simpl. by rewrite map_map. }
    cbn [bind fst snd]. rewrite Nat.add_0_r.
    rewrite first_cells_extend.
    replace (column_names j ++ [column_name j]) with (column_names (S j))
      by (unfold column_names; by rewrite seq_S, map_app).
    rewrite (imap_ext _ (fun i => column_series rws (S j + i))).
    2:{ intros i x _. simpl. f_equal. lia. }
    rewrite IH by lia. cbn [bind fst snd]. simpl length.
    rewrite <- app_assoc. simpl.
    by replace (j + S (length metas))%nat with (S (j + length metas)) by lia.
Qed.

Lemma add_columns_children rws metas :
  metas <> [] ->
  add_columns (mkTypedDataFrame (Frame empty_frame) []) (columns_as_children rws metas)
  = Ok (map (fun i => [column_name i]) (seq 0 (length metas)),
        mkTypedDataFrame
          (Frame (mkDataFrame (column_names (length metas))
                    (first_cells (length metas) rws)))
          (map snd metas)).
Proof.
  intros Hne. destruct metas as [|meta metas]; [done|].
  unfold columns_as_children. cbn [imap add_columns]. unfold maybe_add_column at 1.
  cbn [dataframe as_frame bind column_series series as_series columns rows types type_
       s_items empty_frame length].
  rewrite decide_True by done. cbn [bind fst snd].
  replace (map (fun it : Label * PyValue => (it.1, [it.2]))
             (map (fun r : Label * list PyValue => (r.1, cell 0 r.2)) rws))
    with (first_cells 1 rws)
    by (unfold first_cells; by rewrite map_map).
  change [column_name 0] with (column_names 1).
  rewrite (imap_ext _ (fun i => column_series rws (1 + i))) by done.
  rewrite add_columns_from by lia. reflexivity.
Qed.


Lemma length_filter_zip_fst {K V} `{EqDecision K} (k : K) (ks : list K) (xs : list V) :
  length ks = length xs ->
  length (filter (fun p : K * V => p.1 = k) (zip ks xs)) =
  length (filter (fun k' => k' = k) ks).
Proof.
  revert xs. induction ks as [|k0 ks IH]; intros [|x xs] Hlen; simpl in *; try done.
  rewrite !filter_cons. simpl.
  destruct (decide (k0 = k)); simpl; rewrite IH by lia; done.
Qed.

Lemma group_items_length g k :
  length (sg_keys g) = length (s_items (sg_series g)) ->
  length (group_items g k) = length (filter (fun k' => k' = k) (sg_keys g)).
Proof.
  intros Hlen. unfold group_items. rewrite length_map.
  by apply length_filter_zip_fst.
Qed.

Lemma row_number_value (grp : list (Label * PyValue)) c :
  (c < length grp)%nat ->
  s_values (mkSeries None
              (zip (map fst grp)
                   (map (fun i => PInt (Z.of_nat i)) (seq 1 (length grp))))) !! c
  = Some (PInt (Z.of_nat (S c))).
Proof.
  intros Hc. unfold s_values. cbn [s_items].
  destruct (lookup_lt_is_Some_2 grp c Hc) as [x Hx].
  rewrite list_lookup_fmap, lookup_zip_with, !list_lookup_fmap, Hx.
  rewrite lookup_seq_lt by done. reflexivity.
Qed.

(** [transform] with ROW_NUMBER: every row receives its number within its
    group. *)
Lemma transform_rows_row_number g seen (todo : list (list PyValue * (Label * PyValue))) :
  Forall (fun p => PNone ∉ p.1) todo ->
  (forall k, (length (filter (fun k' => k' = k) seen) +
              length (filter (fun k' => k' = k) (map fst todo))
              <= length (group_items g k))%nat) ->
  transform_rows (window_function Row_Number) g seen todo =
    Ok (zip (map (fun p => p.2.1) todo) (map PInt (row_numbers seen (map fst todo)))).
Proof.
  revert seen. induction todo as [|[k [lbl v]] todo IH]; intros seen Hnull Hcount; [done|].
  inversion Hnull as [|? ? Hk Hrest]; subst. simpl in Hk.
  cbn [transform_rows]. rewrite bool_decide_eq_false_2 by done.
  unfold window_function at 1. cbn [is_aggregating function Row_Number_function unpack_one bind].
  cbn [s_items s_index].
  rewrite decide_True.
  2:{ cbn [s_items]. unfold s_index. cbn [s_items].
      rewrite length_zip_with, !length_map, length_seq. lia. }
  assert (Hc : (length (filter (fun k' => k' = k) seen) < length (group_items g k))%nat).
  { specialize (Hcount k). cbn [map fst] in Hcount. rewrite filter_cons in Hcount.
    rewrite decide_True in Hcount by done. simpl in Hcount. lia. }
  unfold s_index. cbn [s_items].
  rewrite (row_number_value (group_items g k) _ Hc). cbn [of_option bind].
  rewrite IH; [reflexivity|done|].
  intros k'. specialize (Hcount k'). cbn [map fst] in Hcount.
  rewrite !filter_cons in *. destruct (decide (k = k')); simpl in *; lia.
Qed.

(** The numbers of the rows of one partition, in row order, are 1, 2, ... *)
Lemma row_numbers_by_key {R} (phi : R -> list PyValue) (rws : list R) seen k :
  map snd (filter (fun p : R * Z => phi p.1 = k)
             (zip rws (row_numbers seen (map phi rws)))) =
  map Z.of_nat (seq (S (length (filter (fun k' => k' = k) seen)))
                    (length (filter (fun r => phi r = k) rws))).
Proof.
  revert seen. induction rws as [|r rws IH]; intros seen; [done|].
  cbn [map row_numbers zip_with]. rewrite !filter_cons. cbn [fst].
  destruct (decide (phi r = k)) as [Heq|Hne].
  - cbn [map snd length seq]. rewrite Heq. f_equal.
    rewrite IH. rewrite filter_cons, decide_True by done. reflexivity.
  - rewrite IH. rewrite filter_cons, decide_False by done. reflexivity.
Qed.

Lemma row_numbers_length seen keys : length (row_numbers seen keys) = length keys.
Proof. revert seen. induction keys; intros seen; simpl; [done|]. by rewrite IHkeys. Qed.

(** With one key for every row the numbers are 1, 2, ..., whatever the
    key. *)
Lemma row_numbers_constant {R} (c : list PyValue) (rws : list R) a :
  row_numbers (replicate a c) (map (fun _ => c) rws) =
  map Z.of_nat (seq (S a) (length rws)).
Proof.
  revert a. induction rws as [|r rws IH]; intros a; [done|].
  cbn [map row_numbers length seq]. f_equal.
  - f_equal. f_equal. induction a as [|a IHa]; [done|]. simpl.
    rewrite filter_cons, decide_True by done. simpl. by rewrite IHa.
  - exact (IH (S a)).
Qed.


Lemma constant_not_column_name m : "__constant__" ∉ column_names m.
Proof.
  unfold column_names. intros Hin.
  apply list_elem_of_fmap in Hin as (k & Heq & _).
  unfold column_name in Heq. simpl in Heq. discriminate.
Qed.

Lemma index_of_appended (c : string) (l : list string) :
  c ∉ l -> index_of c (l ++ [c]) = Some (length l).
Proof.
  induction l as [|x l IH]; intros Hc; simpl.
  - by rewrite decide_True.
  - rewrite decide_False by set_solver. rewrite IH by set_solver. done.
Qed.

Lemma cell_appended (cells : list PyValue) v : cell (length cells) (cells ++ [v]) = v.
Proof. unfold cell. rewrite lookup_app_r by lia. by rewrite Nat.sub_diag. Qed.

Lemma cell_app_l i (cells : list PyValue) v :
  (i < length cells)%nat -> cell i (cells ++ [v]) = cell i cells.
Proof. intros Hi. unfold cell. by rewrite lookup_app_l. Qed.

Lemma str_join_single (x : string) : str_join "." [x] = x.
Proof. reflexivity. Qed.

Lemma paths_to_names a n :
  map (str_join ".") (map (fun i => [column_name i]) (seq a n)) = map column_name (seq a n).
Proof. rewrite map_map. apply map_ext. intros i. apply str_join_single. Qed.

(** The grouped argument column of ROW_NUMBER: the first column, with the
    PARTITION BY values of each row as its key. *)
Lemma lookup_argument_partitioned m np rws tys :
  (1 <= np)%nat -> (1 + np <= m)%nat ->
  lookup_column
    (mkTypedDataFrame (FrameGroupBy (mkDataFrame (column_names m) rws)
                         (map column_name (seq 1 np))) tys)
    [column_name 0]
  = Ok (mkTypedSeries
          (GroupedSeries
             (mkSeriesGroupBy
                (mkSeries (Some (column_name 0)) (map (fun r => (r.1, cell 0 r.2)) rws))
                (map (partition_key np) rws)))
          (default None (tys !! 0%nat))).
Proof.
  intros Hnp Hm. unfold lookup_column. rewrite str_join_single.
  cbn [dataframe columns types].
  rewrite column_position_column_name by lia. cbn [bind].
  unfold grouped_column. cbn [columns].
  rewrite mapM_column_position by lia. cbn [bind].
  unfold get_column. cbn [columns rows].
  rewrite column_position_column_name by lia. reflexivity.
Qed.

(** Without PARTITION BY: the first column again, every row with the key
    of the constant column. *)
Lemma lookup_argument_unpartitioned m rws tys :
  (1 <= m)%nat ->
  Forall (fun r : Label * list PyValue => length r.2 = m) rws ->
  lookup_column
    (mkTypedDataFrame
       (FrameGroupBy (set_constant_column (mkDataFrame (column_names m) rws)
                        "__constant__" (PInt 100))
                     ["__constant__"]) tys)
    [column_name 0]
  = Ok (mkTypedSeries
          (GroupedSeries
             (mkSeriesGroupBy
                (mkSeries (Some (column_name 0)) (map (fun r => (r.1, cell 0 r.2)) rws))
                (map (fun _ => [PInt 100]) rws)))
          (default None (tys !! 0%nat))).
Proof.
  intros Hm Hrows. unfold lookup_column. rewrite str_join_single.
  cbn [dataframe types].
  unfold set_constant_column. cbn [columns rows].
  rewrite (index_of_None _ _ (constant_not_column_name m)). cbn [columns rows].
  assert (Hlen : length (column_names m) = m)
    by (unfold column_names; by rewrite length_map, length_seq).
  assert (Hpos0 : column_position (column_names m ++ ["__constant__"]) (column_name 0) = Ok 0%nat).
  { destruct m as [|m]; [lia|]. unfold column_position, column_names.
    cbn [seq map app index_of]. rewrite decide_True by done.
    rewrite decide_False; [done|]. intros Hin.
    change (column_name 0 ∈ map column_name (seq 1 m) ++ ["__constant__"]) in Hin.
    apply elem_of_app in Hin as [Hin|Hin].
    - apply (column_name_not_later 0 1 m) in Hin; [done|lia].
    - apply list_elem_of_singleton in Hin. unfold column_name in Hin. simpl in Hin.
      discriminate. }
  assert (Hposc : column_position (column_names m ++ ["__constant__"]) "__constant__" = Ok m).
  { unfold column_position.
    rewrite (index_of_appended _ _ (constant_not_column_name m)), Hlen.
    rewrite decide_False; [done|].
    rewrite drop_ge by (rewrite length_app, Hlen; simpl; lia). apply not_elem_of_nil. }
  rewrite Hpos0. cbn [bind]. unfold grouped_column. cbn [columns rows mapM].
  rewrite Hposc. cbn [bind]. unfold get_column. cbn [columns rows].
  rewrite Hpos0. cbn [bind]. do 3 f_equal.
  induction Hrows as [|[lbl cells] rws Hr _ IH]; [done|].
  cbn [map fst snd] in *. inversion IH as [[IH1 IH2]]. rewrite IH1, IH2.
  rewrite <- Hr at 1. rewrite cell_appended. rewrite cell_app_l by lia. reflexivity.
Qed.

Lemma transform_row_number (s : Series) (keys : list (list PyValue)) :
  length keys = length (s_items s) ->
  Forall (fun k => PNone ∉ k) keys ->
  pd_transform (window_function Row_Number) (mkSeriesGroupBy s keys) =
    Ok (mkSeries (s_name s) (zip (s_index s) (map PInt (row_numbers [] keys)))).
Proof.
  intros Hlen Hnull. unfold pd_transform. cbn [sg_keys sg_series].
  rewrite transform_rows_row_number.
  - cbn [bind]. do 3 f_equal.
    + unfold s_index. clear Hnull. revert keys Hlen.
      induction (s_items s) as [|it items IH]; intros [|k keys] Hlen; simpl in *; try done.
      f_equal. apply IH. lia.
    + do 2 f_equal. clear Hnull. revert keys Hlen.
      induction (s_items s) as [|it items IH]; intros [|k keys] Hlen; simpl in *; try done.
      f_equal. apply IH. lia.
  - clear Hlen. revert Hnull. generalize (s_items s). intros items.
    revert items. induction keys as [|k keys IH]; intros [|it items] Hnull; simpl;
      try constructor.
    + by inversion Hnull.
    + apply IH. by inversion Hnull.
  - intros k. rewrite (group_items_length _ k) by done. cbn [sg_keys].
    simpl. apply Nat.eq_le_incl. f_equal.
    clear Hnull. revert keys Hlen.
    induction (s_items s) as [|it items IH]; intros [|k0 keys] Hlen; simpl in *; try done.
    rewrite !filter_cons. destruct (decide (k0 = k)); simpl; rewrite IH by lia; done.
Qed.


Lemma column_position_constant m :
  column_position (column_names m ++ ["__constant__"]) "__constant__" = Ok m.
Proof.
  assert (Hlen : length (column_names m) = m)
    by (unfold column_names; by rewrite length_map, length_seq).
  unfold column_position.
  rewrite (index_of_appended _ _ (constant_not_column_name m)), Hlen.
  rewrite decide_False; [done|].
  rewrite drop_ge by (rewrite length_app, Hlen; simpl; lia). apply not_elem_of_nil.
Qed.

Lemma split_paths np no :
  let paths := map (fun i => [column_name i]) (seq 0 (1 + np + no)) in
  take 1 paths = [[column_name 0]] /\
  take np (drop 1 paths) = map (fun i => [column_name i]) (seq 1 np) /\
  drop (1 + np) paths = map (fun i => [column_name i]) (seq (1 + np) no).
Proof.
  intros paths. subst paths. split; [done|]. split.
  - rewrite <- fmap_drop, <- fmap_take, drop_seq, take_seq.
    f_equal. f_equal; lia.
  - rewrite <- fmap_drop, drop_seq. f_equal. f_equal; lia.
Qed.

Lemma Sorted_always {A} (R : A -> A -> Prop) (l : list A) :
  (forall a b, R a b) -> Sorted R l.
Proof.
  intros HR. induction l as [|x l IH]; constructor; [done|].
  destruct l; constructor. apply HR.
Qed.

Lemma analytic_order_by_sorts m np no rws tys ascending :
  nargsort_contract ->
  m = (1 + np + no)%nat ->
  length ascending = no ->
  Forall (fun i => homogeneous (map (fun r : Label * list PyValue => cell i r.2) rws) = true)
         (seq (1 + np) no) ->
  exists sorted,
    analytic_order_by (mkTypedDataFrame (Frame (mkDataFrame (column_names m) rws)) tys)
      (map (fun i => [column_name i]) (seq (1 + np) no)) ascending
    = Ok (mkTypedDataFrame (Frame (mkDataFrame (column_names m) sorted)) tys) /\
    sorted ≡ₚ rws /\
    (no = 0%nat -> sorted = rws) /\
    StronglySorted (fun r1 r2 => lex_leb (zip (seq (1 + np) no) ascending) r1 r2 = true) sorted.
Proof.
  intros Hcontract Hm Hasc Hhom. destruct no as [|no].
  - exists rws. split; [done|]. split; [done|]. split; [done|].
    apply Sorted_lex_leb_strongly, Sorted_always. done.
  - destruct (sort_values_sorts (mkDataFrame (column_names m) rws)
                (map column_name (seq (1 + np) (S no))) ascending (seq (1 + np) (S no)))
      as (sorted & Hsort & Hperm & Hsorted & _); try done.
    { by rewrite length_map, length_seq. }
    { apply mapM_column_position. lia. }
    exists sorted. split; [|split; [done|split; [lia|done]]].
    unfold analytic_order_by.
    rewrite paths_to_names. cbn [seq map]. cbn [seq map] in Hsort.
    cbn [dataframe as_frame bind types]. rewrite Hsort. reflexivity.
Qed.

Lemma analytic_partition_by_groups m np rws tys :
  (1 + np <= m)%nat ->
  analytic_partition_by (mkTypedDataFrame (Frame (mkDataFrame (column_names m) rws)) tys)
    (map (fun i => [column_name i]) (seq 1 np))
  = Ok (mkTypedDataFrame
          (match np with
           | O => FrameGroupBy (set_constant_column (mkDataFrame (column_names m) rws)
                                  "__constant__" (PInt 100)) ["__constant__"]
           | S _ => FrameGroupBy (mkDataFrame (column_names m) rws)
                      (map column_name (seq 1 np))
           end) tys).
Proof.
  intros Hm. unfold analytic_partition_by. cbn [dataframe as_frame bind types].
  destruct np as [|np].
  - cbn [seq map]. unfold pd_groupby. unfold set_constant_column at 1.
    cbn [columns]. rewrite (index_of_None _ _ (constant_not_column_name m)).
    cbn [columns mapM]. rewrite column_position_constant. reflexivity.
  - rewrite paths_to_names. cbn [seq map]. unfold pd_groupby. cbn [columns].
    change (column_name 1 :: map column_name (seq 2 np)) with (map column_name (seq 1 (S np))).
    rewrite mapM_column_position by lia. reflexivity.
Qed.



(** ROW_NUMBER() OVER (PARTITION BY ... ORDER BY ...) is built with the
    constant 1 as its one argument, whatever arguments it was given. *)
Lemma row_number_call_shape name arguments partition_by order_by :
  str_upper name = "ROW_NUMBER" ->
  FunctionCall_create name arguments (Some (partition_by, order_by)) =
    Ok (AnalyticFunctionCall Row_Number
          (Value (PInt 1) (Some INTEGER) :: default [] partition_by ++
             map fst (default [] order_by))
          1 (length (default [] partition_by))
          (map (fun od => match od.2 with
                          | None => true
                          | Some direction => bool_decide (str_upper direction <> "DESC")
                          end) (default [] order_by))).
Proof.
  intros Hname. unfold FunctionCall_create. rewrite Hname.
  change (FUNCTION_MAP !! "ROW_NUMBER") with (Some Row_Number).
  reflexivity.
Qed.


End Properties.

(* ===================================================================== *)
(** * Further properties of the nodes *)
(* ===================================================================== *)

Section MoreProperties.

Context `{E : Externals}.

(** ** LIMIT and OFFSET *)

Lemma py_slice_take_drop {A} (l : list A) (k n : Z) :
  0 <= k -> 0 <= n ->
  py_slice l k (n + k) = take (Z.to_nat n) (drop (Z.to_nat k) l).
Proof.
  intros Hk Hn. unfold py_slice, py_clamp.
  rewrite !decide_False by lia.
  destruct (decide (Z.of_nat (length l) <= k)) as [Hlen|Hlen].
  - rewrite !Z.min_r by lia. rewrite Z.sub_diag. simpl.
    rewrite (drop_ge l (Z.to_nat k)) by lia. by rewrite take_nil.
  - rewrite (Z.min_l k) by lia.
    destruct (decide (n + k <= Z.of_nat (length l))) as [Hnk|Hnk].
    + rewrite Z.min_l by lia. f_equal. lia.
    + rewrite Z.min_r by lia.
      rewrite !take_ge; [done| |]; rewrite length_drop; lia.
Qed.

(** X1.  LIMIT n OFFSET k, with n and k not negative: the result holds the
    rows k, k+1, ..., k+n-1 of the table, as far as they exist, in their
    order: at most n rows, none when the offset is past the end.  Columns
    and types are those of the table.  Without OFFSET, k is 0. *)
Theorem limit_offset_rows (limit_expression : Node) (offset_expression : option Node)
    (t : TypedDataFrame) (df : DataFrame) (n k : Z) :
  constant_int limit_expression = Ok n ->
  match offset_expression with
  | Some e => constant_int e = Ok k
  | None => k = 0
  end ->
  dataframe t = Frame df ->
  0 <= n -> 0 <= k ->
  let kept := take (Z.to_nat n) (drop (Z.to_nat k) (rows df)) in
  QueryExpression_limit (limit_expression, offset_expression) t =
    Ok (mkTypedDataFrame (Frame (mkDataFrame (columns df) kept)) (types t)) /\
  (length kept <= Z.to_nat n)%nat /\
  (length kept = Nat.min (Z.to_nat n) (length (rows df) - Z.to_nat k))%nat /\
  (Z.of_nat (length (rows df)) <= k -> kept = []) /\
  (forall i, (i < length kept)%nat -> kept !! i = rows df !! (Z.to_nat k + i)%nat).
Proof.
  intros Hlimit Hoffset Hdf Hn Hk kept.
  split; [|split; [|split; [|split]]].
  - unfold QueryExpression_limit. cbn [fst snd]. rewrite Hlimit. cbn [bind].
    assert (Ho : match offset_expression with
                 | Some e => constant_int e
                 | None => Ok 0
                 end = Ok k).
    { destruct offset_expression; [done|by subst]. }
    rewrite Ho. cbn [bind]. rewrite Hdf. cbn [as_frame bind].
    unfold pd_slice. by rewrite py_slice_take_drop.
  - unfold kept. rewrite length_take. lia.
  - unfold kept. by rewrite length_take, length_drop.
  - intros Hlen. unfold kept. rewrite drop_ge by lia. by rewrite take_nil.
  - intros i Hi. unfold kept in *. rewrite length_take in Hi.
    rewrite lookup_take_lt by lia. by rewrite lookup_drop.
Qed.

(** ** Spellings of a table reference *)

Lemma string_app_cons (c : ascii) (a b : string) : String c a +:+ b = String c (a +:+ b).
Proof. reflexivity. Qed.

Lemma string_app_nil_l (a : string) : "" +:+ a = a.
Proof. reflexivity. Qed.

Lemma string_app_assoc (a b c : string) : (a +:+ b) +:+ c = a +:+ (b +:+ c).
Proof.
  induction a as [|x a IH]; [done|]. rewrite !string_app_cons. f_equal. exact IH.
Qed.

Lemma string_app_nil_r (a : string) : a +:+ "" = a.
Proof. induction a as [|x a IH]; [done|]. rewrite string_app_cons. f_equal. exact IH. Qed.

Lemma str_split_aux_app sep (x rest cur : string) :
  no_sep sep x = true ->
  str_split_aux sep (x +:+ rest) cur = str_split_aux sep rest (cur +:+ x).
Proof.
  revert cur. induction x as [|c x IH]; intros cur Hx.
  - by rewrite string_app_nil_l, string_app_nil_r.
  - simpl in Hx. destruct (decide (c = sep)) as [|Hc]; [discriminate|].
    rewrite string_app_cons. cbn [str_split_aux]. rewrite decide_False by done.
    rewrite IH by done. rewrite string_app_assoc. by rewrite string_app_cons.
Qed.

Lemma string_concat_cons (sep x y : string) (l : list string) :
  String.concat sep (x :: y :: l) = x +:+ sep +:+ String.concat sep (y :: l).
Proof. reflexivity. Qed.

Lemma str_split_aux_join sep (parts : list string) (x cur : string) :
  Forall (fun p => no_sep sep p = true) (x :: parts) ->
  str_split_aux sep (str_join (String sep "") (x :: parts)) cur = (cur +:+ x) :: parts.
Proof.
  revert x cur. induction parts as [|y parts IH]; intros x cur Hall.
  - inversion Hall as [|? ? Hx _]; subst. unfold str_join. simpl.
    rewrite <- (string_app_nil_r x) at 1.
    rewrite str_split_aux_app by done. done.
  - inversion Hall as [|? ? Hx Hrest]; subst.
    unfold str_join in *. rewrite string_concat_cons.
    rewrite str_split_aux_app by done.
    rewrite string_app_cons, string_app_nil_l. cbn [str_split_aux].
    rewrite decide_True by done.
    rewrite IH by done. by rewrite string_app_nil_l.
Qed.

(** Splitting a dotted name gives back the parts it was joined from. *)
Lemma str_split_join sep (parts : list string) :
  parts <> [] ->
  Forall (fun p => no_sep sep p = true) parts ->
  str_split sep (str_join (String sep "") parts) = parts.
Proof.
  intros Hne Hall. destruct parts as [|x parts]; [done|].
  unfold str_split. by rewrite str_split_aux_join.
Qed.

Lemma str_split_no_sep sep (s : string) :
  no_sep sep s = true -> str_split sep s = [s].
Proof.
  intros Hs. pose proof (str_split_join sep [s] ltac:(done)) as H.
  unfold str_join in H. simpl in H. apply H. by constructor.
Qed.

(** X2.  In a catalog of one project holding one dataset, a table can be
    named in full, by dataset and table, by its table name alone, or by
    the dotted path between backticks (one part, split at the dots): the
    four spellings return the same table under the name of the table, and
    leave the node holding the full path. *)
Theorem table_reference_spellings
    (project dataset table_id : string) (tables : gmap string TypedDataFrame)
    (t : TypedDataFrame) :
  no_sep "." project = true -> no_sep "." dataset = true ->
  no_sep "." table_id = true ->
  tables !! table_id = Some t ->
  let datasets : DatasetType := {[ project := {[ dataset := tables ]} ]} in
  let full := [project; dataset; table_id] in
  let found := (Ok (t, Some table_id), TableReference full) in
  get_dataframe (TableReference (TableReference_init full)) datasets = found /\
  get_dataframe (TableReference (TableReference_init [dataset; table_id])) datasets = found /\
  get_dataframe (TableReference (TableReference_init [table_id])) datasets = found /\
  get_dataframe (TableReference (TableReference_init [str_join "." full])) datasets = found.
Proof.
  intros Hp Hd Ht Hlook datasets full found.
  assert (Hfetch : fetch_table full datasets = Ok (t, Some table_id)).
  { unfold fetch_table, full, datasets, DatasetType.
    rewrite lookup_singleton_eq. cbn [of_option bind].
    rewrite lookup_singleton_eq. cbn [of_option bind].
    rewrite Hlook. done. }
  assert (Hq1 : qualify_path [table_id] datasets = Ok full).
  { unfold qualify_path, datasets, DatasetType. rewrite decide_True by (simpl; lia).
    rewrite map_to_list_singleton. rewrite decide_True by done.
    by rewrite map_to_list_singleton. }
  assert (Hq2 : qualify_path [dataset; table_id] datasets = Ok full).
  { unfold qualify_path, datasets, DatasetType. rewrite decide_True by (simpl; lia).
    rewrite map_to_list_singleton. by rewrite decide_False by (simpl; lia). }
  assert (Hq3 : qualify_path full datasets = Ok full).
  { unfold qualify_path. by rewrite decide_False by (simpl; lia). }
  split; [|split; [|split]].
  - cbn [TableReference_init full get_dataframe]. unfold TableReference_get_dataframe.
    fold full. by rewrite Hq3, Hfetch.
  - cbn [TableReference_init get_dataframe]. unfold TableReference_get_dataframe.
    by rewrite Hq2, Hfetch.
  - cbn [TableReference_init]. rewrite str_split_no_sep by done.
    cbn [get_dataframe]. unfold TableReference_get_dataframe.
    by rewrite Hq1, Hfetch.
  - cbn [TableReference_init].
    rewrite (str_split_join "." full); [|done|by repeat constructor].
    cbn [get_dataframe]. unfold TableReference_get_dataframe.
    by rewrite Hq3, Hfetch.
Qed.

(** ** The select list *)

Lemma number_fields_lookup (fs : list Node) (i : nat) (f : Node) :
  fs !! i = Some f ->
  number_fields fs !! i = Some (set_position (Z.of_nat i + 1) f).
Proof. intros Hf. unfold number_fields. by rewrite list_lookup_imap, Hf. Qed.

Lemma mapM_total {A B} (f : A -> result B) (l : list A) :
  Forall (fun x => exists y, f x = Ok y) l -> exists l', mapM f l = Ok l'.
Proof.
  induction 1 as [|x l [y Hy] _ [l' IH]]; simpl; [eauto|].
  rewrite Hy, IH. simpl. eauto.
Qed.

Lemma length_filter_numbered (g : nat -> Z) (fs : list Node) :
  length (filter (fun f => is_Selector f = true) (imap (fun i f => set_position (g i) f) fs)) =
  length (filter (fun f => is_Selector f = true) fs).
Proof.
  revert g. induction fs as [|f fs IH]; intros g; [done|].
  cbn [imap]. rewrite !filter_cons.
  assert (Hsame : is_Selector (set_position (g 0%nat) f) = is_Selector f)
    by (by destruct f).
  rewrite Hsame. specialize (IH (g ∘ S)).
  destruct (decide (is_Selector f = true)); simpl; [f_equal|]; exact IH.
Qed.

Lemma Select_init_fields m fs src w g h s :
  Select_init m fs src w g h = Ok s -> fields s = number_fields fs.
Proof.
  unfold Select_init. intros Hs.
  apply bind_Ok_inv in Hs as (g' & _ & Hs). by inversion Hs.
Qed.

(** X3.  [Select.__init__] numbers the select list from 1: the field at
    index i holds position i + 1.  So in a Select that was built, the name
    of every selector is defined ([name()] raises no RuntimeError), one
    name for each selector of the list; and two selectors with neither an
    alias nor a name of their own get different names, _f followed by
    their positions. *)
Theorem select_fields_are_numbered m fs src w g h (s : Select) :
  Select_init m fs src w g h = Ok s ->
  length (fields s) = length fs /\
  (forall i child alias pos,
      fs !! i = Some (Selector child alias pos) ->
      fields s !! i = Some (Selector child alias (Some (Z.of_nat i + 1)))) /\
  (exists names,
      mapM field_name (filter (fun f => is_Selector f = true) (fields s)) = Ok names /\
      length names = length (filter (fun f => is_Selector f = true) fs)) /\
  (forall i j ci cj ni nj,
      fields s !! i = Some ci -> fields s !! j = Some cj ->
      i <> j ->
      (exists child pos, ci = Selector child None pos /\
                         (inferred_name child = None \/ inferred_name child = Some "")) ->
      (exists child pos, cj = Selector child None pos /\
                         (inferred_name child = None \/ inferred_name child = Some "")) ->
      field_name ci = Ok ni -> field_name cj = Ok nj ->
      ni = positional_name (Z.of_nat i + 1) /\ nj = positional_name (Z.of_nat j + 1) /\
      ni <> nj).
Proof.
  intros Hs. pose proof (Select_init_fields _ _ _ _ _ _ _ Hs) as Hf. rewrite Hf.
  split; [|split; [|split]].
  - unfold number_fields. by rewrite length_imap.
  - intros i child alias pos Hi. by rewrite (number_fields_lookup _ _ _ Hi).
  - destruct (mapM_total field_name
                (filter (fun f => is_Selector f = true) (number_fields fs))) as [names Hn].
    { apply Forall_forall. intros f Hin. apply list_elem_of_filter in Hin as [Hsel Hin].
      apply list_elem_of_lookup in Hin as [i Hi].
      unfold number_fields in Hi. rewrite list_lookup_imap in Hi.
      destruct (fs !! i) as [f0|]; [|done]. simpl in Hi. inversion Hi; subst.
      destruct f0; try discriminate. simpl. apply Selector_name_populated. }
    exists names. split; [done|]. rewrite (mapM_length _ _ _ Hn).
    apply length_filter_numbered.
  - intros i j ci cj ni nj Hi Hj Hij (chi & pi & -> & Hci) (chj & pj & -> & Hcj) Hni Hnj.
    unfold number_fields in Hi, Hj. rewrite list_lookup_imap in Hi, Hj.
    destruct (fs !! i) as [fi|]; [|done]. destruct (fs !! j) as [fj|]; [|done].
    simpl in Hi, Hj. destruct fi; try discriminate. destruct fj; try discriminate.
    simpl in Hi, Hj. inversion Hi; subst. inversion Hj; subst.
    simpl in Hni, Hnj. unfold Selector_name, Selector_name_with in Hni, Hnj.
    assert (Hi' : ni = positional_name (Z.of_nat i + 1)).
    { destruct Hci as [Hc|Hc]; rewrite Hc in Hni; [|rewrite decide_True in Hni by done];
        by inversion Hni. }
    assert (Hj' : nj = positional_name (Z.of_nat j + 1)).
    { destruct Hcj as [Hc|Hc]; rewrite Hc in Hnj; [|rewrite decide_True in Hnj by done];
        by inversion Hnj. }
    split; [done|]. split; [done|]. subst. unfold positional_name. intros Heq.
    apply (inj (String.append "_f")) in Heq. apply (inj pretty) in Heq. lia.
Qed.

(** ** Function calls *)

Lemma py_slice_prefix {A} (a b : list A) :
  py_slice (a ++ b) 0 (Z.of_nat (length a)) = a.
Proof.
  unfold py_slice, py_clamp. rewrite !decide_False by lia.
  rewrite length_app. rewrite Z.min_l by lia. rewrite Z.min_l by lia.
  rewrite Z.sub_0_r, Nat2Z.id. change (Z.to_nat 0) with 0%nat.
  rewrite drop_0. by rewrite take_app_length.
Qed.

Lemma py_slice_middle {A} (a b c : list A) :
  py_slice (a ++ b ++ c) (Z.of_nat (length a)) (Z.of_nat (length a) + Z.of_nat (length b)) = b.
Proof.
  unfold py_slice, py_clamp. rewrite !decide_False by lia.
  rewrite !length_app. rewrite !Z.min_l by lia.
  rewrite Nat2Z.id. rewrite drop_app_length.
  replace (Z.to_nat (Z.of_nat (length a) + Z.of_nat (length b) - Z.of_nat (length a)))
    with (length b) by lia.
  by rewrite take_app_length.
Qed.

Lemma py_slice_suffix {A} (a c : list A) (k : Z) :
  k = Z.of_nat (length a) ->
  py_slice (a ++ c) k (Z.of_nat (length (a ++ c))) = c.
Proof.
  intros ->. unfold py_slice, py_clamp. rewrite !decide_False by lia.
  rewrite !length_app. rewrite Z.min_id.
  rewrite (Z.min_l (Z.of_nat (length a))) by lia.
  rewrite Nat2Z.id. rewrite drop_app_length.
  rewrite take_ge; [done|]. lia.
Qed.

Lemma ascending_round_trip (asc : list bool) (exprs : list Node) :
  length exprs = length asc ->
  map (fun od : Node * option string =>
         match od.2 with
         | None => true
         | Some direction => bool_decide (str_upper direction ≠ "DESC")
         end)
      (zip_with (fun argument (ascending : bool) =>
                   (argument, Some (if ascending then "ASC" else "DESC"))) exprs asc) = asc /\
  map fst (zip_with (fun argument (ascending : bool) =>
                       (argument, Some (if ascending then "ASC" else "DESC"))) exprs asc)
    = exprs.
Proof.
  revert asc. induction exprs as [|e exprs IH]; intros [|a asc] Hlen; try done.
  simpl in Hlen. destruct (IH asc ltac:(lia)) as [H1 H2].
  cbn [zip_with map fst snd]. rewrite H1, H2. split; [|done].
  f_equal. by destruct a.
Qed.

(** X4.  [copy] of an analytic function call on as many children as the
    node has: the new node keeps the function, the number of arguments,
    the number of PARTITION BY expressions and the directions of the
    ORDER BY expressions.  Its children are the new children, but for
    ROW_NUMBER, whose one argument is again the constant 1 whatever child
    was given in its place.  So a node that was built is rebuilt by [copy]
    of its own children. *)
Theorem analytic_copy_keeps_shape (function_info : Function)
    (arguments partition_by order_exprs : list Node) (ascending : list bool) :
  length order_exprs = length ascending ->
  let new_children := arguments ++ partition_by ++ order_exprs in
  (Function_name function_info <> "ROW_NUMBER" ->
   AnalyticFunctionCall_copy function_info (length arguments) (length partition_by)
     ascending new_children =
   AnalyticFunctionCall function_info new_children (length arguments) (length partition_by)
     ascending) /\
  (Function_name function_info = "ROW_NUMBER" ->
   AnalyticFunctionCall_copy function_info (length arguments) (length partition_by)
     ascending new_children =
   AnalyticFunctionCall function_info
     (Value (PInt 1) (Some INTEGER) :: partition_by ++ order_exprs) 1 (length partition_by)
     ascending) /\
  (forall maybe_arguments over_clause children na np asc,
      AnalyticFunctionCall_init function_info maybe_arguments over_clause =
        AnalyticFunctionCall function_info children na np asc ->
      length children = (na + np + length asc)%nat /\
      AnalyticFunctionCall_copy function_info na np asc children =
        AnalyticFunctionCall function_info children na np asc).
Proof.
  intros Hlen new_children.
  assert (Hcopy : forall args parts exprs asc,
             length exprs = length asc ->
             AnalyticFunctionCall_copy function_info (length args) (length parts) asc
               (args ++ parts ++ exprs) =
             AnalyticFunctionCall_init function_info (Some args)
               (Some parts,
                Some (zip_with (fun argument (ascending : bool) =>
                                  (argument, Some (if ascending then "ASC" else "DESC")))
                        exprs asc))).
  { intros args parts exprs asc _. unfold AnalyticFunctionCall_copy.
    rewrite py_slice_prefix, py_slice_middle.
    rewrite (app_assoc args parts exprs).
    rewrite (py_slice_suffix (args ++ parts) exprs); [done|].
    rewrite length_app. lia. }
  split; [|split].
  - intros Hname. unfold new_children. rewrite Hcopy by done.
    unfold AnalyticFunctionCall_init. cbn [from_option]. unfold id.
    destruct (ascending_round_trip ascending order_exprs Hlen) as [-> ->].
    by rewrite decide_False by done.
  - intros Hname. unfold new_children. rewrite Hcopy by done.
    unfold AnalyticFunctionCall_init. cbn [from_option]. unfold id.
    destruct (ascending_round_trip ascending order_exprs Hlen) as [-> ->].
    by rewrite decide_True by done.
  - intros maybe_arguments [maybe_partition_by maybe_order_by] children na np asc Hinit.
    unfold AnalyticFunctionCall_init in Hinit.
    set (order_by := default [] maybe_order_by) in *.
    set (parts := default [] maybe_partition_by) in *.
    assert (Hasc : length (map fst order_by) =
                   length (map (fun od : Node * option string =>
                                  match od.2 with
                                  | None => true
                                  | Some direction => bool_decide (str_upper direction ≠ "DESC")
                                  end) order_by))
      by (by rewrite !length_map).
    destruct (decide (Function_name function_info = "ROW_NUMBER")) as [Hrow|Hrow].
    + injection Hinit as <- <- <- <-.
      split; [cbn [length]; rewrite !length_app, !length_map; lia|].
      change (Value (PInt 1) (Some INTEGER) :: parts ++ map fst order_by)
        with ([Value (PInt 1) (Some INTEGER)] ++ parts ++ map fst order_by).
      change 1%nat with (length [Value (PInt 1) (Some INTEGER)]).
      rewrite Hcopy by done.
      unfold AnalyticFunctionCall_init. cbn [from_option]. unfold id.
      destruct (ascending_round_trip _ _ Hasc) as [-> ->].
      by rewrite decide_True by done.
    + injection Hinit as <- <- <- <-.
      split; [rewrite !length_app, !length_map; lia|].
      rewrite Hcopy by done.
      unfold AnalyticFunctionCall_init. cbn [from_option]. unfold id.
      destruct (ascending_round_trip _ _ Hasc) as [-> ->].
      by rewrite decide_False by done.
Qed.

(** X5.  The factory of COUNT.  COUNT( * ) is built as COUNT(1); another
    literal in place of the star is a ValueError; a modifier other than
    DISTINCT raises NotImplementedError.  What is built counts exactly one
    expression: an aggregating call on it without an OVER clause, an
    analytic call with that one argument in front with one. *)
Theorem count_factory (over_clause : option OverClause) :
  Count_create_count_function_call (CountLiteral "*") over_clause =
    Count_create_count_function_call
      (CountExpression None (Value (PInt 1) (Some INTEGER))) over_clause /\
  (forall s, s <> "*" ->
     Count_create_count_function_call (CountLiteral s) over_clause =
       Error (Raise ValueError "Invalid expression COUNT({})" [FStr s])) /\
  (forall m argument, m <> "DISTINCT" ->
     Count_create_count_function_call (CountExpression (Some m) argument) over_clause =
       Error (Raise NotImplementedError
                "Non-DISTINCT modifiers for COUNT are not implemented: {}" [FStr m])) /\
  (forall maybe_distinct argument,
     maybe_distinct = None \/ maybe_distinct = Some "DISTINCT" ->
     let distinct := bool_decide (maybe_distinct = Some "DISTINCT") in
     Count_create_count_function_call (CountExpression maybe_distinct argument) over_clause =
       Ok (match over_clause with
           | None => AggregatingFunctionCall (Count distinct) [argument]
           | Some (maybe_partition_by, maybe_order_by) =>
               AnalyticFunctionCall (Count distinct)
                 (argument :: default [] maybe_partition_by ++
                    map fst (default [] maybe_order_by))
                 1 (length (default [] maybe_partition_by))
                 (map (fun od : Node * option string =>
                         match od.2 with
                         | None => true
                         | Some direction => bool_decide (str_upper direction ≠ "DESC")
                         end) (default [] maybe_order_by))
           end)).
Proof.
  split; [|split; [|split]].
  - reflexivity.
  - intros s Hs. unfold Count_create_count_function_call.
    by rewrite decide_True by done.
  - intros m argument Hm. unfold Count_create_count_function_call. cbn [bind fst snd].
    by rewrite decide_False by done.
  - intros maybe_distinct argument [-> | ->]; cbn zeta;
      unfold Count_create_count_function_call; cbn [bind fst snd].
    + destruct over_clause as [[mp mo]|]; reflexivity.
    + rewrite decide_True by done. cbn [bind].
      destruct over_clause as [[mp mo]|]; reflexivity.
Qed.

Lemma length_non_null (vs : list PyValue) :
  (length (non_null vs) + length (filter (fun v => is_null v = true) vs) = length vs)%nat.
Proof.
  unfold non_null. induction vs as [|v vs IH]; [done|].
  rewrite !filter_cons. destruct v; simpl; lia.
Qed.

Lemma length_remove_dups_le {A} `{EqDecision A} (l : list A) :
  (length (remove_dups l) <= length l)%nat.
Proof.
  induction l as [|x l IH]; simpl; [done|]. destruct (decide_rel _ _ _); simpl; lia.
Qed.

Lemma remove_dups_nil_inv {A} `{EqDecision A} (l : list A) :
  remove_dups l = [] -> l = [].
Proof.
  intros Hl. destruct l as [|x l]; [done|].
  assert (Hx : x ∈ remove_dups (x :: l)) by (apply elem_of_remove_dups; left).
  rewrite Hl in Hx. by apply elem_of_nil in Hx.
Qed.

(** X6.  COUNT counts the rows that are not null, COUNT(DISTINCT) the
    distinct values among them.  So a count lies between 0 and the number
    of rows; the plain count is the number of rows less the nulls; the
    distinct count is at most the plain count and is 0 exactly when the
    plain count is, which is when every row is null.  On a constant
    column, as COUNT( * ) has, the plain count is the number of rows of the
    table. *)
Theorem count_counts_non_null_rows (value : Series) :
  let nulls := length (filter (fun v => is_null v = true) (s_values value)) in
  exists c d : nat,
    Count_aggregating_function false [value] = Ok (PInt (Z.of_nat c)) /\
    Count_aggregating_function true [value] = Ok (PInt (Z.of_nat d)) /\
    (c + nulls = length (s_items value))%nat /\
    (d <= c)%nat /\
    (d = 0%nat <-> c = 0%nat) /\
    (c = 0%nat <-> Forall (fun v => v = PNone) (s_values value)) /\
    (forall (t : TypedDataFrame) (df : DataFrame) (type_ : option BQScalarType) star,
        dataframe t = Frame df ->
        Value_evaluate_leaf_node (PInt 1) type_ t = Ok star ->
        exists s, series star = PlainSeries s /\
                  Count_aggregating_function false [s] =
                    Ok (PInt (Z.of_nat (length (rows df))))).
Proof.
  intros nulls.
  exists (length (non_null (s_values value))),
         (length (remove_dups (map set_key (non_null (s_values value))))).
  split; [done|]. split; [done|]. split; [|split; [|split; [|split]]].
  - unfold nulls. rewrite length_non_null. unfold s_values. by rewrite length_map.
  - etransitivity; [apply length_remove_dups_le|]. by rewrite length_map.
  - split.
    + intros Hd. apply length_zero_iff_nil in Hd. apply remove_dups_nil_inv in Hd.
      apply fmap_nil_inv in Hd. by rewrite Hd.
    + intros Hc. apply length_zero_iff_nil in Hc. by rewrite Hc.
  - unfold non_null. split.
    + intros Hc. apply length_zero_iff_nil in Hc.
      apply Forall_forall. intros v Hv. destruct v; try done;
        exfalso; (eapply (filter_nil_not_elem_of _ _ _ Hc); [|exact Hv]); done.
    + intros Hall. induction Hall as [|v vs -> _ IH]; [done|].
      rewrite filter_cons. simpl. exact IH.
  - intros t df ty star Hdf Hstar. unfold Value_evaluate_leaf_node in Hstar.
    rewrite Hdf in Hstar. cbn [get_index bind] in Hstar. inversion Hstar; subst.
    eexists. split; [reflexivity|].
    unfold Count_aggregating_function. cbn [unpack_one bind]. do 3 f_equal.
    unfold s_values, non_null, index. cbn [s_items]. rewrite map_map. cbn [snd].
    generalize (rows df). intros l. induction l as [|r l IH]; [done|].
    cbn [map]. rewrite filter_cons. simpl. f_equal. exact IH.
Qed.

Lemma ascii_upper_idem (c : ascii) : ascii_upper (ascii_upper c) = ascii_upper c.
Proof.
  destruct c as [[] [] [] [] [] [] [] []]; vm_compute; reflexivity.
Qed.

Lemma str_upper_idem (s : string) : str_upper (str_upper s) = str_upper s.
Proof. induction s as [|c s IH]; simpl; [done|]. by rewrite ascii_upper_idem, IH. Qed.

(** X7.  [FunctionCall.create] looks the function up by its upper-case
    name, so the case of the name does not matter.  When it succeeds, the
    function is one of the registry; the node is an analytic call exactly
    when there is an OVER clause, and otherwise an aggregating or a plain
    call according to the kind of the function; and an aggregating
    function always receives exactly one argument. *)
Theorem function_call_create_shape (function_name : string)
    (expression : option (list Node)) (over_clause : option OverClause) :
  FunctionCall_create function_name expression over_clause =
    FunctionCall_create (str_upper function_name) expression over_clause /\
  (forall node,
      FunctionCall_create function_name expression over_clause = Ok node ->
      exists function_info,
        FUNCTION_MAP !! str_upper function_name = Some function_info /\
        Function_name function_info = str_upper function_name /\
        node = match over_clause with
               | Some oc => AnalyticFunctionCall_init function_info expression oc
               | None =>
                   if is_aggregating function_info
                   then AggregatingFunctionCall_init function_info expression
                   else NonAggregatingFunctionCall_init function_info expression
               end /\
        (is_aggregating function_info = true ->
         exists argument,
           expression = Some [argument] /\
           match node with
           | AggregatingFunctionCall _ children => children = [argument]
           | AnalyticFunctionCall _ children num_arguments _ _ =>
               num_arguments = 1%nat /\ children !! 0%nat = Some argument
           | _ => False
           end)).
Proof.
  split.
  - unfold FunctionCall_create. by rewrite str_upper_idem.
  - intros node Hnode. unfold FunctionCall_create in Hnode.
    destruct (FUNCTION_MAP !! str_upper function_name) as [f|] eqn:Hf; [|discriminate].
    exists f. split; [done|].
    assert (Hname : Function_name f = str_upper function_name).
    { unfold FUNCTION_MAP in Hf. apply elem_of_list_to_map_2 in Hf.
      apply list_elem_of_fmap in Hf as (g & Hg & _).
      injection Hg as H1 H2. by rewrite H2, H1. }
    split; [done|].
    destruct (is_aggregating f) eqn:Hagg; cbn [andb] in Hnode.
    + destruct expression as [[|argument [|? ?]]|]; try discriminate.
      cbn [length] in Hnode. rewrite bool_decide_eq_false_2 in Hnode by (intros H; by apply H).
      split.
      * destruct over_clause; by inversion Hnode.
      * intros _. exists argument. split; [done|].
        destruct over_clause as [[mp mo]|]; inversion Hnode; subst.
        -- unfold AnalyticFunctionCall_init.
           rewrite decide_False by (clear -Hagg; destruct f; discriminate).
           done.
        -- done.
    + split; [|discriminate]. destruct over_clause; by inversion Hnode.
Qed.

(** ** The wildcard of a select list *)

Lemma str_split_aux_cons sep s cur :
  exists x l, str_split_aux sep s cur = x :: l.
Proof.
  revert cur. induction s as [|c s IH]; intros cur; simpl; [eauto|].
  destruct (decide (c = sep)); eauto.
Qed.

Lemma str_join_split_aux sep (s cur : string) :
  str_join (String sep "") (str_split_aux sep s cur) = cur +:+ s.
Proof.
  revert cur. induction s as [|c s IH]; intros cur; cbn [str_split_aux].
  - unfold str_join. simpl. by rewrite string_app_nil_r.
  - destruct (decide (c = sep)) as [->|Hc].
    + destruct (str_split_aux_cons sep s "") as (x & l & Hx).
      specialize (IH ""). rewrite Hx in *. unfold str_join in *.
      rewrite string_concat_cons, IH. by rewrite string_app_nil_l.
    + rewrite IH. rewrite string_app_assoc. by rewrite string_app_cons.
Qed.

(** Joining the parts of a split name gives the name back. *)
Lemma str_join_split sep (s : string) :
  str_join (String sep "") (str_split sep s) = s.
Proof. unfold str_split. by rewrite str_join_split_aux. Qed.

Lemma py_index_last {A} (l : list A) : py_index l (-1) = last l.
Proof.
  unfold py_index. rewrite decide_False by lia.
  destruct l as [|x l] using rev_ind.
  - reflexivity.
  - rewrite last_snoc. rewrite length_app. cbn [length].
    rewrite decide_True by lia.
    replace (Z.to_nat (Z.of_nat (length l + 1) + -1)) with (length l) by lia.
    by rewrite list_lookup_middle.
Qed.

(** X8.  A wildcard of the select list.  SELECT * stands for one selector
    for each column of the table, in the order of the columns: a field
    whose path, joined by dots, is the label of the column, under the last
    part of the path as alias.  SELECT t.* on a table identifier that the
    context does not know is a KeyError, and a wildcard on any other
    expression a ValueError.  EXCEPT keeps, in order, the selectors whose
    alias is not listed, so that no listed name is selected.  REPLACE
    changes expressions only: the names of the selected columns and their
    order stay the same. *)
Theorem star_selector_expansion (context : EvaluationContext) :
  (forall df,
      dataframe (table context) = Frame df ->
      exists selectors,
        StarSelector_get_selectors None None None context = Ok selectors /\
        length selectors = length (columns df) /\
        forall i col,
          columns df !! i = Some col ->
          exists path alias,
            selectors !! i = Some (Selector (Field path) (Some alias) None) /\
            str_join "." path = col /\ last path = Some alias) /\
  (forall table_identifier exception replacement,
      find (fun tc : string * list string => bool_decide (tc.1 = table_identifier))
           (table_to_column_ids context) = None ->
      StarSelector_get_selectors (Some (Field [table_identifier])) exception replacement
        context = Error (Raise KeyError "{}" [FStr table_identifier])) /\
  (forall e exception replacement,
      (forall table_identifier, e <> Field [table_identifier]) ->
      StarSelector_get_selectors (Some e) exception replacement context =
        Error (Raise ValueError "Cannot select {}.*" [FNode e])) /\
  (forall expression names all,
      StarSelector_get_selectors expression None None context = Ok all ->
      exists kept,
        StarSelector_get_selectors expression (Some names) None context = Ok kept /\
        kept = filter (fun selector => alias_not_in names selector = true) all /\
        kept `sublist_of` all /\
        forall selector alias,
          selector ∈ kept -> selector_alias selector = Some alias -> alias ∉ names) /\
  (forall expression exception replacement base,
      StarSelector_get_selectors expression exception None context = Ok base ->
      exists replaced,
        StarSelector_get_selectors expression exception (Some replacement) context
          = Ok replaced /\
        map selector_alias replaced = map selector_alias base).
Proof.
  split; [|split; [|split; [|split]]].
  - intros df Hdf. unfold StarSelector_get_selectors. rewrite Hdf. cbn [as_frame bind].
    destruct (mapM_total
                (fun col =>
                   alias <- of_option (py_index (str_split "." col) (-1))
                              (Raise IndexError "list index out of range" []) ;;
                   Ok (Selector (Field (str_split "." col)) (Some alias) None))
                (columns df)) as [selectors Hsel].
    { apply Forall_forall. intros col _. rewrite py_index_last.
      unfold str_split. destruct (str_split_aux_cons "." col "") as (x & l & ->).
      destruct (last (x :: l)) as [a|] eqn:Hl; [simpl; eauto|].
      by apply last_None in Hl. }
    exists selectors. rewrite Hsel. cbn [bind]. split; [done|].
    split; [by apply mapM_length in Hsel|].
    intros i col Hcol.
    destruct (mapM_lookup _ _ _ _ _ Hsel Hcol) as (y & Hy & Hf).
    rewrite py_index_last in Hf.
    destruct (last (str_split "." col)) as [alias|] eqn:Hlast; [|discriminate].
    simpl in Hf. inversion Hf; subst.
    exists (str_split "." col), alias. split; [done|]. split; [|done].
    apply str_join_split.
  - intros table_identifier exception replacement Hfind.
    unfold StarSelector_get_selectors. by rewrite Hfind.
  - intros e exception replacement He. unfold StarSelector_get_selectors.
    destruct e as [| [|t [|? ?]] | | | | | | | | |]; try done.
    by specialize (He t).
  - intros expression names all Hall. unfold StarSelector_get_selectors in *.
    apply bind_Ok_inv in Hall as (sels & Hsels & Hall). rewrite Hsels. cbn [bind].
    inversion Hall; subst.
    eexists. split; [reflexivity|]. split; [done|]. split; [apply sublist_filter|].
    intros selector alias Hin Halias. apply list_elem_of_filter in Hin as [Hkeep _].
    destruct selector; try discriminate. simpl in Halias. subst.
    simpl in Hkeep. by apply bool_decide_eq_true in Hkeep.
  - intros expression exception replacement base Hbase.
    unfold StarSelector_get_selectors in *.
    apply bind_Ok_inv in Hbase as (sels & Hsels & Hbase). rewrite Hsels. cbn [bind].
    inversion Hbase; subst.
    eexists. split; [reflexivity|]. rewrite map_map. apply map_ext.
    intros selector. destruct selector; try done.
    destruct alias as [alias|]; [|done].
    by destruct (replacement_map replacement alias).
Qed.

(** ** IF and CASE *)

Lemma slices_as_python :
  let l := [0; 1; 2; 3; 4; 5; 6] in
  py_slice_step l (Some (-2)) None (-2) = [5; 3; 1] /\
  py_slice_step l (Some (-1)) None (-2) = [6; 4; 2; 0] /\
  py_slice_step l None None 2 = [0; 2; 4; 6] /\
  py_slice_step l (Some 1) None (-2) = [1] /\
  py_slice_step ([] : list Z) (Some (-2)) None (-2) = [] /\
  py_slice_step [1] (Some 1) None (-2) = [1] /\
  py_slice_step [1] (Some (-2)) None (-2) = [].
Proof. vm_compute. repeat split. Qed.

Lemma all_bool_inv (vs : list PyValue) :
  Forall (fun v => exists b, v = PBool b) vs -> exists bs, vs = map PBool bs.
Proof.
  induction 1 as [|v vs [b ->] _ [bs ->]]; [by exists []|]. by exists (b :: bs).
Qed.

Lemma mapM_bools (bs : list bool) :
  mapM (fun v => match v with
                 | PBool b => Ok b
                 | _ => Error (Raise ValueError
                                 "Boolean array expected for the condition" [])
                 end) (map PBool bs) = Ok bs.
Proof. induction bs as [|b bs IH]; simpl; [done|]. by rewrite IH. Qed.

Lemma where_items (bs : list bool) (sit oit : list (Label * PyValue)) :
  map fst oit = map fst sit -> length bs = length sit ->
  zip_with (fun (b : bool) (so : (Label * PyValue) * (Label * PyValue)) =>
              if b then so.1 else so.2) bs (zip sit oit) =
  imap (fun k lbl =>
          (lbl, if bool_decide (cell k (map PBool bs) = PBool true)
                then cell k (map snd sit) else cell k (map snd oit)))
       (map fst sit).
Proof.
  revert sit oit. induction bs as [|b bs IH]; intros sit oit Ho Hlen.
  - destruct sit; [done|discriminate].
  - destruct sit as [|[l v] sit]; [discriminate|].
    destruct oit as [|[lo vo] oit]; [discriminate|].
    cbn [map fst] in Ho. injection Ho as -> Ho. simpl in Hlen.
    cbn [zip zip_with map fst snd imap]. f_equal.
    + unfold cell. simpl. by destruct b.
    + rewrite IH by (done || lia). apply imap_ext. intros k x _. reflexivity.
Qed.

(** [where], row by row. *)
Lemma Series_where_rows (self cond other : Series) (idx : list Label) :
  s_index self = idx -> s_index cond = idx -> s_index other = idx ->
  Forall (fun v => exists b, v = PBool b) (s_values cond) ->
  Series_where self cond other =
    Ok (mkSeries (s_name self)
          (imap (fun k lbl =>
                   (lbl, if bool_decide (cell k (s_values cond) = PBool true)
                         then cell k (s_values self) else cell k (s_values other)))
                idx)).
Proof.
  intros Hs Hc Ho Hb. unfold Series_where.
  rewrite decide_True by (split; congruence).
  rewrite bool_decide_eq_false_2.
  2:{ intros Hin. rewrite Forall_forall in Hb. destruct (Hb _ Hin) as [b Hb']. done. }
  destruct (all_bool_inv _ Hb) as [bs Hbs]. rewrite Hbs, mapM_bools. cbn [bind].
  do 2 f_equal. subst idx. unfold s_index, s_values in *.
  rewrite where_items; [done|congruence|].
  rewrite <- (length_map PBool bs), <- Hbs, length_map.
  rewrite <- (length_map fst (s_items cond)), Hc. by rewrite length_map.
Qed.

(** X9.  IF(condition, then, else) on three columns of one table, the
    condition a column of booleans: each row takes the value of [then]
    where the condition is true and the value of [else] where it is false;
    the result keeps the index, carries the name of [then], and has the
    common type of the two branches, failing when they have none.  A
    condition whose type is not BOOLEAN is a ValueError, as is a number of
    children other than three. *)
Theorem if_selects_per_row (condition then_ else_ : TypedSeries) (idx : list Label) :
  (plain_on idx condition -> plain_on idx then_ -> plain_on idx else_ ->
   boolean_column condition ->
   If_evaluate_node [condition; then_; else_] =
     (result_type <- implicitly_coerce [type_ then_; type_ else_] ;;
      Ok (mkTypedSeries
            (PlainSeries
               (mkSeries (plain_name then_)
                  (imap (fun k lbl =>
                           (lbl, if bool_decide (cell k (plain_values condition) = PBool true)
                                 then cell k (plain_values then_)
                                 else cell k (plain_values else_)))
                        idx)))
            result_type))) /\
  (is_boolean_type (type_ condition) = false ->
   If_evaluate_node [condition; then_; else_] =
     Error (Raise ValueError "IF condition isn't boolean! Found: {!r}" [])) /\
  (forall children, length children <> 3%nat ->
     exists e, If_evaluate_node children = Error e /\ exn_class e = ValueError).
Proof.
  split; [|split].
  - intros (c & Hc & Hci) (t & Ht & Hti) (e & He & Hei) [Hty Hbool].
    unfold If_evaluate_node. rewrite Hty. cbn [negb].
    destruct (implicitly_coerce [type_ then_; type_ else_]) as [ty|err]; [|done].
    cbn [bind]. rewrite Ht, Hc, He. cbn [as_series bind].
    unfold plain_values, plain_name in *. rewrite Hc in Hbool. rewrite Ht, Hc, He.
    by rewrite (Series_where_rows t c e idx).
  - intros Hty. unfold If_evaluate_node. by rewrite Hty.
  - intros children Hlen. unfold If_evaluate_node.
    destruct children as [|a [|b [|c [|d children]]]]; try done; eauto.
Qed.

Lemma seq_to_nat_pos (z : Z) : 0 < z -> exists c, seq 0 (Z.to_nat z) = 0%nat :: seq 1 c.
Proof.
  intros Hz. destruct (Z.to_nat z) as [|c] eqn:Hc; [lia|]. by exists c.
Qed.

(** X10.  The children of a CASE are its WHENs and THENs in turn and the
    ELSE last, NULL when there is none; a CASE without a WHEN is refused.
    [copy] does not rebuild the node from its children: of the new
    children it keeps the first WHEN, the first THEN and the ELSE, and
    drops every other WHEN and THEN. *)
Theorem case_copy_keeps_first_when :
  (forall comparand else_,
      Case_init comparand [] else_ =
        Error (Raise ValueError "Must provide at least one WHEN for a CASE" [])) /\
  (forall whens else_ children,
      Case_init None whens else_ = Ok children ->
      children = concat (map (fun wt : Node * Node => [wt.1; wt.2]) whens) ++
                 [default (Value PNone None) else_] /\
      length children = (2 * length whens + 1)%nat) /\
  (forall when0 then0 rest else_,
      is_EvaluatableNode when0 = true ->
      Case_copy (when0 :: then0 :: rest ++ [else_]) = Ok [when0; then0; else_]).
Proof.
  split; [done|]. split.
  - intros whens else_ children Hc. unfold Case_init in Hc.
    destruct whens as [|wt whens]; [discriminate|].
    apply bind_Ok_inv in Hc as (ch & Hch & Hc). inversion Hc; subst. clear Hc.
    assert (Hmap : ch = map (fun wt : Node * Node => [wt.1; wt.2]) (wt :: whens)).
    { revert ch Hch. generalize (wt :: whens). intros l.
      induction l as [|x l IH]; intros ch Hch; simpl in Hch; [by inversion Hch|].
      unfold Case_when in Hch at 1. destruct (is_EvaluatableNode x.1); [|discriminate].
      cbn [bind] in Hch.
      destruct (mapM (Case_when None) l) as [ys|]; [|discriminate].
      inversion Hch; subst. simpl. f_equal. by apply IH. }
    subst ch. split; [done|]. generalize (wt :: whens). intros l. clear.
    rewrite length_app. cbn [length].
    induction l as [|x l IH]; [done|]. cbn [map concat app length] in *. lia.
  - intros when0 then0 rest else_ Hw. unfold Case_copy.
    change (when0 :: then0 :: rest ++ [else_]) with ((when0 :: then0 :: rest) ++ [else_]).
    rewrite reverse_snoc, reverse_involutive.
    assert (H2 : py_slice_step (when0 :: then0 :: rest) (Some 1) None (-2) = [then0]).
    { unfold py_slice_step, slice_bound, slice_length. cbn [length].
      repeat case_decide; try lia. rewrite Z.min_l by lia. reflexivity. }
    assert (H1 : exists tl, py_slice_step (when0 :: then0 :: rest) None None 2 = when0 :: tl).
    { unfold py_slice_step, slice_length. cbn [length].
      repeat case_decide; try lia.
      destruct (seq_to_nat_pos
                  ((Z.of_nat (S (S (length rest))) - 0 - 1) / 2 + 1)) as [c ->].
      { assert (0 <= (Z.of_nat (S (S (length rest))) - 0 - 1) / 2)
          by (apply Z.div_pos; lia). lia. }
      cbn [omap]. simpl. eauto. }
    destruct H1 as [tl ->]. rewrite H2. cbn [zip zip_with].
    unfold Case_init. cbn [mapM]. unfold Case_when. cbn [fst snd]. rewrite Hw.
    by destruct tl.
Qed.

Lemma omap_ext_in {A B} (f g : A -> option B) (l : list A) :
  (forall x, x ∈ l -> f x = g x) -> omap f l = omap g l.
Proof.
  induction l as [|x l IH]; intros Hfg; [done|].
  change (omap f (x :: l)) with (match f x with Some y => y :: omap f l | None => omap f l end).
  change (omap g (x :: l)) with (match g x with Some y => y :: omap g l | None => omap g l end).
  rewrite (Hfg x) by set_solver. rewrite IH; [done|]. intros; apply Hfg; set_solver.
Qed.

Lemma omap_fmap {A B C} (f : B -> option C) (g : A -> B) (l : list A) :
  omap f (g <$> l) = omap (fun x => f (g x)) l.
Proof.
  induction l as [|x l IH]; [done|].
  change (omap f (g <$> x :: l))
    with (match f (g x) with Some y => y :: omap f (g <$> l) | None => omap f (g <$> l) end).
  by rewrite IH.
Qed.

Lemma omap_seq_S {B} (f : nat -> option B) (m : nat) :
  omap f (seq 0 (S m)) =
  match f 0%nat with Some y => [y] | None => [] end ++ omap (fun k => f (S k)) (seq 0 m).
Proof.
  cbn [seq]. rewrite <- fmap_S_seq.
  change (omap f (0%nat :: (S <$> seq 0 m)))
    with (match f 0%nat with
          | Some y => y :: omap f (S <$> seq 0 m)
          | None => omap f (S <$> seq 0 m)
          end).
  rewrite omap_fmap. by destruct (f 0%nat).
Qed.


Lemma length_flat_pairs {A} (pairs : list (A * A)) :
  length (flat_pairs pairs) = (2 * length pairs)%nat.
Proof. unfold flat_pairs. induction pairs as [|p pairs IH]; simpl in *; lia. Qed.

Lemma flat_pairs_snoc {A} (pairs : list (A * A)) a b :
  flat_pairs (pairs ++ [(a, b)]) = flat_pairs pairs ++ [a; b].
Proof. unfold flat_pairs. rewrite map_app, concat_app. simpl. done. Qed.

(** The two backward slices of [when0, then0, ..., when_n, then_n]: the
    WHENs and the THENs, last first. *)
Lemma backward_slice_formula {A} (l : list A) (m : nat) (off : Z) :
  length l = (2 * m)%nat -> off = -2 \/ off = -1 ->
  py_slice_step l (Some off) None (-2) =
  omap (fun k => l !! (2 * (m - 1 - k) + Z.to_nat (off + 2))%nat) (seq 0 m).
Proof.
  intros Hlen Hoff. unfold py_slice_step, slice_bound, slice_length. rewrite Hlen.
  repeat case_decide; try lia.
  - replace (Z.to_nat ((Z.max (off + Z.of_nat (2 * m)) (-1) - -1 - 1) / - -2 + 1)) with m.
    2:{ rewrite Z.max_l by lia. change (- -2) with 2.
        replace (off + Z.of_nat (2 * m) - -1 - 1) with (off + 2 + (Z.of_nat m - 1) * 2) by lia.
        rewrite Z.div_add by lia.
        destruct Hoff as [-> | ->];
          [change ((-2 + 2) / 2) with 0 | change ((-1 + 2) / 2) with 0]; lia. }
    apply omap_ext_in. intros k Hk. apply elem_of_seq in Hk. f_equal.
    rewrite Z.max_l by lia. destruct Hoff as [-> | ->]; simpl; lia.
  - assert (m = 0%nat) as -> by (destruct Hoff; lia). reflexivity.
Qed.

Lemma backward_slice_pairs {A} (pairs : list (A * A)) :
  py_slice_step (flat_pairs pairs) (Some (-2)) None (-2) = reverse (map fst pairs) /\
  py_slice_step (flat_pairs pairs) (Some (-1)) None (-2) = reverse (map snd pairs).
Proof.
  rewrite !(backward_slice_formula _ (length pairs)) by (rewrite ?length_flat_pairs; auto).
  change (Z.to_nat (-2 + 2)) with 0%nat. change (Z.to_nat (-1 + 2)) with 1%nat.
  induction pairs as [|[a b] pairs IH] using rev_ind; [done|].
  rewrite length_app. cbn [length]. rewrite Nat.add_1_r.
  rewrite !map_app. cbn [map fst snd]. rewrite !reverse_snoc.
  rewrite !omap_seq_S. rewrite flat_pairs_snoc.
  destruct IH as [IH1 IH2]. rewrite <- IH1, <- IH2.
  replace (2 * (S (length pairs) - 1 - 0) + 0)%nat with (length (flat_pairs pairs) + 0)%nat
    by (rewrite length_flat_pairs; lia).
  replace (2 * (S (length pairs) - 1 - 0) + 1)%nat with (length (flat_pairs pairs) + 1)%nat
    by (rewrite length_flat_pairs; lia).
  rewrite !lookup_app_r by lia.
  replace (length (flat_pairs pairs) + 0 - length (flat_pairs pairs))%nat with 0%nat by lia.
  replace (length (flat_pairs pairs) + 1 - length (flat_pairs pairs))%nat with 1%nat by lia.
  cbn [lookup list_lookup app]. split; f_equal; apply omap_ext_in; intros k Hk;
    apply elem_of_seq in Hk; rewrite lookup_app_l;
    try (rewrite length_flat_pairs; lia); f_equal; lia.
Qed.

Lemma foldl_reverse {A B} (f : B -> A -> B) (z : B) (l : list A) :
  foldl f z (reverse l) = foldr (fun x acc => f acc x) z l.
Proof.
  induction l as [|x l IH]; [done|].
  rewrite reverse_cons, foldl_app. simpl. by rewrite IH.
Qed.

Lemma Case_evaluate_node_foldr (whens : list (TypedSeries * TypedSeries))
    (else_ : TypedSeries) :
  Case_evaluate_node (flat_pairs whens ++ [else_]) =
  foldr (fun ct acc => Case_step acc ct) (Ok else_) whens.
Proof.
  unfold Case_evaluate_node. rewrite reverse_snoc, reverse_involutive.
  destruct (backward_slice_pairs whens) as [-> ->].
  rewrite <- !fmap_reverse. rewrite zip_fst_snd. apply foldl_reverse.
Qed.

Lemma index_imap {B} (g : nat -> Label -> B) (idx : list Label) :
  map fst (imap (fun k lbl => (lbl, g k lbl)) idx) = idx.
Proof.
  revert g. induction idx as [|l idx IH]; intros g; [done|].
  cbn [imap map fst]. f_equal. apply (IH (fun k => g (S k))).
Qed.

Lemma cell_imap (g : nat -> PyValue) (idx : list Label) (k : nat) :
  (k < length idx)%nat ->
  cell k (map snd (imap (fun k lbl => (lbl, g k)) idx)) = g k.
Proof.
  intros Hk. unfold cell. rewrite list_lookup_fmap, list_lookup_imap.
  destruct (lookup_lt_is_Some_2 idx k Hk) as [l ->]. done.
Qed.

Lemma items_imap (its : list (Label * PyValue)) :
  imap (fun k lbl => (lbl, cell k (map snd its))) (map fst its) = its.
Proof.
  induction its as [|[l v] its IH]; [done|].
  cbn [map fst snd imap]. f_equal. rewrite <- IH at 2.
  apply imap_ext. intros k x _. reflexivity.
Qed.

(** X11.  CASE WHEN ... THEN ... ELSE ... END on columns of one table, the
    conditions columns of booleans: each row takes the THEN of the first
    WHEN that is true for it, and the ELSE when none is.  The result keeps
    the index of the table and carries the name of the first THEN; its
    type is the common type of the branches, taken from the last WHEN
    back to the first, and the evaluation fails when a coercion does. *)
Theorem case_takes_first_true_when (whens : list (TypedSeries * TypedSeries))
    (else_ : TypedSeries) (idx : list Label) :
  Forall (fun ct => plain_on idx ct.1 /\ boolean_column ct.1 /\ plain_on idx ct.2) whens ->
  plain_on idx else_ ->
  Case_evaluate_node (concat (map (fun ct : TypedSeries * TypedSeries => [ct.1; ct.2]) whens)
                        ++ [else_]) =
    (result_type <- case_result_type (map (fun ct => type_ ct.2) whens) (type_ else_) ;;
     Ok (mkTypedSeries
           (PlainSeries
              (mkSeries (plain_name (match whens with
                                     | [] => else_
                                     | ct :: _ => ct.2
                                     end))
                 (imap (fun k lbl =>
                          (lbl, case_pick
                                  (map (fun ct => (cell k (plain_values ct.1),
                                                   cell k (plain_values ct.2))) whens)
                                  (cell k (plain_values else_))))
                       idx)))
           result_type)).
Proof.
  intros Hwhens (e & He & Hei).
  change (concat (map (fun ct : TypedSeries * TypedSeries => [ct.1; ct.2]) whens))
    with (flat_pairs whens).
  rewrite Case_evaluate_node_foldr.
  induction Hwhens as [|[c t] whens (Hc & Hbool & Ht) _ IH].
  - cbn [foldr case_result_type map bind case_pick]. f_equal.
    destruct else_ as [se te]. cbn [series type_] in *. subst se.
    unfold plain_name, plain_values. cbn [series]. do 2 f_equal.
    destruct e as [n its]. cbn [s_name s_values s_items]. f_equal.
    unfold s_index in Hei. cbn [s_items] in Hei. subst idx.
    unfold s_values. cbn [s_items]. by rewrite items_imap.
  - cbn [fst snd] in Hc, Hbool, Ht.
    cbn [foldr]. rewrite IH. clear IH.
    cbn [map case_result_type fst snd].
    destruct (case_result_type (map (fun ct => type_ ct.2) whens) (type_ else_))
      as [rty|err]; [|done].
    cbn [bind]. unfold Case_step at 1. cbn [bind fst snd type_ series].
    destruct Hbool as [Hty Hvals]. rewrite Hty. cbn [negb].
    destruct Hc as (sc & Hsc & Hci). destruct Ht as (st & Hst & Hti).
    rewrite Hst, Hsc. cbn [as_series bind].
    rewrite (Series_where_rows _ _ _ idx); [|done|done|apply index_imap|].
    2:{ unfold plain_values in Hvals. by rewrite Hsc in Hvals. }
    cbn [bind].
    destruct (implicitly_coerce [type_ t; rty]) as [ty|err]; [|done].
    cbn [bind].
    assert (Hname : plain_name t = s_name st) by (unfold plain_name; by rewrite Hst).
    rewrite Hname. do 4 f_equal.
    apply imap_ext. intros k lbl Hk. f_equal.
    apply lookup_lt_Some in Hk.
    cbn [case_pick].
    assert (Hpc : plain_values c = s_values sc) by (unfold plain_values; by rewrite Hsc).
    assert (Hpt : plain_values t = s_values st) by (unfold plain_values; by rewrite Hst).
    rewrite Hpc, Hpt.
    change (s_values (mkSeries ?n ?its)) with (map snd its).
    rewrite (cell_imap (fun k0 => case_pick
                          (map (fun ct : TypedSeries * TypedSeries =>
                                  (cell k0 (plain_values ct.1), cell k0 (plain_values ct.2)))
                               whens)
                          (cell k0 (plain_values else_))) idx k) by done.
    reflexivity.
Qed.

(** ** NOT, unary minus and null checks *)

Lemma Series_invert_bools (s : Series) :
  Forall (fun v => exists b, v = PBool b) (s_values s) ->
  Series_invert s =
    Ok (mkSeries (s_name s)
          (map (fun it : Label * PyValue =>
                  (it.1, PBool (negb (bool_decide (it.2 = PBool true))))) (s_items s))).
Proof.
  intros Hb. unfold Series_invert, s_values in *. destruct s as [n its]. cbn [s_items s_name] in *.
  induction its as [|[l v] its IH]; [done|].
  cbn [map snd] in Hb. inversion Hb as [|? ? [b ->] Hb']; subst.
  specialize (IH Hb'). cbn [mapM map fst snd].
  apply bind_Ok_inv in IH as (items & Hitems & Hok). rewrite Hitems. cbn [bind].
  inversion Hok; subst. by destruct b.
Qed.

Lemma double_negation_items (its : list (Label * PyValue)) :
  Forall (fun v => exists b, v = PBool b) (map snd its) ->
  map (fun it : Label * PyValue => (it.1, PBool (negb (bool_decide (it.2 = PBool true)))))
    (map (fun it : Label * PyValue =>
            (it.1, PBool (negb (bool_decide (it.2 = PBool true))))) its) = its.
Proof.
  induction its as [|[l v] its IH]; intros Hb; [done|].
  cbn [map snd] in Hb. inversion Hb as [|? ? [b ->] Hb']; subst.
  cbn [map]. rewrite IH by done. cbn [fst snd]. by destruct b.
Qed.

(** X12.  NOT on a column of type BOOLEAN that holds booleans: every row
    is negated, the index and the name are kept and the type is BOOLEAN,
    so that NOT applied twice gives the column back.  NOT of a table, of a
    column of another type, or of other than one child is a ValueError. *)
Theorem not_negates_each_row (ts : TypedSeries) (s : Series) :
  (series ts = PlainSeries s -> boolean_column ts ->
   exists r,
     Not_evaluate_node [EvSeries ts] = Ok r /\
     r = mkTypedSeries
           (PlainSeries
              (mkSeries (s_name s)
                 (map (fun it : Label * PyValue =>
                         (it.1, PBool (negb (bool_decide (it.2 = PBool true)))))
                      (s_items s))))
           (Some (BQScalar BOOLEAN)) /\
     Not_evaluate_node [EvSeries r] =
       Ok (mkTypedSeries (PlainSeries s) (Some (BQScalar BOOLEAN)))) /\
  (is_boolean_type (type_ ts) = false ->
   Not_evaluate_node [EvSeries ts] =
     Error (Raise ValueError "NOT accepts only booleans but was given type: {}" [])) /\
  (forall t, Not_evaluate_node [EvFrame t] =
     Error (Raise ValueError "NOT expression must evaluate to a series" [])) /\
  (forall children, length children <> 1%nat ->
     exists e, Not_evaluate_node children = Error e /\ exn_class e = ValueError).
Proof.
  split; [|split; [|split]].
  - intros Hs [Hty Hb]. unfold plain_values in Hb. rewrite Hs in Hb.
    eexists. split; [|split; [reflexivity|]].
    + unfold Not_evaluate_node. cbn [unpack_one bind]. rewrite Hty, Hs.
      cbn [negb as_series bind]. by rewrite Series_invert_bools.
    + unfold Not_evaluate_node. cbn [unpack_one bind type_ series is_boolean_type negb as_series].
      rewrite Series_invert_bools.
      * cbn [bind s_name s_items]. do 3 f_equal. destruct s as [n its].
        cbn [s_name s_items]. f_equal. by apply double_negation_items.
      * unfold s_values. cbn [s_items]. rewrite map_map. apply Forall_forall.
        intros v Hv. apply list_elem_of_fmap in Hv as (it & -> & _). eauto.
  - intros Hty. unfold Not_evaluate_node. cbn [unpack_one bind]. by rewrite Hty.
  - done.
  - intros children Hlen. unfold Not_evaluate_node.
    destruct children as [|a [|b children]]; try done; simpl; eauto.
Qed.

Lemma Series_neg_ints (s : Series) :
  Forall (fun v => exists z, v = PInt z) (s_values s) ->
  Series_neg s =
    Ok (mkSeries (s_name s)
          (map (fun it : Label * PyValue => (it.1, PInt (- int_value it.2))) (s_items s))).
Proof.
  intros Hb. unfold Series_neg, s_values in *. destruct s as [n its].
  cbn [s_items s_name] in *.
  induction its as [|[l v] its IH]; [done|].
  cbn [map snd] in Hb. inversion Hb as [|? ? [z ->] Hb']; subst.
  specialize (IH Hb'). cbn [mapM map fst snd].
  apply bind_Ok_inv in IH as (items & Hitems & Hok). rewrite Hitems. cbn [bind].
  by inversion Hok; subst.
Qed.

Lemma double_negative_items (its : list (Label * PyValue)) :
  Forall (fun v => exists z, v = PInt z) (map snd its) ->
  map (fun it : Label * PyValue => (it.1, PInt (- int_value it.2)))
    (map (fun it : Label * PyValue => (it.1, PInt (- int_value it.2))) its) = its.
Proof.
  induction its as [|[l v] its IH]; intros Hb; [done|].
  cbn [map snd] in Hb. inversion Hb as [|? ? [z ->] Hb']; subst.
  cbn [map]. rewrite IH by done. cbn [fst snd int_value]. by rewrite Z.opp_involutive.
Qed.


(** X14.  IS NULL and IS NOT NULL.  A null check is built for these two
    directions only, and [copy] keeps the direction.  On any column both
    checks succeed with a column of type BOOLEAN on the same index and
    under the same name; the two answers are opposite on every row, true
    for IS NULL exactly on the null rows; and NOT of the one check is the
    other. *)
Theorem null_checks_are_complementary :
  (forall expression direction,
      NullCheck_init expression direction =
        if decide (direction = "IS_NULL") then Ok ([expression], true)
        else if decide (direction = "IS_NOT_NULL") then Ok ([expression], false)
        else Error (Raise ValueError
                      "Invalid direction for NullCheck, not IS_NULL or IS_NOT_NULL: {}"
                      [FStr direction])) /\
  (forall (direction : bool) expression rest,
      NullCheck_copy direction (expression :: rest) = Ok ([expression], direction)) /\
  (forall (ts : TypedSeries) (s : Series) rest,
      series ts = PlainSeries s ->
      exists is_null_ is_not_null_,
        NullCheck_evaluate_node true (EvSeries ts :: rest) =
          Ok (mkTypedSeries (PlainSeries (mkSeries (s_name s) is_null_))
                (Some (BQScalar BOOLEAN))) /\
        NullCheck_evaluate_node false (EvSeries ts :: rest) =
          Ok (mkTypedSeries (PlainSeries (mkSeries (s_name s) is_not_null_))
                (Some (BQScalar BOOLEAN))) /\
        map fst is_null_ = s_index s /\ map fst is_not_null_ = s_index s /\
        (forall k v, s_values s !! k = Some v ->
           map snd is_null_ !! k = Some (PBool (bool_decide (v = PNone))) /\
           map snd is_not_null_ !! k = Some (PBool (negb (bool_decide (v = PNone))))) /\
        Not_evaluate_node
          [EvSeries (mkTypedSeries (PlainSeries (mkSeries (s_name s) is_null_))
                       (Some (BQScalar BOOLEAN)))] =
          Ok (mkTypedSeries (PlainSeries (mkSeries (s_name s) is_not_null_))
                (Some (BQScalar BOOLEAN)))).
Proof.
  split; [done|]. split.
  - intros direction expression rest. unfold NullCheck_copy.
    assert (Hidx : py_index (expression :: rest) 0 = Some expression).
    { unfold py_index. rewrite decide_True; [done|]. simpl length. lia. }
    rewrite Hidx. cbn [of_option bind]. by destruct direction.
  - intros ts s rest Hs.
    assert (Hidx : py_index (EvSeries ts :: rest) 0 = Some (EvSeries ts)).
    { unfold py_index. rewrite decide_True; [done|]. simpl length. lia. }
    eexists _, _. unfold NullCheck_evaluate_node. rewrite Hidx. cbn [of_option bind].
    rewrite Hs. cbn [as_series bind].
    split; [reflexivity|]. split; [reflexivity|].
    split; [by rewrite map_map|]. split; [by rewrite map_map|]. split.
    + intros k v Hv. unfold s_values in Hv. rewrite list_lookup_fmap in Hv.
      rewrite !map_map, !list_lookup_fmap.
      destruct (s_items s !! k) as [[l w]|]; [|done]. simpl in Hv. inversion Hv; subst.
      cbn [fmap option_fmap option_map snd]. by destruct v.
    + unfold Not_evaluate_node.
      cbn [unpack_one bind type_ series is_boolean_type negb as_series].
      rewrite Series_invert_bools.
      * cbn [s_name s_items bind]. rewrite map_map. do 4 f_equal. apply map_ext.
        intros [l v]. cbn [fst snd]. by destruct v.
      * unfold s_values. cbn [s_items]. rewrite map_map. apply Forall_forall.
        intros v Hv. apply list_elem_of_fmap in Hv as (it & -> & _). eauto.
Qed.

(** ** Aggregates *)

Lemma foldr_max_spec (a : Z) (l : list Z) :
  let m := foldr Z.max a l in
  m ∈ a :: l /\ forall x, x ∈ a :: l -> x <= m.
Proof.
  induction l as [|y l [Hin Hle]]; simpl.
  - split; [left|]. intros x Hx. apply list_elem_of_singleton in Hx. lia.
  - split.
    + destruct (Z.max_spec y (foldr Z.max a l)) as [[_ ->]|[_ ->]].
      * apply elem_of_cons in Hin as [->|Hin]; [left|right; by right].
      * right; left.
    + intros x Hx. apply elem_of_cons in Hx as [->|Hx].
      * specialize (Hle a ltac:(left)). lia.
      * apply elem_of_cons in Hx as [->|Hx]; [lia|].
        specialize (Hle x ltac:(by right)). lia.
Qed.

Lemma foldr_min_spec (a : Z) (l : list Z) :
  let m := foldr Z.min a l in
  m ∈ a :: l /\ forall x, x ∈ a :: l -> m <= x.
Proof.
  induction l as [|y l [Hin Hle]]; simpl.
  - split; [left|]. intros x Hx. apply list_elem_of_singleton in Hx. lia.
  - split.
    + destruct (Z.min_spec y (foldr Z.min a l)) as [[_ ->]|[_ ->]].
      * right; left.
      * apply elem_of_cons in Hin as [->|Hin]; [left|right; by right].
    + intros x Hx. apply elem_of_cons in Hx as [->|Hx].
      * specialize (Hle a ltac:(left)). lia.
      * apply elem_of_cons in Hx as [->|Hx]; [lia|].
        specialize (Hle x ltac:(by right)). lia.
Qed.


(** ** Evaluation in a grouped table *)

Lemma mapM_key_label (ks : list (list PyValue)) (idx : list Label) :
  mapM key_label ks = Ok idx -> ks = map (fun l => [l]) idx.
Proof.
  revert idx. induction ks as [|k ks IH]; intros idx Hm; simpl in Hm.
  - by inversion Hm.
  - destruct k as [|v [|? ?]]; try discriminate. cbn [key_label bind] in Hm.
    destruct (mapM key_label ks) as [idx'|]; [|discriminate].
    inversion Hm; subst. simpl. f_equal. by apply IH.
Qed.

Lemma mapM_labelled {B} (f : list PyValue -> result B) (ks : list (list PyValue))
    (items : list (Label * B)) :
  mapM (fun k => lbl <- key_label k ;; v <- f k ;; Ok (lbl, v)) ks = Ok items ->
  mapM key_label ks = Ok (map fst items).
Proof.
  revert items. induction ks as [|k ks IH]; intros items Hm; simpl in Hm.
  - by inversion Hm.
  - destruct (key_label k) as [lbl|] eqn:Hk; [|discriminate]. cbn [bind] in Hm.
    destruct (f k) as [v|]; [|discriminate]. cbn [bind] in Hm.
    destruct (mapM _ ks) as [its|] eqn:Hits; [|discriminate].
    inversion Hm; subst. simpl. rewrite Hk. cbn [bind]. by rewrite (IH its).
Qed.

Lemma elem_of_distinct_keys (keys : list (list PyValue)) (k : list PyValue) :
  k ∈ distinct_keys keys <-> k ∈ keys /\ PNone ∉ k.
Proof.
  unfold distinct_keys. rewrite stable_sort_Permutation.
  rewrite elem_of_remove_dups, list_elem_of_filter. tauto.
Qed.

Lemma NoDup_distinct_keys (keys : list (list PyValue)) : NoDup (distinct_keys keys).
Proof.
  unfold distinct_keys. rewrite stable_sort_Permutation. apply NoDup_remove_dups.
Qed.

Lemma length_distinct_keys (keys : list (list PyValue)) :
  (length (distinct_keys keys) <= length keys)%nat.
Proof.
  unfold distinct_keys. rewrite stable_sort_Permutation.
  etransitivity; [apply length_remove_dups_le|]. apply length_filter.
Qed.

(** X16.  In a table grouped by one column, an aggregate and a literal
    are both evaluated to one row for each group, under one and the same
    index, so that they can be combined row by row.  The index holds the
    keys of the rows that are not null, each once; the rows with a null
    key belong to no group. *)
Theorem groups_share_one_index (df : DataFrame) (by_ : list string) (name : string)
    (tys : list (option BQType)) (f : Function) (g : SeriesGroupBy)
    (aggregate : Series) (value : PyValue) (type_ : option BQScalarType)
    (literal : TypedSeries) :
  grouped_column df by_ name = Ok g ->
  AggregatingFunctionCall_evaluate_in_group_by f g = Ok aggregate ->
  Value_evaluate_leaf_node value type_ (mkTypedDataFrame (FrameGroupBy df by_) tys)
    = Ok literal ->
  (exists s, series literal = PlainSeries s /\
             s_index s = s_index aggregate /\
             Forall (fun v => v = value) (s_values s)) /\
  NoDup (s_index aggregate) /\
  (length (s_index aggregate) <= length (rows df))%nat /\
  (forall lbl, lbl ∈ s_index aggregate <-> lbl <> PNone /\ [lbl] ∈ sg_keys g).
Proof.
  intros Hg Hagg Hlit.
  unfold grouped_column in Hg.
  apply bind_Ok_inv in Hg as (positions & Hpos & Hg).
  apply bind_Ok_inv in Hg as (s0 & Hs0 & Hg). inversion Hg; subst g. clear Hg.
  unfold AggregatingFunctionCall_evaluate_in_group_by in Hagg. cbn [sg_keys] in Hagg.
  apply bind_Ok_inv in Hagg as (items & Hitems & Hagg). inversion Hagg; subst aggregate.
  clear Hagg. apply mapM_labelled in Hitems.
  unfold Value_evaluate_leaf_node in Hlit. cbn [dataframe get_index] in Hlit.
  rewrite Hpos in Hlit. cbn [bind] in Hlit. unfold row_keys in Hlit.
  rewrite Hitems in Hlit. cbn [bind] in Hlit. inversion Hlit; subst literal. clear Hlit.
  unfold s_index. cbn [s_items sg_keys series].
  pose proof (mapM_key_label _ _ Hitems) as Hkeys.
  split; [|split; [|split]].
  - eexists. split; [reflexivity|]. cbn [s_items]. split.
    + rewrite map_map. cbn [fst]. apply map_id.
    + unfold s_values. cbn [s_items]. rewrite map_map. cbn [snd].
      apply Forall_forall. intros v Hv. by apply list_elem_of_fmap in Hv as (? & -> & _).
  - pose proof (NoDup_distinct_keys
                  (map (fun r : Label * list PyValue => map (fun i => cell i r.2) positions)
                       (rows df))) as Hnd.
    rewrite Hkeys in Hnd. by apply NoDup_fmap_1 in Hnd.
  - pose proof (length_distinct_keys
                  (map (fun r : Label * list PyValue => map (fun i => cell i r.2) positions)
                       (rows df))) as Hlen.
    rewrite Hkeys in Hlen. rewrite !length_map in Hlen. by rewrite length_map.
  - intros lbl.
    pose proof (elem_of_distinct_keys
                  (map (fun r : Label * list PyValue => map (fun i => cell i r.2) positions)
                       (rows df)) [lbl]) as Hin.
    rewrite Hkeys in Hin. rewrite (list_elem_of_fmap_inj (fun l => [l])) in Hin.
    rewrite Hin. rewrite list_elem_of_singleton. split; intros [H1 H2]; split; done.
Qed.

(** ** IN, EXTRACT and selectors *)

Lemma py_index_head {A} (x : A) (l : list A) : py_index (x :: l) 0 = Some x.
Proof. unfold py_index. rewrite decide_True; [done|]. simpl length. lia. Qed.

Lemma py_slice_tail {A} (x : A) (l : list A) :
  py_slice (x :: l) 1 (Z.of_nat (length (x :: l))) = l.
Proof.
  unfold py_slice, py_clamp. rewrite !decide_False by lia. cbn [length].
  rewrite Z.min_id. rewrite Z.min_l by lia.
  change (Z.to_nat 1) with 1%nat. rewrite skipn_cons, drop_0.
  rewrite take_ge; [done|]. lia.
Qed.

Lemma replicate_as_map {A} (n : nat) (x : A) : replicate n x = map (fun _ => x) (seq 0 n).
Proof.
  generalize 0%nat. induction n as [|n IH]; intros a; [done|]. simpl. f_equal. apply IH.
Qed.

Lemma or_equal_rows (a : nat -> bool) (xs ys : list PyValue) (n : nat) :
  length xs = n -> length ys = n ->
  zip_with orb (map a (seq 0 n)) (zip_with cell_eq xs ys) =
  map (fun k => a k || cell_eq (cell k xs) (cell k ys)) (seq 0 n).
Proof.
  intros Hx Hy. apply list_eq. intros k.
  rewrite lookup_zip_with, !list_lookup_fmap, lookup_zip_with.
  destruct (decide (k < n)%nat) as [Hk|Hk].
  - rewrite lookup_seq_lt by done.
    destruct (lookup_lt_is_Some_2 xs k ltac:(lia)) as [x Hxk].
    destruct (lookup_lt_is_Some_2 ys k ltac:(lia)) as [y Hyk].
    unfold cell. simpl. rewrite !Hxk, !Hyk. reflexivity.
  - rewrite lookup_seq_ge by lia. reflexivity.
Qed.

Lemma in_check_fold (expression : Series) (elements : list TypedSeries) (a : nat -> bool) :
  s_index expression = range_index (length (s_items expression)) ->
  Forall (plain_on (s_index expression)) elements ->
  foldl (fun (contained : result (list bool)) (element_value : TypedSeries) =>
           contained <- contained ;;
           element <- as_series (series element_value) ;;
           equal <- Series_eq expression element ;;
           if decide (s_index expression = range_index (length (s_items expression)))
           then Ok (zip_with orb contained equal)
           else Error (Raise OutsideModel "| of columns with different indexes" []))
        (Ok (map a (seq 0 (length (s_items expression))))) elements =
  Ok (map (fun k => a k || existsb (fun e => cell_eq (cell k (s_values expression))
                                                  (cell k (plain_values e))) elements)
          (seq 0 (length (s_items expression)))).
Proof.
  intros Hidx Hall. revert a. induction Hall as [|e elements (s & Hs & Hsi) _ IH]; intros a.
  - cbn [foldl existsb]. f_equal. apply map_ext. intros k. by rewrite orb_false_r.
  - cbn [foldl bind]. rewrite Hs. cbn [as_series bind].
    unfold Series_eq. rewrite decide_True by done. cbn [bind].
    rewrite decide_True by done.
    rewrite or_equal_rows.
    + rewrite IH. f_equal. apply map_ext. intros k. cbn [existsb].
      unfold plain_values at 2. rewrite Hs. by rewrite orb_assoc.
    + unfold s_values. by rewrite length_map.
    + unfold s_values. rewrite length_map.
      rewrite <- (length_map fst (s_items s)). fold (s_index s). rewrite Hsi.
      unfold s_index. by rewrite length_map.
Qed.

(** X17.  IN and NOT IN.  The check is built for these two directions
    only, and [copy] on children rebuilds the node with these children and
    the same direction.  Evaluated on columns that carry the default
    index, IN is true on a row exactly when the value of the expression
    equals the value of one of the elements there, a null equalling
    nothing; NOT IN is the opposite on every row; so with no element IN is
    false and NOT IN true everywhere.  The result is a BOOLEAN column
    without a name on the default index. *)
Theorem in_check_rows :
  (forall expression direction elements,
      InCheck_init expression direction elements =
        if decide (direction = "IN") then Ok (expression :: elements, true)
        else if decide (direction = "NOT_IN") then Ok (expression :: elements, false)
        else Error (Raise ValueError "Invalid direction for InCheck, not IN or NOT_IN: {}"
                      [FStr direction])) /\
  (forall (direction : bool) expression elements,
      InCheck_copy direction (expression :: elements) = Ok (expression :: elements, direction)) /\
  (forall (direction : bool) (expression_value : TypedSeries) (expression : Series)
          (element_values : list TypedSeries),
      series expression_value = PlainSeries expression ->
      s_index expression = range_index (length (s_items expression)) ->
      Forall (plain_on (s_index expression)) element_values ->
      InCheck_evaluate_node direction (expression_value :: element_values) =
        Ok (mkTypedSeries
              (PlainSeries
                 (mkSeries None
                    (zip (s_index expression)
                         (map (fun k =>
                                 let found :=
                                   existsb (fun e => cell_eq (cell k (s_values expression))
                                                             (cell k (plain_values e)))
                                           element_values in
                                 PBool (if direction then found else negb found))
                              (seq 0 (length (s_items expression)))))))
              (Some (BQScalar BOOLEAN)))).
Proof.
  split; [done|]. split.
  - intros direction expression elements. unfold InCheck_copy.
    rewrite py_index_head. cbn [of_option bind]. rewrite py_slice_tail.
    by destruct direction.
  - intros direction expression_value expression element_values Hs Hidx Hall.
    unfold InCheck_evaluate_node. rewrite Hs. cbn [as_series bind].
    rewrite replicate_as_map. rewrite (in_check_fold expression element_values) by done.
    cbn [bind]. rewrite <- Hidx. rewrite map_map. do 5 f_equal.
Qed.

(** X18.  EXTRACT names its date part without regard to case: the part is
    kept in upper case and must be one of the listed parts, a ValueError
    otherwise.  WEEK(<weekday>) is accepted for each of the seven weekdays
    when the node is built, and its evaluation raises NotImplementedError
    whatever the column. *)
Theorem extract_parts (part : string) (date_expression : Node) :
  Extract_init part date_expression = Extract_init (str_upper part) date_expression /\
  (str_upper part ∈ valid_parts ->
   Extract_init part date_expression = Ok (str_upper part, [date_expression])) /\
  (str_upper part ∉ valid_parts ->
   Extract_init part date_expression =
     Error (Raise ValueError "Not a valid date part to retrieve: {}" [FStr (str_upper part)])) /\
  (forall day child rest,
      day ∈ weekdays ->
      let week := "WEEK(" +:+ day +:+ ")" in
      Extract_init week date_expression = Ok (week, [date_expression]) /\
      Extract_evaluate_node week (child :: rest) =
        Error (Raise NotImplementedError "{} not implemented" [FStr week])).
Proof.
  split; [|split; [|split]].
  - unfold Extract_init. by rewrite str_upper_idem.
  - intros Hin. unfold Extract_init. by rewrite decide_True by done.
  - intros Hin. unfold Extract_init. by rewrite decide_False by done.
  - intros day child rest Hday week. unfold week.
    unfold weekdays in Hday.
    repeat (apply elem_of_cons in Hday as [->|Hday]; [split; vm_compute; reflexivity|]).
    by apply elem_of_nil in Hday.
Qed.

(** X19.  A selector and its name.  [copy] onto a new child gives a
    selector that has the name of the original as its alias and no
    position, so that it answers [name()] with the same name without
    being numbered again.  The evaluation of a selector is the evaluation
    of its child, with the same rows and the same type, under the name of
    the selector.  [mark_grouped_by] wraps the selector when its name is a
    grouping path and otherwise returns a selector of the same name on the
    marked child. *)
Theorem selector_copy_keeps_name (child : Node) (alias : option string) (position : option Z)
    (name : string) :
  Selector_name child alias position = Ok name ->
  (forall new_child rest,
      Selector_copy child alias position (new_child :: rest) =
        Ok (Selector new_child (Some name) None) /\
      Selector_name new_child (Some name) None = Ok name) /\
  (forall (evaluated : TypedSeries) (s : Series),
      series evaluated = PlainSeries s ->
      Selector_evaluate_node child alias position [evaluated] =
        Ok (mkTypedSeries (PlainSeries (mkSeries (Some name) (s_items s)))
              (type_ evaluated))) /\
  (forall group_by_paths context path,
      get_canonical_path context [name] = Ok path ->
      (path ∈ group_by_paths ->
       Selector_mark_grouped_by child alias position group_by_paths context =
         Ok (GroupedBy (Selector child alias position))) /\
      (path ∉ group_by_paths ->
       forall marked,
         mark_grouped_by child group_by_paths context = Ok marked ->
         Selector_mark_grouped_by child alias position group_by_paths context =
           Ok (Selector marked (Some name) None))).
Proof.
  intros Hname. split; [|split].
  - intros new_child rest. unfold Selector_copy. rewrite py_index_head.
    cbn [of_option bind]. rewrite Hname. done.
  - intros evaluated s Hs. unfold Selector_evaluate_node. cbn [unpack_one bind].
    rewrite Hname. cbn [bind]. by rewrite Hs.
  - intros group_by_paths context path Hpath. unfold Selector_mark_grouped_by.
    rewrite Hname. cbn [bind]. rewrite Hpath. cbn [bind]. split.
    + intros Hin. by rewrite decide_True by done.
    + intros Hin marked Hmarked. rewrite decide_False by done.
      rewrite Hmarked. cbn [bind]. unfold Selector_copy. rewrite py_index_head.
      cbn [of_option bind]. by rewrite Hname.
Qed.

End MoreProperties.

(* ===================================================================== *)
(** * Worked examples *)
(* ===================================================================== *)

(** The examples run against the instance [demo] of the interface. *)
#[local] Existing Instance demo.

(** The stable sort of the examples keeps the promise of [nargsort]. *)
Lemma fst_imap_pair {A} (l : list A) a :
  map fst (imap (fun i x => ((a + i)%nat, x)) l) = seq a (length l).
Proof.
  revert a. induction l as [|x l IH]; intros a; [done|].
  cbn [imap map fst length seq]. rewrite Nat.add_0_r. f_equal.
  rewrite <- (IH (S a)). f_equal. apply imap_ext. intros i y _. simpl. f_equal. lia.
Qed.

Lemma imap_pair_cell (keys : list PyValue) (p : nat * PyValue) :
  p ∈ imap pair keys -> cell p.1 keys = p.2.
Proof.
  intros Hin. apply elem_of_lookup_imap in Hin as (i & x & -> & Hx).
  unfold cell. simpl. by rewrite Hx.
Qed.

Lemma Sorted_map_fst_cells (asc : bool) (keys : list PyValue) (l : list (nat * PyValue)) :
  Forall (fun p => cell p.1 keys = p.2) l ->
  Sorted (fun a b => key_leb asc a.2 b.2 = true) l ->
  Sorted (fun i j => key_leb asc (cell i keys) (cell j keys) = true) (map fst l).
Proof.
  intros Hall Hs. induction Hs as [|p l Hs IH Hhd]; simpl; [constructor|].
  inversion Hall as [|? ? Hp Hl]; subst. constructor; [by apply IH|].
  destruct Hhd as [|q l Hpq]; simpl; constructor.
  inversion Hl as [|? ? Hq _]; subst. by rewrite Hp, Hq.
Qed.

Lemma demo_nargsort_contract : @nargsort_contract demo.
Proof.
  intros keys asc _. cbn [nargsort demo]. unfold demo_nargsort. split.
  - rewrite stable_sort_Permutation.
    exact (reflexive_eq _ _ (fst_imap_pair keys 0)).
  - apply Sorted_map_fst_cells.
    + apply Forall_forall. intros p Hp. rewrite stable_sort_Permutation in Hp.
      by apply imap_pair_cell.
    + apply stable_sort_Sorted. intros a b. apply key_leb_total.
Qed.

Lemma reversing_nargsort_contract : @nargsort_contract demo_reversing.
Proof.
  intros keys asc _. cbn [nargsort demo_reversing]. unfold reversing_nargsort. split.
  - rewrite stable_sort_Permutation, reverse_Permutation.
    exact (reflexive_eq _ _ (fst_imap_pair keys 0)).
  - apply Sorted_map_fst_cells.
    + apply Forall_forall. intros p Hp.
      rewrite stable_sort_Permutation, reverse_Permutation in Hp.
      by apply imap_pair_cell.
    + apply stable_sort_Sorted. intros a b. apply key_leb_total.
Qed.

(** With one sort key the order of the rows with equal keys is the
    sorter's: both sorters keep the promise of [nargsort], and
    SELECT * FROM my_table ORDER BY a leaves the two rows with a = 1 as they
    were with the one, exchanged with the other. *)
Lemma one_key_order_is_the_sorters :
  @nargsort_contract demo /\ @nargsort_contract demo_reversing /\
  rows_of (@get_dataframe demo
             (@QueryExpression demo None (@TableReference demo my_table)
                (Some [(Field ["a"], None)]) None)
             (catalog (int_table ["a"; "b"] [[1; 10]; [1; 20]]))).1 =
    Some [[PInt 1; PInt 10]; [PInt 1; PInt 20]] /\
  rows_of (@get_dataframe demo_reversing
             (@QueryExpression demo_reversing None (@TableReference demo_reversing my_table)
                (Some [(Field ["a"], None)]) None)
             (catalog (int_table ["a"; "b"] [[1; 10]; [1; 20]]))).1 =
    Some [[PInt 1; PInt 20]; [PInt 1; PInt 10]].
Proof.
  split; [apply demo_nargsort_contract|].
  split; [apply reversing_nargsort_contract|].
  split; vm_compute; reflexivity.
Qed.

(** ** Not-implemented errors *)



(** ** Evaluation and the state of the nodes *)



(** ** UNION ALL *)

(** Two sides of one integer column each, called [a] on the left and [b]
    on the right: the result has two columns, and its rows are not the left
    rows followed by the right rows.  Two sides of one column [a] each, of
    integers on the left and of strings on the right: the outcome is a
    coercion error, not a table. *)
Lemma union_all_rows_counterexample :
  let l := int_table ["a"] [[1]] in
  let r := int_table ["b"] [[3]] in
  let s := string_table ["a"] [["foo"]] in
  (get_dataframe (TableReference left_table) (two_tables l r)).1 = Ok (l, Some "left") /\
  (get_dataframe (TableReference right_table) (two_tables l r)).1 = Ok (r, Some "right") /\
  length (types l) = length (types r) /\
  rows_of (get_dataframe
             (SetOperation (TableReference left_table) "UNION_ALL"
                           (TableReference right_table))
             (two_tables l r)).1 = Some [[PInt 1; PNone]; [PNone; PInt 3]] /\
  [[PInt 1; PNone]; [PNone; PInt 3]] <> [[PInt 1]] ++ [[PInt 3]] /\
  length (types l) = length (types s) /\
  (get_dataframe
     (SetOperation (TableReference left_table) "UNION_ALL" (TableReference right_table))
     (two_tables l s)).1 =
    Error (Raise ValueError "Cannot implicitly coerce the given types: {}" []).
Proof.
  cbv zeta. repeat split; try (vm_compute; reflexivity). discriminate.
Qed.

(** Two sides with the column [a]: rows 1, 2 on the left, 3 on the
    right. *)
Lemma union_all_get_dataframe_witness :
  let l := int_table ["a"] [[1]; [2]] in
  let r := int_table ["a"] [[3]] in
  (get_dataframe
     (SetOperation (TableReference left_table) "UNION_ALL" (TableReference right_table))
     (two_tables l r)).1 =
    Ok (mkTypedDataFrame
          (Frame (mkDataFrame ["a"]
                    [(PInt 0, [PInt 1]); (PInt 1, [PInt 2]); (PInt 0, [PInt 3])]))
          [Some (BQScalar INTEGER)], None).
Proof.
  cbv zeta.
  destruct (union_all_get_dataframe (TableReference left_table) (TableReference right_table)
              (two_tables (int_table ["a"] [[1]; [2]]) (int_table ["a"] [[3]])))
    as [_ H].
  destruct (H (int_table ["a"] [[1]; [2]]) (Some "left") (TableReference left_table)
              (int_table ["a"] [[3]]) (Some "right") (TableReference right_table)
              ltac:(vm_compute; reflexivity) ltac:(vm_compute; reflexivity))
    as [_ H2].
  destruct (H2 eq_refl) as [_ H3].
  destruct (H3 [Some (BQScalar INTEGER)]
               (mkDataFrame ["a"] [(PInt 0, [PInt 1]); (PInt 1, [PInt 2])])
               (mkDataFrame ["a"] [(PInt 0, [PInt 3])])
               ltac:(vm_compute; reflexivity) eq_refl eq_refl eq_refl)
    as [H4 _].
  exact H4.
Defined.


(** ** WHERE *)

(** SELECT a FROM my_table WHERE TRUE, and the same with WHERE FALSE. *)
Lemma where_true_and_where_false_witness :
  let s c := @mkSelect demo None [Selector (Field ["a"]) None (Some 1)] (Some my_table)
               (Some (Value (PBool c) (Some BOOLEAN))) None None in
  let datasets := catalog (int_table ["a"; "b"] [[1; 2]; [3; 4]]) in
  (Select_get_dataframe (s true) datasets None).1 =
    (Select_get_dataframe (set_where (s true) None) datasets None).1 /\
  rows_of (Select_get_dataframe (s true) datasets None).1 = Some [[PInt 1]; [PInt 3]] /\
  exists ctx,
    Select_context (s false) datasets None = Ok ctx /\
    dataframe (table ctx) = Frame (mkDataFrame ["a"; "b"] []) /\
    types (table ctx) = [Some (BQScalar INTEGER); Some (BQScalar INTEGER)].
Proof.
  cbv zeta. split; [|split; [vm_compute; reflexivity|]].
  - eapply (where_true_and_where_false
              (@mkSelect demo None [Selector (Field ["a"]) None (Some 1)] (Some my_table)
                 (Some (Value (PBool true) (Some BOOLEAN))) None None));
      [reflexivity | vm_compute; reflexivity | reflexivity | vm_compute; reflexivity
      | reflexivity | reflexivity | repeat constructor].
  - eexists. split.
    + eapply (where_true_and_where_false
                (@mkSelect demo None [Selector (Field ["a"]) None (Some 1)] (Some my_table)
                   (Some (Value (PBool false) (Some BOOLEAN))) None None));
        [reflexivity | vm_compute; reflexivity | reflexivity | vm_compute; reflexivity
        | reflexivity | reflexivity | repeat constructor].
    + split; reflexivity.
Defined.

(** SELECT SUM(a) FROM my_table WHERE FALSE: the condition is false on
    each of the three rows, and the result has one row, holding the sum
    of no values. *)
Lemma where_false_counterexample :
  let s := @mkSelect demo None
             [Selector (AggregatingFunctionCall Sum [Field ["a"]]) None (Some 1)]
             (Some my_table) (Some (Value (PBool false) (Some BOOLEAN))) None None in
  let datasets := catalog (int_table ["a"] [[1]; [2]; [3]]) in
  (exists ctx,
      Select_context (set_where s None) datasets None = Ok ctx /\
      evaluate (Value (PBool false) (Some BOOLEAN)) ctx =
        Ok (EvSeries (mkTypedSeries
                        (PlainSeries (mkSeries None [(PInt 0, PBool false);
                                                     (PInt 1, PBool false);
                                                     (PInt 2, PBool false)]))
                        (Some (BQScalar BOOLEAN))))) /\
  rows_of (Select_get_dataframe s datasets None).1 = Some [[PInt 0]] /\
  rows_of (Select_get_dataframe (set_where s None) datasets None).1 = Some [[PInt 6]].
Proof.
  cbv zeta. split; [|split; vm_compute; reflexivity].
  eexists. split; vm_compute; reflexivity.
Qed.

(** ** HAVING *)

(** SELECT b FROM my_table GROUP BY b HAVING SUM(a) > 4, on the table of
    [test_select_having]: the groups 1, 3 and 5 have the sums -98, 7 and 4,
    and the one row kept is that of group 3, with the column [b] alone. *)
Lemma having_filters_grouped_result_witness :
  exists final,
    (Select_get_dataframe
       (@mkSelect demo None [Selector (Field ["b"]) None (Some 1)] (Some my_table) None
          (Some [Field ["b"]])
          (Some (BinaryExpression (AggregatingFunctionCall Sum [Field ["a"]]) ">"
                                  (Value (PInt 4) (Some INTEGER)))))
       (catalog (int_table ["a"; "b"] [[1; 3]; [6; 3]; [4; 5]; [-100; 1]; [2; 1]]))
       None).1 =
      Ok (mkTypedDataFrame (Frame final) [Some (BQScalar INTEGER)], None) /\
    columns final = ["b"] /\
    rows final = keep_where [false; true; false]
                   [(PInt 1, [PInt 1]); (PInt 3, [PInt 3]); (PInt 5, [PInt 5])] /\
    to_list_of_lists final = [[PInt 3]].
Proof.
  edestruct (having_filters_grouped_result
               (@mkSelect demo None [Selector (Field ["b"]) None (Some 1)] (Some my_table) None
                  (Some [Field ["b"]])
                  (Some (BinaryExpression (AggregatingFunctionCall Sum [Field ["a"]]) ">"
                                          (Value (PInt 4) (Some INTEGER)))))
               (catalog (int_table ["a"; "b"] [[1; 3]; [6; 3]; [4; 5]; [-100; 1]; [2; 1]]))
               None)
    as (final & Hfinal & Hcols & Hrows & _ & _);
    [discriminate | vm_compute; reflexivity | reflexivity | vm_compute; reflexivity
    | vm_compute; reflexivity | reflexivity | reflexivity | vm_compute; reflexivity
    | vm_compute; reflexivity | vm_compute; reflexivity | vm_compute; reflexivity
    | reflexivity | reflexivity | vm_compute; reflexivity |].
  exists final. split; [exact Hfinal|]. split; [exact Hcols|]. split; [exact Hrows|].
  unfold to_list_of_lists. rewrite Hrows. reflexivity.
Defined.

(** ** Fields that are neither aggregated nor grouped by *)

(** The field [a] evaluated against a table grouped by [b] is reported;
    so it is for SELECT a, b FROM my_table GROUP BY b.  The fields [a]
    and [b] evaluated against an ungrouped table come side by side. *)
Lemma ungrouped_field_is_an_error_witness :
  evaluate_fields_as_dataframe
    [Selector (Field ["a"]) None (Some 1)]
    (set_table (demo_init ∅)
       (mkTypedDataFrame
          (FrameGroupBy (mkDataFrame ["a"; "b"] [(PInt 0, [PInt 1; PInt 3]);
                                                 (PInt 1, [PInt 6; PInt 3])]) ["b"])
          [Some (BQScalar INTEGER); Some (BQScalar INTEGER)])) =
    Error (Raise ValueError
             "selecting expression {} that is not aggregated or grouped by"
             [FNode (Selector (Field ["a"]) None (Some 1))]) /\
  (Select_get_dataframe
     (@mkSelect demo None [Selector (Field ["a"]) None (Some 1);
                           Selector (Field ["b"]) None (Some 2)]
        (Some my_table) None (Some [Field ["b"]]) None)
     (catalog (int_table ["a"; "b"] [[1; 3]; [6; 3]; [4; 5]])) None).1 =
    Error (Raise ValueError
             "selecting expression {} that is not aggregated or grouped by"
             [FNode (Selector (Field ["a"]) (Some "a") None)]) /\
  exists df,
    evaluate_fields_as_dataframe
      [Selector (Field ["a"]) None (Some 1); Selector (Field ["b"]) None (Some 2)]
      (set_table (demo_init ∅) (int_table ["a"; "b"] [[1; 3]; [6; 3]])) =
      Ok (mkTypedDataFrame (Frame df) [Some (BQScalar INTEGER); Some (BQScalar INTEGER)]) /\
    columns df = ["a"; "b"] /\
    index df = [PInt 0; PInt 1] /\
    to_list_of_lists df !! 1%nat = Some [PInt 6; PInt 3].
Proof.
  split; [|split; [vm_compute; reflexivity|]].
  - edestruct (@ungrouped_field_is_an_error demo
                 [Selector (Field ["a"]) None (Some 1)]
                 (set_table (demo_init ∅)
                    (mkTypedDataFrame
                       (FrameGroupBy (mkDataFrame ["a"; "b"] [(PInt 0, [PInt 1; PInt 3]);
                                                              (PInt 1, [PInt 6; PInt 3])])
                                     ["b"])
                       [Some (BQScalar INTEGER); Some (BQScalar INTEGER)])))
      as [H _]; [vm_compute; reflexivity|].
    edestruct (H 0%nat) as [Herr _];
      [reflexivity | reflexivity | reflexivity | intros j e' Hj; lia | exact Herr].
  - edestruct (@ungrouped_field_is_an_error demo
                 [Selector (Field ["a"]) None (Some 1); Selector (Field ["b"]) None (Some 2)]
                 (set_table (demo_init ∅) (int_table ["a"; "b"] [[1; 3]; [6; 3]])))
      as [_ H]; [vm_compute; reflexivity|].
    specialize (H ltac:(repeat constructor)).
    edestruct H with (idx := [PInt 0; PInt 1])
      as (df & Hdf & Hcols & Hidx & Hrows);
      [vm_compute; reflexivity | discriminate | repeat constructor |].
    exists df. split; [exact Hdf|]. split; [exact Hcols|]. split; [exact Hidx|].
    rewrite (Hrows 1%nat) by (simpl; lia). reflexivity.
Defined.

(** ** ORDER BY *)



(** ** ROW_NUMBER *)


(* ===================================================================== *)
(** * Worked examples of the further properties *)
(* ===================================================================== *)

(** ** LIMIT and OFFSET *)

(** SELECT * FROM my_table LIMIT 2 OFFSET 1 on the rows 1, 2, 3, 4. *)
Lemma limit_offset_rows_witness :
  QueryExpression_limit (Value (PInt 2) (Some INTEGER), Some (Value (PInt 1) (Some INTEGER)))
    (int_table ["a"] [[1]; [2]; [3]; [4]]) =
    Ok (mkTypedDataFrame
          (Frame (mkDataFrame ["a"] [(PInt 1, [PInt 2]); (PInt 2, [PInt 3])]))
          [Some (BQScalar INTEGER)]).
Proof.
  destruct (limit_offset_rows (Value (PInt 2) (Some INTEGER))
              (Some (Value (PInt 1) (Some INTEGER)))
              (int_table ["a"] [[1]; [2]; [3]; [4]])
              (mkDataFrame ["a"] [(PInt 0, [PInt 1]); (PInt 1, [PInt 2]);
                                  (PInt 2, [PInt 3]); (PInt 3, [PInt 4])]) 2 1)
    as [H _]; [vm_compute; reflexivity | vm_compute; reflexivity | reflexivity | lia | lia |].
  exact H.
Defined.

(** ** Spellings of a table reference *)

Lemma table_reference_spellings_witness :
  get_dataframe (TableReference (TableReference_init ["my_table"]))
    (catalog (int_table ["a"] [[1]])) =
    (Ok (int_table ["a"] [[1]], Some "my_table"), TableReference my_table) /\
  get_dataframe (TableReference (TableReference_init ["my_project.my_dataset.my_table"]))
    (catalog (int_table ["a"] [[1]])) =
    (Ok (int_table ["a"] [[1]], Some "my_table"), TableReference my_table).
Proof.
  destruct (table_reference_spellings "my_project" "my_dataset" "my_table"
              {[ "my_table" := int_table ["a"] [[1]] ]} (int_table ["a"] [[1]]))
    as (_ & _ & H3 & H4); [reflexivity | reflexivity | reflexivity | |].
  - apply (lookup_singleton_eq (M := gmap string)).
  - split; [exact H3 | exact H4].
Defined.

(** ** The select list *)

(** SELECT a, 1, 2: the literals have no name of their own and are called
    _f2 and _f3. *)
Lemma select_fields_are_numbered_witness :
  let fs := [Selector (Field ["a"]) None None;
             Selector (Value (PInt 1) (Some INTEGER)) None None;
             Selector (Value (PInt 2) (Some INTEGER)) None None] in
  exists s names,
    Select_init None fs None None None None = Ok s /\
    fields s !! 1%nat = Some (Selector (Value (PInt 1) (Some INTEGER)) None (Some 2)) /\
    mapM field_name (filter (fun f => is_Selector f = true) (fields s)) = Ok names /\
    length names = 3%nat.
Proof.
  cbv zeta.
  edestruct (select_fields_are_numbered None
               [Selector (Field ["a"]) None None;
                Selector (Value (PInt 1) (Some INTEGER)) None None;
                Selector (Value (PInt 2) (Some INTEGER)) None None]
               None None None None)
    as (_ & Hpos & (names & Hnames & Hlen) & _); [reflexivity|].
  eexists _, names. split; [reflexivity|]. split; [|split; [exact Hnames|exact Hlen]].
  exact (Hpos 1%nat _ _ _ eq_refl).
Defined.

(** ** Function calls *)

(** SUM(a) OVER (PARTITION BY p ORDER BY o DESC), copied onto its own
    children. *)
Lemma analytic_copy_keeps_shape_witness :
  AnalyticFunctionCall_copy Sum 1 1 [false] [Field ["a"]; Field ["p"]; Field ["o"]] =
  AnalyticFunctionCall Sum [Field ["a"]; Field ["p"]; Field ["o"]] 1 1 [false].
Proof.
  destruct (analytic_copy_keeps_shape Sum [Field ["a"]] [Field ["p"]] [Field ["o"]] [false])
    as (H & _ & _); [reflexivity|].
  apply H. discriminate.
Defined.

(** COUNT(x) with a literal that is no star; COUNT(ALL a). *)
Lemma count_factory_witness :
  Count_create_count_function_call (CountLiteral "x") None =
    Error (Raise ValueError "Invalid expression COUNT({})" [FStr "x"]) /\
  Count_create_count_function_call (CountExpression (Some "ALL") (Field ["a"])) None =
    Error (Raise NotImplementedError
             "Non-DISTINCT modifiers for COUNT are not implemented: {}" [FStr "ALL"]) /\
  Count_create_count_function_call (CountExpression (Some "DISTINCT") (Field ["a"])) None =
    Ok (AggregatingFunctionCall (Count true) [Field ["a"]]).
Proof.
  destruct (count_factory None) as (_ & H2 & H3 & H4).
  split; [|split].
  - apply H2. discriminate.
  - apply H3. discriminate.
  - apply (H4 (Some "DISTINCT")). by right.
Defined.

(** COUNT( * ) on a table of three rows. *)
Lemma count_counts_non_null_rows_witness :
  exists star s,
    Value_evaluate_leaf_node (PInt 1) (Some INTEGER) (int_table ["a"] [[7]; [8]; [9]]) =
      Ok star /\
    series star = PlainSeries s /\
    Count_aggregating_function false [s] = Ok (PInt 3).
Proof.
  destruct (count_counts_non_null_rows (mkSeries None []))
    as (c & d & _ & _ & _ & _ & _ & _ & Hstar).
  edestruct Hstar with (t := int_table ["a"] [[7]; [8]; [9]]) (type_ := Some INTEGER)
    as (s & Hs & Hcount);
    [reflexivity | vm_compute; reflexivity |].
  eexists _, s. split; [vm_compute; reflexivity|]. split; [exact Hs|exact Hcount].
Defined.

(** sum(a) and SUM(a). *)
Lemma function_call_create_shape_witness :
  FunctionCall_create "sum" (Some [Field ["a"]]) None =
    FunctionCall_create "SUM" (Some [Field ["a"]]) None /\
  exists function_info,
    FUNCTION_MAP !! "SUM" = Some function_info /\
    Function_name function_info = "SUM".
Proof.
  destruct (function_call_create_shape "sum" (Some [Field ["a"]]) None) as [Hcase Hshape].
  split; [exact Hcase|].
  destruct (Hshape (AggregatingFunctionCall Sum [Field ["a"]]))
    as (f & Hf & Hname & _); [vm_compute; reflexivity|].
  exists f. split; [exact Hf|exact Hname].
Defined.

(** ** The wildcard of a select list *)

(** SELECT * EXCEPT (b) on a table with the columns a and t.b. *)
Lemma star_selector_expansion_witness :
  let context := set_table (demo_init ∅) (int_table ["a"; "t.b"] [[1; 2]]) in
  StarSelector_get_selectors None None None context =
    Ok [Selector (Field ["a"]) (Some "a") None; Selector (Field ["t"; "b"]) (Some "b") None] /\
  exists kept,
    StarSelector_get_selectors None (Some ["b"]) None context = Ok kept /\
    forall selector alias,
      selector ∈ kept -> selector_alias selector = Some alias -> alias ∉ ["b"].
Proof.
  cbv zeta.
  destruct (star_selector_expansion
              (set_table (demo_init ∅) (int_table ["a"; "t.b"] [[1; 2]])))
    as (H1 & _ & _ & H4 & _).
  split.
  - destruct (H1 _ eq_refl) as (selectors & Hsel & _). vm_compute. reflexivity.
  - destruct (H4 None ["b"] _ ltac:(vm_compute; reflexivity))
      as (kept & Hkept & _ & _ & Hnot).
    exists kept. split; [exact Hkept|exact Hnot].
Defined.

(** ** IF and CASE *)

(** IF(c, t, e) and CASE WHEN c1 THEN t1 WHEN c2 THEN t2 ELSE e END on
    three rows. *)
Ltac each_row_holds :=
  vm_compute; repeat (constructor; [eexists; reflexivity|]); constructor.

Lemma if_selects_per_row_witness :
  If_evaluate_node [bool_column "c" [true; false; true]; int_column "t" [1; 2; 3];
                    int_column "e" [10; 20; 30]] =
    Ok (int_column "t" [1; 20; 3]).
Proof.
  destruct (if_selects_per_row (bool_column "c" [true; false; true])
              (int_column "t" [1; 2; 3]) (int_column "e" [10; 20; 30])
              [PInt 0; PInt 1; PInt 2]) as (H & _ & _).
  rewrite H.
  - vm_compute. reflexivity.
  - eexists. split; reflexivity.
  - eexists. split; reflexivity.
  - eexists. split; reflexivity.
  - split; [reflexivity|]. each_row_holds.
Defined.

Lemma case_copy_keeps_first_when_witness :
  Case_copy [Field ["c1"]; Field ["t1"]; Field ["c2"]; Field ["t2"]; Field ["e"]] =
    Ok [Field ["c1"]; Field ["t1"]; Field ["e"]].
Proof.
  destruct case_copy_keeps_first_when as (_ & _ & H).
  apply (H (Field ["c1"]) (Field ["t1"]) [Field ["c2"]; Field ["t2"]] (Field ["e"])).
  reflexivity.
Defined.

Lemma case_takes_first_true_when_witness :
  Case_evaluate_node
    [bool_column "c1" [true; false; false]; int_column "t1" [1; 2; 3];
     bool_column "c2" [true; true; false]; int_column "t2" [10; 20; 30];
     int_column "e" [100; 200; 300]] =
    Ok (int_column "t1" [1; 20; 300]).
Proof.
  pose proof (case_takes_first_true_when
                [(bool_column "c1" [true; false; false], int_column "t1" [1; 2; 3]);
                 (bool_column "c2" [true; true; false], int_column "t2" [10; 20; 30])]
                (int_column "e" [100; 200; 300]) [PInt 0; PInt 1; PInt 2]) as H.
  cbn [map concat app fst snd] in H. rewrite H.
  - vm_compute. reflexivity.
  - repeat (constructor;
            [split; [eexists; split; reflexivity|];
             split; [|eexists; split; reflexivity];
             split; [reflexivity|]; each_row_holds|]).
    constructor.
  - eexists. split; reflexivity.
Defined.

(** ** NOT, unary minus and null checks *)

Lemma not_negates_each_row_witness :
  Not_evaluate_node [EvSeries (bool_column "c" [true; false])] =
    Ok (bool_column "c" [false; true]) /\
  Not_evaluate_node [EvSeries (int_column "a" [1; 2])] =
    Error (Raise ValueError "NOT accepts only booleans but was given type: {}" []).
Proof.
  split.
  - destruct (not_negates_each_row (bool_column "c" [true; false])
                (mkSeries (Some "c") [(PInt 0, PBool true); (PInt 1, PBool false)]))
      as (H & _).
    destruct H as (r & Hr & -> & _); [reflexivity| |exact Hr].
    split; [reflexivity|]. each_row_holds.
  - destruct (not_negates_each_row (int_column "a" [1; 2]) (mkSeries None []))
      as (_ & H & _).
    apply H. reflexivity.
Defined.


(** x IS NULL and NOT (x IS NULL) on the rows 1, NULL. *)
Lemma null_checks_are_complementary_witness :
  let x := mkTypedSeries
             (PlainSeries (mkSeries (Some "x") [(PInt 0, PInt 1); (PInt 1, PNone)]))
             (Some (BQScalar INTEGER)) in
  NullCheck_init (Field ["x"]) "IS_NULL" = Ok ([Field ["x"]], true) /\
  NullCheck_evaluate_node true [EvSeries x] = Ok (bool_column "x" [false; true]) /\
  Not_evaluate_node [EvSeries (bool_column "x" [false; true])] =
    NullCheck_evaluate_node false [EvSeries x].
Proof.
  cbv zeta. destruct null_checks_are_complementary as (H1 & _ & H3).
  split; [exact (H1 (Field ["x"]) "IS_NULL")|].
  destruct (H3 (mkTypedSeries
                  (PlainSeries (mkSeries (Some "x") [(PInt 0, PInt 1); (PInt 1, PNone)]))
                  (Some (BQScalar INTEGER)))
               (mkSeries (Some "x") [(PInt 0, PInt 1); (PInt 1, PNone)]) [] eq_refl)
    as (a & b & Ha & Hb & _ & _ & _ & Hnot).
  split; [vm_compute; reflexivity|].
  vm_compute in Ha. injection Ha as <-. rewrite Hb. exact Hnot.
Defined.

(** ** Aggregates *)


(** SELECT a, SUM(b), 1 ... GROUP BY a on the rows (1, 10), (2, 20),
    (1, 30). *)
Lemma groups_share_one_index_witness :
  let df := mkDataFrame ["a"; "b"]
              [(PInt 0, [PInt 1; PInt 10]); (PInt 1, [PInt 2; PInt 20]);
               (PInt 2, [PInt 1; PInt 30])] in
  exists g aggregate,
    grouped_column df ["a"] "b" = Ok g /\
    AggregatingFunctionCall_evaluate_in_group_by Sum g = Ok aggregate /\
    s_items aggregate = [(PInt 1, PInt 40); (PInt 2, PInt 20)] /\
    NoDup (s_index aggregate).
Proof.
  cbv zeta.
  edestruct (groups_share_one_index
               (mkDataFrame ["a"; "b"]
                  [(PInt 0, [PInt 1; PInt 10]); (PInt 1, [PInt 2; PInt 20]);
                   (PInt 2, [PInt 1; PInt 30])])
               ["a"] "b" [Some (BQScalar INTEGER); Some (BQScalar INTEGER)] Sum)
    with (value := PInt 1) (type_ := Some INTEGER)
    as (_ & Hnd & _ & _);
    [vm_compute; reflexivity | vm_compute; reflexivity | vm_compute; reflexivity |].
  eexists _, _. split; [vm_compute; reflexivity|]. split; [vm_compute; reflexivity|].
  split; [reflexivity|]. exact Hnd.
Defined.

(** ** IN, EXTRACT and selectors *)

(** a IN (x, y) on three rows. *)
Lemma in_check_rows_witness :
  InCheck_evaluate_node true
    [int_column "a" [1; 2; 3]; int_column "x" [1; 1; 1]; int_column "y" [3; 0; 3]] =
    Ok (mkTypedSeries
          (PlainSeries
             (mkSeries None
                [(PInt 0, PBool true); (PInt 1, PBool false); (PInt 2, PBool true)]))
          (Some (BQScalar BOOLEAN))).
Proof.
  destruct in_check_rows as (_ & _ & H).
  rewrite (H true (int_column "a" [1; 2; 3])
             (mkSeries (Some "a") [(PInt 0, PInt 1); (PInt 1, PInt 2); (PInt 2, PInt 3)])
             [int_column "x" [1; 1; 1]; int_column "y" [3; 0; 3]]).
  - vm_compute. reflexivity.
  - reflexivity.
  - reflexivity.
  - repeat (constructor; [eexists; split; reflexivity|]). constructor.
Defined.

(** EXTRACT(week(monday) FROM t). *)
Lemma extract_parts_witness :
  Extract_init "week(monday)" (Field ["t"]) = Ok ("WEEK(MONDAY)", [Field ["t"]]) /\
  Extract_evaluate_node "WEEK(MONDAY)" [int_column "t" [1]] =
    Error (Raise NotImplementedError "{} not implemented" [FStr "WEEK(MONDAY)"]).
Proof.
  destruct (extract_parts "week(monday)" (Field ["t"])) as (_ & H2 & _ & H4).
  split.
  - apply H2. apply (bool_decide_unpack _). vm_compute. exact I.
  - apply (H4 "MONDAY"). apply (bool_decide_unpack _). vm_compute. exact I.
Defined.

(** The selector a, first of its select list, copied onto the field b. *)
Lemma selector_copy_keeps_name_witness :
  Selector_copy (Field ["a"]) None (Some 1) [Field ["b"]] =
    Ok (Selector (Field ["b"]) (Some "a") None) /\
  Selector_name (Field ["b"]) (Some "a") None = Ok "a".
Proof.
  destruct (selector_copy_keeps_name (Field ["a"]) None (Some 1) "a") as (H & _ & _);
    [reflexivity|].
  apply H.
Defined.
